(** * IndeksdDB: the schema parser and the renderer of the [get] client

    A shallow embedding of the recursive-descent parser ([createParser]),
    of the item-name and client-type renderer ([client/type.ts]) and of the
    renderer of the [get] method ([client/getMethod.ts]), together with a
    small evaluator for the fragment of TypeScript that the renderer emits. *)

From Stdlib Require Import String Ascii List Bool Arith Lia ZArith.
Import ListNotations.
Local Open Scope string_scope.
Local Open Scope list_scope.

Set Implicit Arguments.
Set Warnings "-register-all".

(** ** Tokens and the schema syntax tree *)

Module Kind.
(** [SyntaxKind]: in the source a union of string literals. *)
Inductive t : Set :=
| DatabaseKeyword | TableKeyword | TypeKeyword
| TrueKeyword | FalseKeyword
| BooleanKeyword | StringKeyword | NumberKeyword
| Identifier
| StringLiteral | IntegerLiteral | FloatLiteral
| AtToken | LeftParenToken | RightParenToken
| LeftBraceToken | RightBraceToken
| LessThanToken | GreaterThanToken
| ColonToken | SemicolonToken | CommaToken | EqualToken | PipeToken
| EOF.

Definition eq_dec (a b : t) : {a = b} + {a <> b}.
Proof. decide equality. Defined.

(** [a === b] on kinds. *)
Definition eqb (a b : t) : bool := if eq_dec a b then true else false.

(** The kind as the string it is in the source (used by template strings). *)
Definition name (k : t) : string :=
  match k with
  | DatabaseKeyword => "DatabaseKeyword" | TableKeyword => "TableKeyword"
  | TypeKeyword => "TypeKeyword"
  | TrueKeyword => "TrueKeyword" | FalseKeyword => "FalseKeyword"
  | BooleanKeyword => "BooleanKeyword" | StringKeyword => "StringKeyword"
  | NumberKeyword => "NumberKeyword"
  | Identifier => "Identifier"
  | StringLiteral => "StringLiteral" | IntegerLiteral => "IntegerLiteral"
  | FloatLiteral => "FloatLiteral"
  | AtToken => "AtToken" | LeftParenToken => "LeftParenToken"
  | RightParenToken => "RightParenToken"
  | LeftBraceToken => "LeftBraceToken" | RightBraceToken => "RightBraceToken"
  | LessThanToken => "LessThanToken" | GreaterThanToken => "GreaterThanToken"
  | ColonToken => "ColonToken" | SemicolonToken => "SemicolonToken"
  | CommaToken => "CommaToken" | EqualToken => "EqualToken"
  | PipeToken => "PipeToken"
  | EOF => "EOF"
  end.
End Kind.

Definition SyntaxKind := Kind.t.

(** A position in the source text.  The parser only copies positions. *)
Definition TextPosition := nat.

Record TextLocation : Set :=
  createTextLocation { loc_start : TextPosition; loc_end : TextPosition }.

Record Token : Set :=
  mkToken { kind : SyntaxKind; text : string; loc : TextLocation }.

Record Identifier : Set :=
  createIdentifier { id_value : string; id_loc : TextLocation }.

Record StringLiteral : Set :=
  createStringLiteral { sl_value : string; sl_loc : TextLocation }.

Record Annotation : Set :=
  createAnnotation {
    ann_name : Identifier;
    ann_arguments : list StringLiteral;
    ann_loc : TextLocation }.

Inductive TypeNode : Set :=
| KeywordType (k : SyntaxKind) (l : TextLocation)
| TypeReferenceNode (name : Identifier) (typeArgs : list TypeNode)
    (l : TextLocation)
| StringLiteralType (s : StringLiteral)
| IntegerLiteralType (value : string) (l : TextLocation)
| FloatLiteralType (value : string) (l : TextLocation)
| BooleanLiteralType (value : bool) (l : TextLocation).

Record FieldDefinition : Set :=
  createFieldDefinition {
    fld_name : Identifier;
    fld_annotations : list Annotation;
    fld_type : TypeNode;
    fld_loc : TextLocation }.

Record TableDefinition : Set :=
  createTableDefinition {
    tbl_name : Identifier;
    tbl_body : list FieldDefinition;
    tbl_annotations : list Annotation;
    tbl_loc : TextLocation }.

Record DatabaseDefinition : Set :=
  createDatabaseDefinition {
    db_name : Identifier;
    db_body : list TableDefinition;
    db_loc : TextLocation }.

Record TypeDefinition : Set :=
  createTypeDefinition {
    ty_name : Identifier;
    ty_body : list TypeNode;
    ty_loc : TextLocation }.

Inductive Definition_ : Set :=
| DatabaseDef (d : DatabaseDefinition)
| TypeDef (d : TypeDefinition).

Record DatabaseSchema : Set :=
  createDatabaseSchema { schema_body : list Definition_ }.

(** ** The parser *)

Module Parser.

(** What a production can throw: the parser's own [ParseError], or the
    [TypeError] JavaScript raises when a property of [undefined] is read
    (the cursor has left the token array). *)
Inductive Thrown : Set :=
| ParseError (msg : string) (l : TextLocation)
| TypeError.

(** The result of running a production from a cursor position. *)
Inductive Outcome (A : Type) : Type :=
| Returns (a : A) (currentIndex : nat)
| Throws (e : Thrown)
| OutOfFuel.
Arguments Throws {A} e.
Arguments OutOfFuel {A}.

(** A production reads and moves the cursor [currentIndex]. *)
Definition M (A : Type) : Type := nat -> Outcome A.

Definition ret {A} (a : A) : M A := fun i => Returns a i.

Definition bind {A B} (m : M A) (k : A -> M B) : M B :=
  fun i =>
    match m i with
    | Returns a j => k a j
    | Throws e => Throws e
    | OutOfFuel => OutOfFuel
    end.

Definition throw {A} (e : Thrown) : M A := fun _ => Throws e.

Definition outOfFuel {A} : M A := fun _ => OutOfFuel.

Declare Scope parser_scope.
Delimit Scope parser_scope with parser.
Notation "x <- m ;; k" := (bind m (fun x => k))
  (at level 61, m at next level, right associativity) : parser_scope.
Notation "m ;;; k" := (bind m (fun _ => k))
  (at level 61, right associativity) : parser_scope.
Local Open Scope parser_scope.

Definition isStartOfDefinition (token : Token) : bool :=
  match kind token with
  | Kind.DatabaseKeyword | Kind.TableKeyword | Kind.TypeKeyword => true
  | _ => false
  end.

(** The kinds on which an iteration of the argument loop of
    [parseAnnotationArgs] below neither leaves the loop (no closing
    paren), nor moves the cursor (no comma, no string literal), nor throws
    (no start of a definition, no end of file). *)
Definition staysInArgumentLoop (k : SyntaxKind) : bool :=
  match k with
  | Kind.RightParenToken | Kind.CommaToken | Kind.StringLiteral
  | Kind.DatabaseKeyword | Kind.TableKeyword | Kind.TypeKeyword
  | Kind.EOF => false
  | _ => true
  end.

Section CreateParser.

Variable tokens : list Token.

(** [tokens[currentIndex]], [undefined] out of range. *)
Definition currentToken : M (option Token) :=
  fun i => Returns (nth_error tokens i) i.

(** [tokens[currentIndex - 1]]. *)
Definition previousToken : M (option Token) :=
  fun i =>
    Returns (match i with O => None | S j => nth_error tokens j end) i.

(** Reading a property of a token that may be [undefined]. *)
Definition deref (t : option Token) : M Token :=
  match t with
  | Some tok => ret tok
  | None => throw TypeError
  end.

Fixpoint check (types : list SyntaxKind) : M bool :=
  match types with
  | [] => ret false
  | type :: rest =>
      cur <- currentToken ;;
      tok <- deref cur ;;
      if Kind.eqb type (kind tok) then ret true else check rest
  end.

Definition isAtEnd : M bool :=
  fun i =>
    if (List.length tokens <=? i)%nat then Returns true i
    else (cur <- currentToken ;;
          tok <- deref cur ;;
          ret (Kind.eqb (kind tok) Kind.EOF)) i.

Definition advance : M (option Token) :=
  atEnd <- isAtEnd ;;
  (if atEnd then ret tt else fun i => Returns tt (i + 1)) ;;;
  previousToken.

Fixpoint consume (types : list SyntaxKind) : M (option Token) :=
  match types with
  | [] => ret None
  | type :: rest =>
      c <- check [type] ;;
      if c then advance else consume rest
  end.

Definition reportError (msg : string) : M Thrown :=
  cur <- currentToken ;;
  tok <- deref cur ;;
  ret (ParseError msg (loc tok)).

Definition requireValue {T} (val : option T) (msg : string) : M T :=
  match val with
  | None => e <- reportError msg ;; throw e
  | Some v => ret v
  end.

Definition readListSeparator : M (option Token) :=
  c <- check [Kind.CommaToken] ;;
  if c then advance else ret None.

(** The runaway test that ends the loop body of [parseAnnotationArgs],
    [parseFields] and [parseTypeNodes]:
    [if (isStartOfDefinition(currentToken())) throw reportError(onDefinition);
     else if (check('EOF')) throw reportError(onEOF)]. *)
Definition runawayCheck (onDefinition onEOF : string) : M unit :=
  cur <- currentToken ;;
  tok <- deref cur ;;
  if isStartOfDefinition tok then e <- reportError onDefinition ;; throw e
  else
    c <- check [Kind.EOF] ;;
    if c then e <- reportError onEOF ;; throw e else ret tt.

(** [parseAnnotationArgs]: the loop over the arguments, one unit of fuel
    an iteration. *)
Fixpoint parseAnnotationArgs_loop (fuel : nat) (args : list StringLiteral)
  : M (list StringLiteral) :=
  match fuel with
  | O => outOfFuel
  | S fuel' =>
      c <- check [Kind.RightParenToken] ;;
      if c then ret args
      else
        readListSeparator ;;;
        arg <- consume [Kind.StringLiteral] ;;
        let args' :=
          match arg with
          | Some a => args ++ [createStringLiteral (text a) (loc a)]
          | None => args
          end in
        runawayCheck
          "Closing paren ')' expected, but new definition found"
          "Closing paren ')' expected but reached end of file" ;;;
        parseAnnotationArgs_loop fuel' args'
  end.

Definition parseAnnotationArgs (fuel : nat) : M (list StringLiteral) :=
  openParen <- consume [Kind.LeftParenToken] ;;
  match openParen with
  | None => ret []
  | Some _ =>
      args <- parseAnnotationArgs_loop fuel [] ;;
      consume [Kind.RightParenToken] ;;;
      ret args
  end.

Definition parseAnnotation (fuel : nat) : M (option Annotation) :=
  _atToken <- consume [Kind.AtToken] ;;
  atToken <- requireValue _atToken "Unable to find identifier for field" ;;
  _nameToken <- consume [Kind.Identifier] ;;
  nameToken <- requireValue _nameToken "Annotation must have a name" ;;
  args <- parseAnnotationArgs fuel ;;
  ret (Some (createAnnotation
               (createIdentifier (text nameToken) (loc nameToken))
               args
               (createTextLocation (loc_start (loc atToken))
                                   (loc_end (loc nameToken))))).

Fixpoint parseAnnotations_loop (fuel : nat) (annotations : list Annotation)
  : M (list Annotation) :=
  match fuel with
  | O => outOfFuel
  | S fuel' =>
      c <- check [Kind.AtToken] ;;
      if c then
        annotation <- parseAnnotation fuel' ;;
        parseAnnotations_loop fuel'
          (match annotation with
           | Some a => annotations ++ [a]
           | None => annotations
           end)
      else ret annotations
  end.

Definition parseAnnotations (fuel : nat) : M (list Annotation) :=
  parseAnnotations_loop fuel [].

(** [parseTypeReferenceNode], with the recursive call to [parseTypeNode]
    passed in. *)
Fixpoint parseTypeArgs_loop (parseTypeNode_rec : M TypeNode) (fuel : nat)
  (typeArgs : list TypeNode) : M (list TypeNode) :=
  match fuel with
  | O => outOfFuel
  | S fuel' =>
      c <- check [Kind.GreaterThanToken] ;;
      if c then ret typeArgs
      else
        typeArg <- parseTypeNode_rec ;;
        c' <- check [Kind.GreaterThanToken] ;;
        (if c' then
           commaToken <- consume [Kind.GreaterThanToken] ;;
           requireValue commaToken
             "Type variables must be separated by a comma" ;;;
           ret tt
         else ret tt) ;;;
        parseTypeArgs_loop parseTypeNode_rec fuel' (typeArgs ++ [typeArg])
  end.

Definition parseTypeReferenceNode (parseTypeNode_rec : M TypeNode)
  (fuel : nat) : M TypeNode :=
  _nameToken <- consume [Kind.Identifier] ;;
  nameToken <- requireValue _nameToken
                 "Unable to find identifier for field" ;;
  openBracket <- consume [Kind.LessThanToken] ;;
  r <- match openBracket with
       | Some _ =>
           typeArgs <- parseTypeArgs_loop parseTypeNode_rec fuel [] ;;
           _closeBracket <- consume [Kind.GreaterThanToken] ;;
           closeBracket <- requireValue _closeBracket
                             "Map needs to defined contained types" ;;
           ret (typeArgs, closeBracket)
       | None => ret ([], nameToken)
       end ;;
  let '(typeArgs, endToken) := r in
  ret (TypeReferenceNode
         (createIdentifier (text nameToken) (loc nameToken))
         typeArgs
         (createTextLocation (loc_start (loc nameToken))
                             (loc_end (loc endToken)))).

Fixpoint parseTypeNode (fuel : nat) : M TypeNode :=
  match fuel with
  | O => outOfFuel
  | S fuel' =>
      cur <- currentToken ;;
      typeToken <- deref cur ;;
      match kind typeToken with
      | Kind.Identifier =>
          parseTypeReferenceNode (parseTypeNode fuel') fuel'
      | Kind.BooleanKeyword | Kind.StringKeyword | Kind.NumberKeyword =>
          advance ;;;
          ret (KeywordType (kind typeToken) (loc typeToken))
      | Kind.StringLiteral =>
          advance ;;;
          ret (StringLiteralType
                 (createStringLiteral (text typeToken) (loc typeToken)))
      | Kind.IntegerLiteral =>
          advance ;;;
          ret (IntegerLiteralType (text typeToken) (loc typeToken))
      | Kind.FloatLiteral =>
          advance ;;;
          ret (FloatLiteralType (text typeToken) (loc typeToken))
      | Kind.TrueKeyword =>
          advance ;;; ret (BooleanLiteralType true (loc typeToken))
      | Kind.FalseKeyword =>
          advance ;;; ret (BooleanLiteralType false (loc typeToken))
      | k =>
          e <- reportError ("TypeNode expected but found: " ++ Kind.name k) ;;
          throw e
      end
  end.

Fixpoint parseTypeNodes_loop (fuel : nat) (typeNodes : list TypeNode)
  : M (list TypeNode) :=
  match fuel with
  | O => outOfFuel
  | S fuel' =>
      c <- check [Kind.SemicolonToken] ;;
      if c then ret typeNodes
      else
        t <- parseTypeNode fuel' ;;
        consume [Kind.PipeToken] ;;;
        runawayCheck
          "Closing semicolon expected, but new statement found"
          "Closing semicolon expected but reached end of file" ;;;
        parseTypeNodes_loop fuel' (typeNodes ++ [t])
  end.

Definition parseTypeNodes (fuel : nat) : M (list TypeNode) :=
  parseTypeNodes_loop fuel [].

Definition parseField (fuel : nat) : M FieldDefinition :=
  cur <- currentToken ;;
  startTok <- deref cur ;;
  let startLoc := loc startTok in
  annotations <- parseAnnotations fuel ;;
  _nameToken <- consume [Kind.Identifier] ;;
  nameToken <- requireValue _nameToken
                 "Unable to find identifier for field" ;;
  colonToken <- consume [Kind.ColonToken] ;;
  requireValue colonToken "Type annotation expected for field" ;;;
  type <- parseTypeNode fuel ;;
  _semicolon <- consume [Kind.SemicolonToken] ;;
  semicolon <- requireValue _semicolon
                 "Field definition should end with semicolon" ;;
  let endLoc := loc semicolon in
  ret (createFieldDefinition
         (createIdentifier (text nameToken) (loc nameToken))
         annotations
         type
         (createTextLocation (loc_start startLoc) (loc_end endLoc))).

Fixpoint parseFields_loop (fuel : nat) (fields : list FieldDefinition)
  : M (list FieldDefinition) :=
  match fuel with
  | O => outOfFuel
  | S fuel' =>
      c <- check [Kind.RightBraceToken] ;;
      if c then ret fields
      else
        f <- parseField fuel' ;;
        runawayCheck
          "Closing curly brace expected, but new statement found"
          "Closing curly brace expected but reached end of file" ;;;
        parseFields_loop fuel' (fields ++ [f])
  end.

Definition parseFields (fuel : nat) : M (list FieldDefinition) :=
  parseFields_loop fuel [].

Definition parseTableDefinition (fuel : nat) : M TableDefinition :=
  _keywordToken <- consume [Kind.TableKeyword] ;;
  keywordToken <- requireValue _keywordToken
                    "Unable to find table keyword for table" ;;
  _nameToken <- consume [Kind.Identifier] ;;
  nameToken <- requireValue _nameToken
                 "Unable to find identifier for table" ;;
  annotations <- parseAnnotations fuel ;;
  _openBrace <- consume [Kind.LeftBraceToken] ;;
  requireValue _openBrace "Expected opening curly brace" ;;;
  fields <- parseFields fuel ;;
  _closeBrace <- consume [Kind.RightBraceToken] ;;
  closeBrace <- requireValue _closeBrace "Expected closing curly brace" ;;
  ret (createTableDefinition
         (createIdentifier (text nameToken) (loc nameToken))
         fields
         annotations
         (createTextLocation (loc_start (loc keywordToken))
                             (loc_end (loc closeBrace)))).

Fixpoint parseTableDefinitions_loop (fuel : nat)
  (tables : list TableDefinition) : M (list TableDefinition) :=
  match fuel with
  | O => outOfFuel
  | S fuel' =>
      c <- check [Kind.RightBraceToken] ;;
      if c then ret tables
      else
        t <- parseTableDefinition fuel' ;;
        c1 <- check [Kind.DatabaseKeyword] ;;
        (if c1 then
           e <- reportError
                  "Closing curly brace expected, but new database found" ;;
           throw e
         else
           c2 <- check [Kind.EOF] ;;
           if c2 then
             e <- reportError
                    "Closing curly brace expected but reached end of file" ;;
             throw e
           else ret tt) ;;;
        parseTableDefinitions_loop fuel' (tables ++ [t])
  end.

Definition parseTableDefinitions (fuel : nat) : M (list TableDefinition) :=
  parseTableDefinitions_loop fuel [].

Definition parseDatabaseDefinition (fuel : nat) : M DatabaseDefinition :=
  _keywordToken <- consume [Kind.DatabaseKeyword] ;;
  keywordToken <- requireValue _keywordToken
                    "Unable to find database keyword for database" ;;
  _nameToken <- consume [Kind.Identifier] ;;
  nameToken <- requireValue _nameToken
                 "Unable to find identifier for database" ;;
  openBrace <- consume [Kind.LeftBraceToken] ;;
  requireValue openBrace "Expected opening curly brace" ;;;
  tables <- parseTableDefinitions fuel ;;
  _closeBrace <- consume [Kind.RightBraceToken] ;;
  closeBrace <- requireValue _closeBrace "Expected closing curly brace" ;;
  ret (createDatabaseDefinition
         (createIdentifier (text nameToken) (loc nameToken))
         tables
         (createTextLocation (loc_start (loc keywordToken))
                             (loc_end (loc closeBrace)))).

Definition parseTypeDefinition (fuel : nat) : M TypeDefinition :=
  _keywordToken <- consume [Kind.TypeKeyword] ;;
  keywordToken <- requireValue _keywordToken
                    "Unable to find type keyword for type" ;;
  _nameToken <- consume [Kind.Identifier] ;;
  nameToken <- requireValue _nameToken
                 "Unable to find identifier for type" ;;
  equalToken <- consume [Kind.EqualToken] ;;
  requireValue equalToken "Expected '='" ;;;
  body <- parseTypeNodes fuel ;;
  _semicolon <- consume [Kind.SemicolonToken] ;;
  semicolon <- requireValue _semicolon
                 "Field definition should end with semicolon" ;;
  let endLoc := loc semicolon in
  ret (createTypeDefinition
         (createIdentifier (text nameToken) (loc nameToken))
         body
         (createTextLocation (loc_start (loc keywordToken))
                             (loc_end endLoc))).

Definition parseDefinition (fuel : nat) : M (option Definition_) :=
  cur <- currentToken ;;
  next <- deref cur ;;
  match kind next with
  | Kind.DatabaseKeyword =>
      d <- parseDatabaseDefinition fuel ;; ret (Some (DatabaseDef d))
  | Kind.TypeKeyword =>
      d <- parseTypeDefinition fuel ;; ret (Some (TypeDef d))
  | _ =>
      e <- reportError
             ("Invalid start to Database definition " ++ text next) ;;
      throw e
  end.

Fixpoint parse_loop (fuel : nat) (body : list Definition_)
  : M (list Definition_) :=
  match fuel with
  | O => outOfFuel
  | S fuel' =>
      atEnd <- isAtEnd ;;
      if atEnd then ret body
      else
        def <- parseDefinition fuel' ;;
        parse_loop fuel'
          (match def with Some d => body ++ [d] | None => body end)
  end.

(** [parse()] on a fresh parser: the cursor starts at 0. *)
Definition parse (fuel : nat) : Outcome DatabaseSchema :=
  (body <- parse_loop fuel [] ;; ret (createDatabaseSchema body)) 0.

(** Finds the beginning of the next definition. *)
Fixpoint synchronize (fuel : nat) : M unit :=
  match fuel with
  | O => outOfFuel
  | S fuel' =>
      atEnd <- isAtEnd ;;
      if atEnd then ret tt
      else
        cur <- currentToken ;;
        tok <- deref cur ;;
        if isStartOfDefinition tok then ret tt
        else advance ;;; synchronize fuel'
  end.

End CreateParser.

End Parser.

(** ** The TypeScript syntax tree the renderer builds

    The nodes of [ts.factory] that the renderer calls, by the name of the
    node each [create...] function returns.  Arguments the renderer always
    passes as [undefined] (decorators, modifiers, type parameters of
    functions, the arrow token) are left out. *)

Module ts.

Inductive KeywordKind : Set := NumberKeyword | StringKeyword | BooleanKeyword.

Inductive TypeNode : Set :=
| KeywordTypeNode (k : KeywordKind)
| TypeReferenceNode (typeName : string) (typeArguments : option (list TypeNode))
| TypeLiteralNode (members : list PropertySignature)
| UnionTypeNode (types : list TypeNode)
| FunctionTypeNode (parameters : list ParameterDeclaration) (type : TypeNode)
| TypePredicateNode (parameterName : string) (type : TypeNode)
| LiteralTypeNode (literal : string)
| NullLiteralTypeNode
with PropertySignature : Set :=
| createPropertySignature (name : string) (questionToken : bool)
    (type : TypeNode)
with ParameterDeclaration : Set :=
| createParameterDeclaration (name : string) (questionToken : bool)
    (type : TypeNode).

Definition ps_name (p : PropertySignature) : string :=
  let 'createPropertySignature n _ _ := p in n.
Definition ps_type (p : PropertySignature) : TypeNode :=
  let 'createPropertySignature _ _ t := p in t.
Definition param_name (p : ParameterDeclaration) : string :=
  let 'createParameterDeclaration n _ _ := p in n.

Inductive BinaryOperator : Set :=
| EqualsEqualsEqualsToken
| AmpersandAmpersandToken
| ExclamationEqualsToken
| EqualsToken.

Inductive NodeFlags : Set := Const | Let.

Inductive Expression : Set :=
| Identifier (text : string)
| StringLiteral (text : string)
| NullLiteral
| CallExpression (expression : Expression) (arguments : list Expression)
| PropertyAccessExpression (expression : Expression) (name : string)
| BinaryExpression (left : Expression) (operator : BinaryOperator)
    (right : Expression)
| TypeOfExpression (expression : Expression)
| NewExpression (expression : Expression) (arguments : list Expression)
| ArrayLiteralExpression (elements : list Expression)
| ArrowFunction (parameters : list ParameterDeclaration)
    (type : option TypeNode) (body : Statement)
with Statement : Set :=
| Block (statements : list Statement) (multiLine : bool)
| IfStatement (expression : Expression) (thenStatement : Statement)
    (elseStatement : option Statement)
| ReturnStatement (expression : Expression)
| ExpressionStatement (expression : Expression)
| VariableStatement (flags : NodeFlags) (name : Expression)
    (type : option TypeNode) (initializer : Expression)
(* not a node of [ts.factory]: the statement built by a helper of
   [./common], see [createOnErrorHandler] below *)
| HandlerStatement (helper : string) (request : string).

(** [ts.factory.createAssignment]: a binary expression on [=]. *)
Definition createAssignment (left right : Expression) : Expression :=
  BinaryExpression left EqualsToken right.

Record TypeAliasDeclaration : Set :=
  createTypeAliasDeclaration {
    alias_exported : bool;
    alias_name : string;
    alias_typeParameters : option (list string);
    alias_type : TypeNode }.

End ts.

(** ** The renderer *)

Module Render.

(** A renderer function returns its value or throws [new Error(msg)]. *)
Inductive Result (A : Type) : Type :=
| Ok (a : A)
| Err (msg : string).
Arguments Ok {A} a.
Arguments Err {A} msg.

Definition bind {A B} (m : Result A) (k : A -> Result B) : Result B :=
  match m with
  | Ok a => k a
  | Err msg => Err msg
  end.

Declare Scope render_scope.
Delimit Scope render_scope with render.
Notation "x <- m ;; k" := (bind m (fun x => k))
  (at level 61, m at next level, right associativity) : render_scope.
Local Open Scope render_scope.

(** [xs.map(f)] for a callback that may throw: left to right, the first
    throw ends the map. *)
Fixpoint mapM {A B} (f : A -> Result B) (xs : list A) : Result (list B) :=
  match xs with
  | [] => Ok []
  | x :: rest =>
      y <- f x ;;
      ys <- mapM f rest ;;
      Ok (y :: ys)
  end.

(** The double quote character. *)
Definition dquote : string := String "034"%char EmptyString.

(** *** Strings: the built-ins the renderer uses, on ASCII text *)

Definition isUpper (c : ascii) : bool :=
  let n := nat_of_ascii c in ((65 <=? n) && (n <=? 90))%nat.
Definition isLower (c : ascii) : bool :=
  let n := nat_of_ascii c in ((97 <=? n) && (n <=? 122))%nat.
Definition lowerChar (c : ascii) : ascii :=
  if isUpper c then ascii_of_nat (nat_of_ascii c + 32) else c.
Definition upperChar (c : ascii) : ascii :=
  if isLower c then ascii_of_nat (nat_of_ascii c - 32) else c.

(** [String.prototype.toLowerCase], on the ASCII letters. *)
Fixpoint toLowerCase (s : string) : string :=
  match s with
  | EmptyString => EmptyString
  | String c rest => String (lowerChar c) (toLowerCase rest)
  end.

(** Modelled from the spec: [capitalize] lives in [../utils], which is not
    among the sources.  "Capitalized table name": the first character in
    upper case, the rest as it is. *)
Definition capitalize (s : string) : string :=
  match s with
  | EmptyString => EmptyString
  | String c rest => String (upperChar c) rest
  end.

(** Modelled from the spec: [getAnnotationsByName] lives in [../keys],
    which is not among the sources.  Name-based lookup in the annotation
    list of a node: the annotations called [name], in their order. *)
Definition getAnnotationsByName (annotations : list Annotation)
  (name : string) : list Annotation :=
  filter (fun a => String.eqb (id_value (ann_name a)) name) annotations.

(** Modelled from the spec: [createNumberType] lives in [../types], which
    is not among the sources.  The [number] type that heads every
    [GetArgs] union. *)
Definition createNumberType : ts.TypeNode :=
  ts.KeywordTypeNode ts.NumberKeyword.

(** Modelled from the spec: [COMMON_IDENTIFIERS] lives in [../identifiers],
    which is not among the sources.  Each entry is the identifier spelled
    as its key. *)
Module COMMON_IDENTIFIERS.
Definition Promise : string := "Promise".
Definition IDBTransaction : string := "IDBTransaction".
Definition transaction : string := "transaction".
Definition db : ts.Expression := ts.Identifier "db".
Definition getRequest : ts.Expression := ts.Identifier "getRequest".
Definition reject : ts.Expression := ts.Identifier "reject".
End COMMON_IDENTIFIERS.

(** Modelled from the spec: [createConstStatement] and [createLetStatement]
    live in [../helpers], which is not among the sources.  Each declares
    one variable, [const] or [let], with the given type and initializer. *)
Definition createConstStatement (name : ts.Expression)
  (type : option ts.TypeNode) (initializer : ts.Expression) : ts.Statement :=
  ts.VariableStatement ts.Const name type initializer.

Definition createLetStatement (name : ts.Expression)
  (type : option ts.TypeNode) (initializer : ts.Expression) : ts.Statement :=
  ts.VariableStatement ts.Let name type initializer.

(** Modelled from the spec: [createOnErrorHandler] and
    [createOnSuccessHandler] live in [./common], which is not among the
    sources.  The statement each builds is kept symbolic: it names the
    helper and the request variable the helper is given. *)
Definition createOnErrorHandler (request : string) : ts.Statement :=
  ts.HandlerStatement "onerror" request.

Definition createOnSuccessHandler (request : string) : ts.Statement :=
  ts.HandlerStatement "onsuccess" request.

(** No name occurs twice. *)
Fixpoint distinct (names : list string) : bool :=
  match names with
  | [] => true
  | n :: rest => negb (existsb (String.eqb n) rest) && distinct rest
  end.

(** [TableIndex] of [../keys], as the renderer reads it. *)
Inductive IndexKind : Set := key | index.

Record TableIndex : Set :=
  mkTableIndex {
    indexKind : IndexKind;
    idx_name : string;
    idx_type : TypeNode }.

(** The functions the renderer imports from modules that are not among the
    sources; the renderer is verified for every implementation of them. *)
Class Imports : Type := {
  (* ../keys *)
  getIndexesForTable : TableDefinition -> Result (list TableIndex);
  (* ../types *)
  typeForTypeNode : TypeNode -> ts.TypeNode;
  (* ./addMethod *)
  createAddMethodTypeNode : TableDefinition -> Result ts.TypeNode;
  (* ./getMethod *)
  createGetAllMethodTypeNode : TableDefinition -> Result ts.TypeNode;
  (* ./common *)
  createDatabaseClientName : DatabaseDefinition -> string
}.

Section Renderer.

Context `{Imports}.

(** *** client/type.ts *)

Definition createOptionsTypeNode : ts.TypeNode :=
  ts.TypeLiteralNode
    [ts.createPropertySignature COMMON_IDENTIFIERS.transaction true
       (ts.TypeReferenceNode COMMON_IDENTIFIERS.IDBTransaction None)].

Definition createOptionsParameterDeclaration : ts.ParameterDeclaration :=
  ts.createParameterDeclaration "options" true createOptionsTypeNode.

Definition getItemNameForTable (def : TableDefinition) : Result string :=
  let itemAnnotations :=
    getAnnotationsByName (tbl_annotations def) "item" in
  if (1 <? List.length itemAnnotations)%nat then
    Err ("Table can only include one annotation for "
           ++ dquote ++ "item" ++ dquote)
  else
    (* itemAnnotations[0]?.arguments *)
    let itemArguments :=
      option_map ann_arguments (nth_error itemAnnotations 0) in
    match itemArguments with
    | Some args =>
        if (1 <? List.length args)%nat then
          Err "Table can only include one name alias"
        else
          match args with
          | a :: _ => Ok (sl_value a)
          | [] => Ok (capitalize (id_value (tbl_name def)))
          end
    | None => Ok (capitalize (id_value (tbl_name def)))
    end.

(** *** client/getMethod.ts *)

Definition createGetArgsTypeName (def : TableDefinition) : string :=
  capitalize (id_value (tbl_name def)) ++ "GetArgs".

Definition createGetArgsTypeNode (def : TableDefinition) : ts.TypeNode :=
  ts.TypeReferenceNode (createGetArgsTypeName def) None.

Definition createGetMethodTypeNode (def : TableDefinition)
  : Result ts.TypeNode :=
  itemName <- getItemNameForTable def ;;
  Ok (ts.FunctionTypeNode
        [ts.createParameterDeclaration "arg" false
           (createGetArgsTypeNode def)]
        (ts.TypeReferenceNode COMMON_IDENTIFIERS.Promise
           (Some [ts.TypeReferenceNode itemName None]))).

Definition createPredicateNameForIndex (def : TableDefinition)
  (field : TableIndex) : string :=
  "is" ++ capitalize (id_value (tbl_name def))
       ++ capitalize (idx_name field) ++ "Index".

Definition typeNodeForIndex (index : TableIndex) : ts.TypeNode :=
  match indexKind index with
  | key => createNumberType
  | Render.index =>
      ts.TypeLiteralNode
        [ts.createPropertySignature (idx_name index) false
           (typeForTypeNode (idx_type index))]
  end.

Fixpoint createConditionsForIndexes (def : TableDefinition)
  (indexes keys : list TableIndex) : list ts.Statement :=
  match indexes with
  | next :: remaining =>
      [ts.IfStatement
         (ts.CallExpression
            (ts.Identifier (createPredicateNameForIndex def next))
            [ts.Identifier "arg"])
         (ts.Block
            [createConstStatement
               (ts.Identifier "index")
               (Some (ts.TypeReferenceNode "IDBIndex" None))
               (ts.CallExpression
                  (ts.PropertyAccessExpression (ts.Identifier "store")
                     "index")
                  [ts.StringLiteral (idx_name next)]);
             ts.ExpressionStatement
               (ts.createAssignment
                  COMMON_IDENTIFIERS.getRequest
                  (ts.CallExpression
                     (ts.PropertyAccessExpression (ts.Identifier "index")
                        "get")
                     [ts.PropertyAccessExpression (ts.Identifier "arg")
                        (idx_name next)]))]
            true)
         (hd_error (createConditionsForIndexes def remaining keys))]
  | [] =>
      if (0 <? List.length keys)%nat then
        [ts.Block
           [ts.ExpressionStatement
              (ts.createAssignment
                 COMMON_IDENTIFIERS.getRequest
                 (ts.CallExpression
                    (ts.PropertyAccessExpression (ts.Identifier "store")
                       "get")
                    [ts.Identifier "arg"]))]
           true]
      else []
  end.

Definition isKind (k : IndexKind) (i : TableIndex) : bool :=
  match k, indexKind i with
  | key, key | index, index => true
  | _, _ => false
  end.

Definition createIndexAccessHandling (def : TableDefinition)
  : Result (list ts.Statement) :=
  indexesAndKeys <- getIndexesForTable def ;;
  let indexes := filter (fun next => negb (isKind key next)) indexesAndKeys in
  let keys := filter (fun next => negb (isKind index next)) indexesAndKeys in
  itemName <- getItemNameForTable def ;;
  Ok ([createLetStatement
         COMMON_IDENTIFIERS.getRequest
         (Some (ts.UnionTypeNode
                  [ts.TypeReferenceNode "IDBRequest"
                     (Some [ts.TypeReferenceNode itemName None]);
                   ts.NullLiteralTypeNode]))
         ts.NullLiteral]
      ++ createConditionsForIndexes def indexes keys
      ++ [ts.IfStatement
            (ts.BinaryExpression COMMON_IDENTIFIERS.getRequest
               ts.ExclamationEqualsToken ts.NullLiteral)
            (ts.Block
               [createOnErrorHandler "getRequest";
                createOnSuccessHandler "getRequest"]
               true)
            (Some
               (ts.Block
                  [ts.ExpressionStatement
                     (ts.CallExpression COMMON_IDENTIFIERS.reject
                        [ts.NewExpression (ts.Identifier "Error")
                           [ts.StringLiteral
                              "No available index for given query"]])]
                  true))]).

(** The predicate generated for one index. *)
Definition createIndexPredicate (def : TableDefinition) (next : TableIndex)
  : ts.Statement :=
  createConstStatement
    (ts.Identifier (createPredicateNameForIndex def next))
    None
    (ts.ArrowFunction
       [ts.createParameterDeclaration "arg" false
          (createGetArgsTypeNode def)]
       (Some (ts.TypePredicateNode "arg" (typeNodeForIndex next)))
       (ts.Block
          [ts.ReturnStatement
             (ts.BinaryExpression
                (ts.BinaryExpression
                   (ts.TypeOfExpression (ts.Identifier "arg"))
                   ts.EqualsEqualsEqualsToken
                   (ts.StringLiteral "object"))
                ts.AmpersandAmpersandToken
                (ts.CallExpression
                   (ts.PropertyAccessExpression (ts.Identifier "Reflect")
                      "has")
                   [ts.Identifier "arg";
                    ts.StringLiteral (idx_name next)]))]
          true)).

Definition createIndexPredicates (def : TableDefinition)
  : Result (list ts.Statement) :=
  indexes <- getIndexesForTable def ;;
  Ok (map (createIndexPredicate def) indexes).

Definition createGetArgsType (def : TableDefinition)
  : Result ts.TypeAliasDeclaration :=
  indexes <- getIndexesForTable def ;;
  Ok (ts.createTypeAliasDeclaration
        true
        (createGetArgsTypeName def)
        (Some [])
        (ts.UnionTypeNode (map typeNodeForIndex indexes))).

(** *** client/type.ts, continued *)

Definition createClientTypeDeclaration (def : DatabaseDefinition)
  : Result ts.TypeAliasDeclaration :=
  members <-
    mapM (fun next =>
            addType <- createAddMethodTypeNode next ;;
            getType <- createGetMethodTypeNode next ;;
            getAllType <- createGetAllMethodTypeNode next ;;
            Ok (ts.createPropertySignature
                  (toLowerCase (id_value (tbl_name next)))
                  false
                  (ts.TypeLiteralNode
                     [ts.createPropertySignature "add" false addType;
                      ts.createPropertySignature "get" false getType;
                      ts.createPropertySignature "getAll" false
                        getAllType])))
         (db_body def) ;;
  Ok (ts.createTypeAliasDeclaration
        true
        (createDatabaseClientName def)
        None
        (ts.TypeLiteralNode members)).

End Renderer.

End Render.

(** ** Running the generated code

    An evaluator for the fragment of JavaScript that [createIndexPredicates]
    and [createIndexAccessHandling] emit.  The object store, its indexes and
    the requests they return are symbolic: the evaluator records which
    request is made, not what the database answers (in particular it does not
    model the key validation of the browser). *)

Module Js.

(** The values an argument of [get] can be.  The property list of an
    object holds every property visible on it. *)
Inductive JsVal : Set :=
| VUndefined
| VNull
| VBool (b : bool)
| VNumber (n : Z)
| VString (s : string)
| VObject (props : list (string * JsVal)).

Inductive Thrown : Set :=
| TypeError
| ReferenceError (name : string)
| SyntaxError
| Unsupported.

Inductive Eval (A : Type) : Type :=
| Val (a : A)
| Exn (e : Thrown).
Arguments Val {A} a.
Arguments Exn {A} e.

Definition bind {A B} (m : Eval A) (k : A -> Eval B) : Eval B :=
  match m with
  | Val a => k a
  | Exn e => Exn e
  end.

Declare Scope js_scope.
Delimit Scope js_scope with js.
Notation "x <- m ;; k" := (bind m (fun x => k))
  (at level 61, m at next level, right associativity) : js_scope.
Local Open Scope js_scope.

Fixpoint lookup {V} (env : list (string * V)) (x : string) : option V :=
  match env with
  | [] => None
  | (y, v) :: rest => if String.eqb y x then Some v else lookup rest x
  end.

(** Assignment to a declared variable: the nearest binding changes. *)
Fixpoint update {V} (env : list (string * V)) (x : string) (v : V)
  : option (list (string * V)) :=
  match env with
  | [] => None
  | (y, w) :: rest =>
      if String.eqb y x then Some ((y, v) :: rest)
      else option_map (cons (y, w)) (update rest x v)
  end.

Definition typeofJs (v : JsVal) : string :=
  match v with
  | VUndefined => "undefined"
  | VNull => "object"
  | VBool _ => "boolean"
  | VNumber _ => "number"
  | VString _ => "string"
  | VObject _ => "object"
  end.

Definition truthy (v : JsVal) : bool :=
  match v with
  | VUndefined | VNull => false
  | VBool b => b
  | VNumber n => negb (Z.eqb n 0)
  | VString s => negb (String.eqb s "")
  | VObject _ => true
  end.

(** [a === b]; two objects are compared by identity, which the values do
    not carry. *)
Definition strictEquals (a b : JsVal) : Eval bool :=
  match a, b with
  | VUndefined, VUndefined | VNull, VNull => Val true
  | VBool x, VBool y => Val (Bool.eqb x y)
  | VNumber x, VNumber y => Val (Z.eqb x y)
  | VString x, VString y => Val (String.eqb x y)
  | VObject _, VObject _ => Exn Unsupported
  | _, _ => Val false
  end.

(** [name in obj]. *)
Definition hasProperty (v : JsVal) (name : string) : bool :=
  match v with
  | VObject props => existsb (String.eqb name) (map fst props)
  | _ => false
  end.

(** [Reflect.has(target, name)]: a [TypeError] unless the target is an
    object. *)
Definition reflectHas (target : JsVal) (name : string) : Eval bool :=
  match target with
  | VObject _ => Val (hasProperty target name)
  | _ => Exn TypeError
  end.

(** [v.name]. *)
Definition getMember (v : JsVal) (name : string) : Eval JsVal :=
  match v with
  | VUndefined | VNull => Exn TypeError
  | VObject props =>
      Val (match lookup props name with Some w => w | None => VUndefined end)
  | _ => Val VUndefined
  end.

(** Expressions without calls to user functions: the body of a predicate. *)
Fixpoint evalPure (env : list (string * JsVal)) (e : ts.Expression)
  : Eval JsVal :=
  match e with
  | ts.Identifier x =>
      match lookup env x with
      | Some v => Val v
      | None => Exn (ReferenceError x)
      end
  | ts.StringLiteral s => Val (VString s)
  | ts.NullLiteral => Val VNull
  | ts.TypeOfExpression e1 =>
      v <- evalPure env e1 ;; Val (VString (typeofJs v))
  | ts.BinaryExpression l ts.EqualsEqualsEqualsToken r =>
      a <- evalPure env l ;;
      b <- evalPure env r ;;
      c <- strictEquals a b ;;
      Val (VBool c)
  | ts.BinaryExpression l ts.AmpersandAmpersandToken r =>
      a <- evalPure env l ;;
      if truthy a then evalPure env r else Val a
  | ts.PropertyAccessExpression e1 name =>
      v <- evalPure env e1 ;; getMember v name
  | ts.CallExpression
      (ts.PropertyAccessExpression (ts.Identifier obj) method) [t; k] =>
      if String.eqb obj "Reflect" && String.eqb method "has" then
        target <- evalPure env t ;;
        name <- evalPure env k ;;
        match name with
        | VString s => b <- reflectHas target s ;; Val (VBool b)
        | _ => Exn Unsupported
        end
      else Exn Unsupported
  | _ => Exn Unsupported
  end.

(** A call of an arrow function whose body is one [return]. *)
Definition callFunction (parameters : list string) (body : ts.Statement)
  (args : list JsVal) : Eval JsVal :=
  match body with
  | ts.Block [ts.ReturnStatement e] _ => evalPure (combine parameters args) e
  | _ => Exn Unsupported
  end.

Inductive IDBRequest : Set :=
| IndexGet (index : string) (query : JsVal)
| StoreGet (query : JsVal).

(** What a variable of the [get] method can hold. *)
Inductive Value : Set :=
| Data (v : JsVal)
| ObjectStore
| Index (name : string)
| Request (r : IDBRequest)
| ErrorObject (message : Value)
| Function (parameters : list string) (body : ts.Statement)
| RejectFunction.

Inductive Event : Set :=
| HandlerInstalled (helper : string) (target : Value)
| Rejected (reason : Value).

Record State : Set :=
  mkState { vars : list (string * Value); events : list Event }.

Definition nullish (v : Value) : bool :=
  match v with
  | Data VNull | Data VUndefined => true
  | _ => false
  end.

Definition truthyValue (v : Value) : bool :=
  match v with
  | Data d => truthy d
  | _ => true
  end.

(** [receiver.method(arg)] on the symbolic database objects. *)
Definition callMethod (receiver : Value) (method : string) (arg : Value)
  : Eval Value :=
  match receiver, arg with
  | ObjectStore, Data q =>
      if String.eqb method "index" then
        match q with
        | VString n => Val (Index n)
        | _ => Exn Unsupported
        end
      else if String.eqb method "get" then Val (Request (StoreGet q))
      else Exn Unsupported
  | Index n, Data q =>
      if String.eqb method "get" then Val (Request (IndexGet n q))
      else Exn Unsupported
  | _, _ => Exn Unsupported
  end.

Fixpoint evalExpr (st : State) (e : ts.Expression) : Eval (Value * State) :=
  match e with
  | ts.Identifier x =>
      match lookup (vars st) x with
      | Some v => Val (v, st)
      | None => Exn (ReferenceError x)
      end
  | ts.StringLiteral s => Val (Data (VString s), st)
  | ts.NullLiteral => Val (Data VNull, st)
  | ts.ArrowFunction parameters _ body =>
      Val (Function (map ts.param_name parameters) body, st)
  | ts.PropertyAccessExpression e1 name =>
      r <- evalExpr st e1 ;;
      match r with
      | (Data d, st1) => w <- getMember d name ;; Val (Data w, st1)
      | _ => Exn Unsupported
      end
  | ts.BinaryExpression (ts.Identifier x) ts.EqualsToken r =>
      rv <- evalExpr st r ;;
      let '(v, st1) := rv in
      match update (vars st1) x v with
      | Some vars' => Val (v, mkState vars' (events st1))
      | None => Exn (ReferenceError x)
      end
  | ts.BinaryExpression l ts.ExclamationEqualsToken r =>
      lv <- evalExpr st l ;;
      let '(a, st1) := lv in
      rv <- evalExpr st1 r ;;
      let '(b, st2) := rv in
      if nullish a || nullish b then
        Val (Data (VBool (negb (nullish a && nullish b))), st2)
      else Exn Unsupported
  | ts.NewExpression (ts.Identifier c) [a] =>
      if String.eqb c "Error" then
        av <- evalExpr st a ;;
        let '(m, st1) := av in
        Val (ErrorObject m, st1)
      else Exn Unsupported
  | ts.CallExpression (ts.Identifier f) [a] =>
      match lookup (vars st) f with
      | None => Exn (ReferenceError f)
      | Some fv =>
          av <- evalExpr st a ;;
          let '(v, st1) := av in
          match fv, v with
          | RejectFunction, _ =>
              Val (Data VUndefined,
                   mkState (vars st1) (events st1 ++ [Rejected v]))
          | Function parameters body, Data d =>
              w <- callFunction parameters body [d] ;;
              Val (Data w, st1)
          | Function _ _, _ => Exn Unsupported
          | _, _ => Exn TypeError
          end
      end
  | ts.CallExpression (ts.PropertyAccessExpression recv method) [a] =>
      rv <- evalExpr st recv ;;
      let '(receiver, st1) := rv in
      av <- evalExpr st1 a ;;
      let '(v, st2) := av in
      w <- callMethod receiver method v ;;
      Val (w, st2)
  | _ => Exn Unsupported
  end.

(** Statements.  A block is a scope: the variables it declares end with
    it, its assignments to outer variables stay. *)
Fixpoint exec (s : ts.Statement) (st : State) : Eval State :=
  match s with
  | ts.Block statements _ =>
      st' <- (fix execList (l : list ts.Statement) (st0 : State)
                : Eval State :=
                match l with
                | [] => Val st0
                | s1 :: rest => st1 <- exec s1 st0 ;; execList rest st1
                end) statements st ;;
      Val (mkState
             (skipn (List.length (vars st') - List.length (vars st))
                (vars st'))
             (events st'))
  | ts.IfStatement c thenStatement elseStatement =>
      cv <- evalExpr st c ;;
      let '(v, st1) := cv in
      if truthyValue v then exec thenStatement st1
      else
        match elseStatement with
        | Some s2 => exec s2 st1
        | None => Val st1
        end
  | ts.ExpressionStatement e =>
      r <- evalExpr st e ;; Val (snd r)
  | ts.VariableStatement _ (ts.Identifier x) _ init =>
      r <- evalExpr st init ;;
      let '(v, st1) := r in
      Val (mkState ((x, v) :: vars st1) (events st1))
  | ts.HandlerStatement helper request =>
      match lookup (vars st) request with
      | Some v =>
          Val (mkState (vars st) (events st ++ [HandlerInstalled helper v]))
      | None => Exn (ReferenceError request)
      end
  | _ => Exn Unsupported
  end.

Fixpoint execList (l : list ts.Statement) (st : State) : Eval State :=
  match l with
  | [] => Val st
  | s :: rest => st1 <- exec s st ;; execList rest st1
  end.

(** The names a list of statements declares. *)
Definition declaredNames (l : list ts.Statement) : list string :=
  flat_map (fun s =>
              match s with
              | ts.VariableStatement _ (ts.Identifier x) _ _ => [x]
              | _ => []
              end) l.

(** The [get] method called with [arg], run on the syntax tree, names
    compared as the tree holds them: the predicates are declared at the
    top of the module, which does not load when it declares a name twice;
    inside the method, [arg], [reject] and [store] are in scope when the
    index access handling runs.  This is the method of the printed module
    when the tree is [printable], which [callGet] below checks first. *)
Definition runGet (predicates handling : list ts.Statement) (arg : JsVal)
  : Eval State :=
  if Render.distinct (declaredNames predicates) then
    st0 <- execList predicates (mkState [] []) ;;
    execList handling
      (mkState ([("store", ObjectStore); ("reject", RejectFunction);
                 ("arg", Data arg)] ++ vars st0)
               (events st0))
  else Exn SyntaxError.

(** The function a [const] declaration binds its name to. *)
Definition closureOf (s : ts.Statement) : Value :=
  match s with
  | ts.VariableStatement _ _ _ (ts.ArrowFunction parameters _ body) =>
      Function (map ts.param_name parameters) body
  | _ => Data VUndefined
  end.

(** The value of [v.name] where the access does not throw. *)
Definition member (v : JsVal) (name : string) : JsVal :=
  match getMember v name with
  | Val w => w
  | Exn _ => VUndefined
  end.

(** The events of a [get] that makes the request [r]: both handlers are
    installed on it. *)
Definition requested (r : IDBRequest) : list Event :=
  [HandlerInstalled "onerror" (Request r);
   HandlerInstalled "onsuccess" (Request r)].

(** The events of a [get] that is rejected with [new Error(msg)]. *)
Definition rejected (msg : string) : list Event :=
  [Rejected (ErrorObject (Data (VString msg)))].

(** The events of a run. *)
Definition outcome (r : Eval State) : Eval (list Event) :=
  st <- r ;; Val (events st).

(** *** The printed module

    The renderer hands names to [createIdentifier] and to property accesses
    as they are, and the printer writes them as they are.  The module that
    is loaded is the printed text: it is the module of the tree only when
    every name written where an identifier stands is one. *)

Definition isDigit (c : ascii) : bool :=
  let n := nat_of_ascii c in ((48 <=? n) && (n <=? 57))%nat.

(** ASCII: a letter, [_] or [$]. *)
Definition isIdentifierStart (c : ascii) : bool :=
  Render.isUpper c || Render.isLower c || Ascii.eqb c "_" || Ascii.eqb c "$".

Definition isIdentifierPart (c : ascii) : bool :=
  isIdentifierStart c || isDigit c.

Fixpoint allChars (p : ascii -> bool) (s : string) : bool :=
  match s with
  | EmptyString => true
  | String c rest => p c && allChars p rest
  end.

(** An [IdentifierName] of ECMAScript written in ASCII without escapes:
    what can follow the dot of a property access or name a property. *)
Definition isIdentifierName (s : string) : bool :=
  match s with
  | EmptyString => false
  | String c rest => isIdentifierStart c && allChars isIdentifierPart rest
  end.

(** The reserved words of a module in strict mode. *)
Definition reservedWords : list string :=
  ["await"; "break"; "case"; "catch"; "class"; "const"; "continue";
   "debugger"; "default"; "delete"; "do"; "else"; "enum"; "export";
   "extends"; "false"; "finally"; "for"; "function"; "if"; "implements";
   "import"; "in"; "instanceof"; "interface"; "let"; "new"; "null";
   "package"; "private"; "protected"; "public"; "return"; "static";
   "super"; "switch"; "this"; "throw"; "true"; "try"; "typeof"; "var";
   "void"; "while"; "with"; "yield"].

(** A name that can be declared and referred to. *)
Definition isIdentifier (s : string) : bool :=
  isIdentifierName s && negb (existsb (String.eqb s) reservedWords).

(** Every name of a type is written as an identifier can be. *)
Fixpoint printsType (t : ts.TypeNode) : bool :=
  match t with
  | ts.KeywordTypeNode _ => true
  | ts.TypeReferenceNode typeName typeArguments =>
      isIdentifier typeName
      && match typeArguments with
         | None => true
         | Some l =>
             (fix all (l : list ts.TypeNode) : bool :=
                match l with
                | [] => true
                | t1 :: rest => printsType t1 && all rest
                end) l
         end
  | ts.TypeLiteralNode members =>
      (fix all (l : list ts.PropertySignature) : bool :=
         match l with
         | [] => true
         | ts.createPropertySignature name _ t1 :: rest =>
             isIdentifierName name && printsType t1 && all rest
         end) members
  | ts.UnionTypeNode types =>
      (fix all (l : list ts.TypeNode) : bool :=
         match l with
         | [] => true
         | t1 :: rest => printsType t1 && all rest
         end) types
  | ts.FunctionTypeNode parameters type =>
      (fix all (l : list ts.ParameterDeclaration) : bool :=
         match l with
         | [] => true
         | ts.createParameterDeclaration name _ t1 :: rest =>
             isIdentifier name && printsType t1 && all rest
         end) parameters
      && printsType type
  | ts.TypePredicateNode parameterName type =>
      isIdentifier parameterName && printsType type
  | ts.LiteralTypeNode _ => true
  | ts.NullLiteralTypeNode => true
  end.

Definition printsOptionalType (t : option ts.TypeNode) : bool :=
  match t with
  | Some t1 => printsType t1
  | None => true
  end.

Definition printsParameter (p : ts.ParameterDeclaration) : bool :=
  let 'ts.createParameterDeclaration name _ type := p in
  isIdentifier name && printsType type.

(** The same for expressions and statements: identifiers and parameters
    are identifiers, the name of a property access is an identifier name;
    the text of a string literal is quoted and can be any. *)
Fixpoint printsExpression (e : ts.Expression) : bool :=
  match e with
  | ts.Identifier text => isIdentifier text
  | ts.StringLiteral _ => true
  | ts.NullLiteral => true
  | ts.CallExpression expression arguments =>
      printsExpression expression
      && (fix all (l : list ts.Expression) : bool :=
            match l with
            | [] => true
            | e1 :: rest => printsExpression e1 && all rest
            end) arguments
  | ts.PropertyAccessExpression expression name =>
      printsExpression expression && isIdentifierName name
  | ts.BinaryExpression lhs _ rhs =>
      printsExpression lhs && printsExpression rhs
  | ts.TypeOfExpression expression => printsExpression expression
  | ts.NewExpression expression arguments =>
      printsExpression expression
      && (fix all (l : list ts.Expression) : bool :=
            match l with
            | [] => true
            | e1 :: rest => printsExpression e1 && all rest
            end) arguments
  | ts.ArrayLiteralExpression elements =>
      (fix all (l : list ts.Expression) : bool :=
         match l with
         | [] => true
         | e1 :: rest => printsExpression e1 && all rest
         end) elements
  | ts.ArrowFunction parameters type body =>
      forallb printsParameter parameters
      && printsOptionalType type
      && printsStatement body
  end
with printsStatement (s : ts.Statement) : bool :=
  match s with
  | ts.Block statements _ =>
      (fix all (l : list ts.Statement) : bool :=
         match l with
         | [] => true
         | s1 :: rest => printsStatement s1 && all rest
         end) statements
  | ts.IfStatement expression thenStatement elseStatement =>
      printsExpression expression
      && printsStatement thenStatement
      && match elseStatement with
         | Some s2 => printsStatement s2
         | None => true
         end
  | ts.ReturnStatement expression => printsExpression expression
  | ts.ExpressionStatement expression => printsExpression expression
  | ts.VariableStatement _ name type initializer =>
      printsExpression name
      && printsOptionalType type
      && printsExpression initializer
  | ts.HandlerStatement helper request =>
      isIdentifierName helper && isIdentifier request
  end.

(** The statements are printed to the text of themselves. *)
Definition printable (l : list ts.Statement) : bool :=
  forallb printsStatement l.

(** The [get] method of the printed module, called with [arg].  [runGet]
    runs the tree; it is what the printed module does when the tree is
    [printable].  A tree with a name that is no identifier is printed all
    the same, to the text of another program or of none (an index called
    [my-index] gives [const isPostsMy-indexIndex = ...]): the model does
    not run it. *)
Definition callGet (predicates handling : list ts.Statement) (arg : JsVal)
  : Eval State :=
  if printable (predicates ++ handling) then runGet predicates handling arg
  else Exn Unsupported.

End Js.

(** ** The schemas of the README, and one implementation of the imports *)

Module Example.
Import Render.

(** A token of the given kind and text at offset [n]. *)
Definition tk (k : SyntaxKind) (s : string) (n : nat) : Token :=
  mkToken k s (createTextLocation n (n + String.length s)).

(** The first schema of the README, token by token:
    [database Blog { table Posts @item("Post") { @autoincrement id: number;
    @index title: string; content: string; @index author: string; } }]. *)
Definition blog_tokens : list Token :=
  [ tk Kind.DatabaseKeyword "database" 0; tk Kind.Identifier "Blog" 9;
    tk Kind.LeftBraceToken "{" 14;
    tk Kind.TableKeyword "table" 18; tk Kind.Identifier "Posts" 24;
    tk Kind.AtToken "@" 30; tk Kind.Identifier "item" 31;
    tk Kind.LeftParenToken "(" 35; tk Kind.StringLiteral "Post" 36;
    tk Kind.RightParenToken ")" 42; tk Kind.LeftBraceToken "{" 44;
    tk Kind.AtToken "@" 50; tk Kind.Identifier "autoincrement" 51;
    tk Kind.Identifier "id" 65; tk Kind.ColonToken ":" 67;
    tk Kind.NumberKeyword "number" 69; tk Kind.SemicolonToken ";" 75;
    tk Kind.AtToken "@" 81; tk Kind.Identifier "index" 82;
    tk Kind.Identifier "title" 88; tk Kind.ColonToken ":" 93;
    tk Kind.StringKeyword "string" 95; tk Kind.SemicolonToken ";" 101;
    tk Kind.Identifier "content" 107; tk Kind.ColonToken ":" 114;
    tk Kind.StringKeyword "string" 116; tk Kind.SemicolonToken ";" 122;
    tk Kind.AtToken "@" 128; tk Kind.Identifier "index" 129;
    tk Kind.Identifier "author" 135; tk Kind.ColonToken ":" 141;
    tk Kind.StringKeyword "string" 143; tk Kind.SemicolonToken ";" 149;
    tk Kind.RightBraceToken "}" 153; tk Kind.RightBraceToken "}" 155;
    tk Kind.EOF "" 156 ].

(** [database Blog @version(1) { table Posts @item("Post") { ... } }],
    the example schema of the README, token by token. *)
Definition blog_version_tokens : list Token :=
  [ tk Kind.DatabaseKeyword "database" 0; tk Kind.Identifier "Blog" 9;
    tk Kind.AtToken "@" 14; tk Kind.Identifier "version" 15;
    tk Kind.LeftParenToken "(" 22; tk Kind.IntegerLiteral "1" 23;
    tk Kind.RightParenToken ")" 24; tk Kind.LeftBraceToken "{" 26;
    tk Kind.TableKeyword "table" 30; tk Kind.Identifier "Posts" 36;
    tk Kind.AtToken "@" 42; tk Kind.Identifier "item" 43;
    tk Kind.LeftParenToken "(" 47; tk Kind.StringLiteral "Post" 48;
    tk Kind.RightParenToken ")" 54; tk Kind.LeftBraceToken "{" 56;
    tk Kind.AtToken "@" 62; tk Kind.Identifier "autoincrement" 63;
    tk Kind.Identifier "id" 77; tk Kind.ColonToken ":" 79;
    tk Kind.NumberKeyword "number" 81; tk Kind.SemicolonToken ";" 87;
    tk Kind.RightBraceToken "}" 91; tk Kind.RightBraceToken "}" 93;
    tk Kind.EOF "" 94 ].

(** [database D { table T { a: <type>; } }] around the tokens of a type. *)
Definition field_type_tokens (type : list Token) : list Token :=
  [ tk Kind.DatabaseKeyword "database" 0; tk Kind.Identifier "D" 9;
    tk Kind.LeftBraceToken "{" 11; tk Kind.TableKeyword "table" 13;
    tk Kind.Identifier "T" 19; tk Kind.LeftBraceToken "{" 21;
    tk Kind.Identifier "a" 23; tk Kind.ColonToken ":" 24 ]
    ++ type
    ++ [ tk Kind.SemicolonToken ";" 50; tk Kind.RightBraceToken "}" 52;
         tk Kind.RightBraceToken "}" 54; tk Kind.EOF "" 55 ].

(** [Map<string>] *)
Definition map_string_tokens : list Token :=
  [ tk Kind.Identifier "Map" 26; tk Kind.LessThanToken "<" 29;
    tk Kind.StringKeyword "string" 30; tk Kind.GreaterThanToken ">" 36 ].

(** [Map<string, number>] *)
Definition map_string_number_tokens : list Token :=
  [ tk Kind.Identifier "Map" 26; tk Kind.LessThanToken "<" 29;
    tk Kind.StringKeyword "string" 30; tk Kind.CommaToken "," 36;
    tk Kind.NumberKeyword "number" 38; tk Kind.GreaterThanToken ">" 44 ].

(** [Map<string>>]: the closing bracket written twice. *)
Definition map_string_twice_closed_tokens : list Token :=
  [ tk Kind.Identifier "Map" 26; tk Kind.LessThanToken "<" 29;
    tk Kind.StringKeyword "string" 30; tk Kind.GreaterThanToken ">" 36;
    tk Kind.GreaterThanToken ">" 37 ].

(** [database D { table T @item(Post) { } }]: the argument of the
    annotation is an identifier, the quotes were forgotten. *)
Definition runaway_tokens : list Token :=
  [ tk Kind.DatabaseKeyword "database" 0; tk Kind.Identifier "D" 9;
    tk Kind.LeftBraceToken "{" 11; tk Kind.TableKeyword "table" 13;
    tk Kind.Identifier "T" 19; tk Kind.AtToken "@" 21;
    tk Kind.Identifier "item" 22; tk Kind.LeftParenToken "(" 26;
    tk Kind.Identifier "Post" 27; tk Kind.RightParenToken ")" 31;
    tk Kind.LeftBraceToken "{" 33; tk Kind.RightBraceToken "}" 35;
    tk Kind.RightBraceToken "}" 37; tk Kind.EOF "" 38 ].

Definition l0 : TextLocation := createTextLocation 0 0.
Definition ident (s : string) : Identifier := createIdentifier s l0.
Definition ann (name : string) (args : list string) : Annotation :=
  createAnnotation (ident name)
    (map (fun a => createStringLiteral a l0) args) l0.
Definition field (anns : list Annotation) (name : string) (k : SyntaxKind)
  : FieldDefinition :=
  createFieldDefinition (ident name) anns (KeywordType k l0) l0.
Definition stringType : TypeNode := KeywordType Kind.StringKeyword l0.
Definition numberType : TypeNode := KeywordType Kind.NumberKeyword l0.

(** A syntax tree without its locations. *)
Definition eraseIdentifier (i : Identifier) : Identifier :=
  ident (id_value i).
Definition eraseAnnotation (a : Annotation) : Annotation :=
  ann (id_value (ann_name a)) (map sl_value (ann_arguments a)).
Fixpoint eraseType (t : TypeNode) : TypeNode :=
  match t with
  | KeywordType k _ => KeywordType k l0
  | TypeReferenceNode name typeArgs _ =>
      TypeReferenceNode (eraseIdentifier name) (map eraseType typeArgs) l0
  | StringLiteralType s => StringLiteralType (createStringLiteral (sl_value s) l0)
  | IntegerLiteralType v _ => IntegerLiteralType v l0
  | FloatLiteralType v _ => FloatLiteralType v l0
  | BooleanLiteralType b _ => BooleanLiteralType b l0
  end.
Definition eraseField (f : FieldDefinition) : FieldDefinition :=
  createFieldDefinition (eraseIdentifier (fld_name f))
    (map eraseAnnotation (fld_annotations f)) (eraseType (fld_type f)) l0.
Definition eraseTable (t : TableDefinition) : TableDefinition :=
  createTableDefinition (eraseIdentifier (tbl_name t))
    (map eraseField (tbl_body t)) (map eraseAnnotation (tbl_annotations t)) l0.

(** The [Posts] table of the first schema of the README. *)
Definition posts : TableDefinition :=
  createTableDefinition (ident "Posts")
    [ field [ann "autoincrement" []] "id" Kind.NumberKeyword;
      field [ann "index" []] "title" Kind.StringKeyword;
      field [] "content" Kind.StringKeyword;
      field [ann "index" []] "author" Kind.StringKeyword ]
    [ann "item" ["Post"]] l0.

Definition authors : TableDefinition :=
  createTableDefinition (ident "Authors")
    [ field [ann "autoincrement" []] "id" Kind.NumberKeyword;
      field [] "firstName" Kind.StringKeyword;
      field [] "lastName" Kind.StringKeyword ]
    [] l0.

(** A table without a primary key and with one index. *)
Definition keyless : TableDefinition :=
  createTableDefinition (ident "Tags")
    [ field [ann "index" []] "label" Kind.StringKeyword ] [] l0.

Definition blog : DatabaseDefinition :=
  createDatabaseDefinition (ident "Blog") [authors; posts] l0.

(** The index entries of the examples. *)
Definition id_key : TableIndex := mkTableIndex key "id" numberType.
Definition title_index : TableIndex := mkTableIndex index "title" stringType.
Definition author_index : TableIndex :=
  mkTableIndex index "author" stringType.
Definition title_author_index : TableIndex :=
  mkTableIndex index "title_author" stringType.
Definition slug_key : TableIndex := mkTableIndex key "slug" stringType.

Definition hasAnnotation (f : FieldDefinition) (name : string) : bool :=
  match getAnnotationsByName (fld_annotations f) name with
  | [] => false
  | _ :: _ => true
  end.

(** The index entries of one field: one for each [@index], named by the
    group argument or else by the field. *)
Definition indexEntries (f : FieldDefinition) : list TableIndex :=
  map (fun a =>
         mkTableIndex index
           (match ann_arguments a with
            | g :: _ => sl_value g
            | [] => id_value (fld_name f)
            end)
           (fld_type f))
      (getAnnotationsByName (fld_annotations f) "index").

(** One entry a name: the first of a group stands for the group. *)
Fixpoint bucket (seen : list string) (l : list TableIndex)
  : list TableIndex :=
  match l with
  | [] => []
  | i :: rest =>
      if existsb (String.eqb (idx_name i)) seen then bucket seen rest
      else i :: bucket (idx_name i :: seen) rest
  end.

(** Modelled from the spec: [getIndexesForTable] lives in [../keys], which
    is not among the sources.  Section 4.4 with the entry the renderer
    reads (a kind, a name, one type): the field that carries the
    primary-key marker ([@autoincrement] or [@key]) gives the [key] entry,
    an error when no field or more than one carries it; every [@index]
    occurrence is put in the bucket of its resolved name, in declaration
    order; a name shared by two entries is an error. *)
Definition getIndexesForTable (def : TableDefinition)
  : Result (list TableIndex) :=
  let keys :=
    filter (fun f => hasAnnotation f "autoincrement" || hasAnnotation f "key")
      (tbl_body def) in
  match keys with
  | [] => Err "MissingPrimaryKey"
  | [k] =>
      let entries :=
        mkTableIndex key (id_value (fld_name k)) (fld_type k)
          :: bucket [] (flat_map indexEntries (tbl_body def)) in
      if distinct (map idx_name entries) then Ok entries
      else Err "DuplicateIndexName"
  | _ => Err "ConflictingPrimaryKey"
  end.

(** Modelled from the spec: [typeForTypeNode] lives in [../types], which is
    not among the sources.  "Typed by the underlying field type": the
    TypeScript type written like the schema type. *)
Fixpoint typeForTypeNode (t : TypeNode) : ts.TypeNode :=
  match t with
  | KeywordType Kind.StringKeyword _ => ts.KeywordTypeNode ts.StringKeyword
  | KeywordType Kind.NumberKeyword _ => ts.KeywordTypeNode ts.NumberKeyword
  | KeywordType Kind.BooleanKeyword _ => ts.KeywordTypeNode ts.BooleanKeyword
  | KeywordType k _ => ts.TypeReferenceNode (Kind.name k) None
  | TypeReferenceNode name typeArgs _ =>
      ts.TypeReferenceNode (id_value name)
        (match typeArgs with
         | [] => None
         | _ => Some (map typeForTypeNode typeArgs)
         end)
  | StringLiteralType s => ts.LiteralTypeNode (dquote ++ sl_value s ++ dquote)
  | IntegerLiteralType v _ => ts.LiteralTypeNode v
  | FloatLiteralType v _ => ts.LiteralTypeNode v
  | BooleanLiteralType b _ => ts.LiteralTypeNode (if b then "true" else "false")
  end.

(** Modelled from the spec: the method types of [./addMethod] and of
    [getAll], and the client name of [./common], are not among the
    sources; these stand for them in the examples. *)
Definition createAddMethodTypeNode (def : TableDefinition)
  : Result ts.TypeNode :=
  Ok (ts.FunctionTypeNode
        [ts.createParameterDeclaration "arg" false
           (ts.TypeReferenceNode
              (capitalize (id_value (tbl_name def)) ++ "AddArgs") None)]
        (ts.TypeReferenceNode COMMON_IDENTIFIERS.Promise
           (Some [ts.KeywordTypeNode ts.NumberKeyword]))).

Definition createGetAllMethodTypeNode (def : TableDefinition)
  : Result ts.TypeNode :=
  Ok (ts.FunctionTypeNode []
        (ts.TypeReferenceNode COMMON_IDENTIFIERS.Promise
           (Some [ts.TypeReferenceNode "ReadonlyArray"
                    (Some [ts.TypeReferenceNode
                             (capitalize (id_value (tbl_name def))) None])]))).

Definition createDatabaseClientName (def : DatabaseDefinition) : string :=
  capitalize (id_value (db_name def)) ++ "Client".

(** The imports, around a given index resolver. *)
Definition importsWith
  (resolver : TableDefinition -> Result (list TableIndex)) : Imports :=
  {| Render.getIndexesForTable := resolver;
     Render.typeForTypeNode := typeForTypeNode;
     Render.createAddMethodTypeNode := createAddMethodTypeNode;
     Render.createGetAllMethodTypeNode := createGetAllMethodTypeNode;
     Render.createDatabaseClientName := createDatabaseClientName |}.

Definition imports : Imports := importsWith getIndexesForTable.

(** A resolver that lets a table without a primary key through. *)
Definition keylessImports : Imports :=
  importsWith (fun def => Ok (bucket [] (flat_map indexEntries (tbl_body def)))).

(** The client type generated for [blog]. *)
Definition blog_client_type : ts.TypeAliasDeclaration :=
  Eval vm_compute in
    match @createClientTypeDeclaration imports blog with
    | Ok decl => decl
    | Err _ => ts.createTypeAliasDeclaration false "" None (ts.UnionTypeNode [])
    end.

(** The predicates and the index access handling generated for [posts]. *)
Definition posts_predicates : list ts.Statement :=
  Eval vm_compute in
    match @createIndexPredicates imports posts with
    | Ok statements => statements
    | Err _ => []
    end.

Definition posts_handling : list ts.Statement :=
  Eval vm_compute in
    match @createIndexAccessHandling imports posts with
    | Ok statements => statements
    | Err _ => []
    end.

(** The same for [keyless], with the resolver that lets it through. *)
Definition keyless_predicates : list ts.Statement :=
  Eval vm_compute in
    match @createIndexPredicates keylessImports keyless with
    | Ok statements => statements
    | Err _ => []
    end.

Definition keyless_handling : list ts.Statement :=
  Eval vm_compute in
    match @createIndexAccessHandling keylessImports keyless with
    | Ok statements => statements
    | Err _ => []
    end.

(** A resolver with the entries [title] and [Title]: both predicates get
    the name [isPostsTitleIndex]. *)
Definition clashingImports : Imports :=
  importsWith
    (fun _ => Ok [title_index; mkTableIndex index "Title" stringType]).

Definition clashing_predicates : list ts.Statement :=
  Eval vm_compute in
    match @createIndexPredicates clashingImports posts with
    | Ok statements => statements
    | Err _ => []
    end.

Definition clashing_handling : list ts.Statement :=
  Eval vm_compute in
    match @createIndexAccessHandling clashingImports posts with
    | Ok statements => statements
    | Err _ => []
    end.

(** A resolver with the key [id] and an index called [my-index], the name
    an [@index("my-index")] group is given. *)
Definition dashed_index : TableIndex :=
  mkTableIndex index "my-index" stringType.

Definition dashedImports : Imports :=
  importsWith (fun _ => Ok [id_key; dashed_index]).

Definition dashed_predicates : list ts.Statement :=
  Eval vm_compute in
    match @createIndexPredicates dashedImports posts with
    | Ok statements => statements
    | Err _ => []
    end.

Definition dashed_handling : list ts.Statement :=
  Eval vm_compute in
    match @createIndexAccessHandling dashedImports posts with
    | Ok statements => statements
    | Err _ => []
    end.

End Example.

(** ** What a run of a production may do to the cursor *)

Module Cursor.
Import Parser.

(** The run [r] of a production from the cursor [i]: if it returns, the
    cursor has not moved back and is not past the end of the tokens; with
    [halts], the run does not run out of fuel either. *)
Definition Mono {A} (tokens : list Token) (halts : bool) (i : nat)
  (r : Outcome A) : Prop :=
  match r with
  | Returns _ j => i <= j /\ j <= List.length tokens
  | Throws _ => True
  | OutOfFuel => halts = false
  end.

(** The same, and the cursor has moved on. *)
Definition Adv {A} (tokens : list Token) (halts : bool) (i : nat)
  (r : Outcome A) : Prop :=
  match r with
  | Returns _ j => i < j /\ j <= List.length tokens
  | Throws _ => True
  | OutOfFuel => halts = false
  end.

(** The cursor [j] is where [isAtEnd()] holds: past the last token, or on
    an [EOF] token. *)
Definition atEnd (tokens : list Token) (j : nat) : Prop :=
  List.length tokens <= j
  \/ exists tok, nth_error tokens j = Some tok /\ kind tok = Kind.EOF.

(** No token opens an argument list. *)
Definition noLeftParen (tokens : list Token) : bool :=
  forallb (fun tok => negb (Kind.eqb (kind tok) Kind.LeftParenToken)) tokens.

(** With [halts], fuel above [n] is asked for. *)
Definition fuelAbove (halts : bool) (n fuel : nat) : Prop :=
  halts = true -> n < fuel.

End Cursor.

(** ** Example token arrays for the parser properties *)

Module ParserExample.
Import Example.

(** [type Status = "open" | "closed";] *)
Definition status_tokens : list Token :=
  [ tk Kind.TypeKeyword "type" 0; tk Kind.Identifier "Status" 5;
    tk Kind.EqualToken "=" 12; tk Kind.StringLiteral "open" 14;
    tk Kind.PipeToken "|" 21; tk Kind.StringLiteral "closed" 23;
    tk Kind.SemicolonToken ";" 31; tk Kind.EOF "" 32 ].

(** [table Posts { }] at the top level, outside of a database. *)
Definition stray_table_tokens : list Token :=
  [ tk Kind.TableKeyword "table" 0; tk Kind.Identifier "Posts" 6;
    tk Kind.LeftBraceToken "{" 12; tk Kind.RightBraceToken "}" 14;
    tk Kind.EOF "" 15 ].

(** [; ; database Blog { }]: two stray tokens before a definition. *)
Definition stray_semicolons_tokens : list Token :=
  [ tk Kind.SemicolonToken ";" 0; tk Kind.SemicolonToken ";" 2;
    tk Kind.DatabaseKeyword "database" 4; tk Kind.Identifier "Blog" 13;
    tk Kind.LeftBraceToken "{" 18; tk Kind.RightBraceToken "}" 20;
    tk Kind.EOF "" 21 ].

(** [database D { table T { a: string;] and the file ends. *)
Definition unclosed_table_tokens : list Token :=
  [ tk Kind.DatabaseKeyword "database" 0; tk Kind.Identifier "D" 9;
    tk Kind.LeftBraceToken "{" 11; tk Kind.TableKeyword "table" 13;
    tk Kind.Identifier "T" 19; tk Kind.LeftBraceToken "{" 21;
    tk Kind.Identifier "a" 23; tk Kind.ColonToken ":" 24;
    tk Kind.StringKeyword "string" 26; tk Kind.SemicolonToken ";" 32;
    tk Kind.EOF "" 33 ].

End ParserExample.

Module Recovery.
Import Parser.

(** Where [synchronize()] stops: where [isAtEnd()] holds, or on a token that
    starts a definition. *)
Definition stopsAt (tokens : list Token) (j : nat) : Prop :=
  Cursor.atEnd tokens j
  \/ exists tok, nth_error tokens j = Some tok /\ isStartOfDefinition tok = true.

End Recovery.

Module Arguments.

(** A comma or a string literal. *)
Definition isSeparatorOrString (tok : Token) : bool :=
  match kind tok with
  | Kind.CommaToken | Kind.StringLiteral => true
  | _ => false
  end.

(** The string literals among the tokens, as annotation arguments. *)
Definition stringArguments (body : list Token) : list StringLiteral :=
  map (fun tok => createStringLiteral (text tok) (loc tok))
    (filter (fun tok => Kind.eqb (kind tok) Kind.StringLiteral) body).

End Arguments.

Module RunawayExample.
Import Example.

(** [@item("Post"] and the file ends. *)
Definition unclosed_arguments_tokens : list Token :=
  [ tk Kind.AtToken "@" 0; tk Kind.Identifier "item" 1;
    tk Kind.LeftParenToken "(" 5; tk Kind.StringLiteral "Post" 6;
    tk Kind.EOF "" 12 ].

End RunawayExample.

(** ** The [get] method itself *)

Module GetMethod.
Import Render.
Local Open Scope render_scope.

(** [client/transaction.ts] *)
Inductive TransactionMode : Set := readonly | readwrite | versionchange.

Definition modeName (mode : TransactionMode) : string :=
  match mode with
  | readonly => "readonly"
  | readwrite => "readwrite"
  | versionchange => "versionchange"
  end.

Definition createTransactionWithMode (table : string) (mode : TransactionMode)
  : ts.Statement :=
  createConstStatement
    (ts.Identifier "tx")
    None
    (ts.CallExpression
       (ts.PropertyAccessExpression COMMON_IDENTIFIERS.db "transaction")
       [ts.ArrayLiteralExpression [ts.StringLiteral table];
        ts.StringLiteral (modeName mode)]).

(** [ts.factory.createPropertyAssignment]. *)
Record PropertyAssignment : Set :=
  createPropertyAssignment {
    pa_name : string;
    pa_initializer : ts.Expression }.

(** What [createGetMethod] imports from [../helpers] and [./objectStore],
    which are not among the sources. *)
Class MethodImports : Type := {
  createNewPromiseWithBody : ts.Statement -> ts.Expression;
  createGetObjectStore : string -> ts.Statement
}.

Section GetMethod.

Context `{Imports} `{MethodImports}.

(** [createGetMethod]: the arguments of [createArrowFunction] are evaluated
    in their order, the return type (with [getItemNameForTable]) before the
    body (with [createIndexAccessHandling]). *)
Definition createGetMethod (def : TableDefinition)
  : Result PropertyAssignment :=
  itemName <- getItemNameForTable def ;;
  handling <- createIndexAccessHandling def ;;
  Ok (createPropertyAssignment "get"
        (ts.ArrowFunction
           [ts.createParameterDeclaration "arg" false
              (ts.TypeReferenceNode (createGetArgsTypeName def) None)]
           (Some (ts.TypeReferenceNode COMMON_IDENTIFIERS.Promise
                    (Some [ts.TypeReferenceNode itemName None])))
           (ts.Block
              [ts.ReturnStatement
                 (createNewPromiseWithBody
                    (ts.Block
                       ([createTransactionWithMode (id_value (tbl_name def))
                           readonly;
                         createGetObjectStore (id_value (tbl_name def))]
                          ++ handling)
                       true))]
              true))).

End GetMethod.

(** One implementation of the two imports, for the examples. *)
Definition exampleMethodImports : MethodImports :=
  {| createNewPromiseWithBody :=
       fun body =>
         ts.NewExpression (ts.Identifier COMMON_IDENTIFIERS.Promise)
           [ts.ArrowFunction
              [ts.createParameterDeclaration "resolve" false
                 (ts.TypeReferenceNode "Function" None);
               ts.createParameterDeclaration "reject" false
                 (ts.TypeReferenceNode "Function" None)]
              None body];
     createGetObjectStore :=
       fun table =>
         createConstStatement (ts.Identifier "store") None
           (ts.CallExpression
              (ts.PropertyAccessExpression (ts.Identifier "tx") "objectStore")
              [ts.StringLiteral table]) |}.

(** A table with two [@item] annotations and no primary key. *)
Definition twice_named : TableDefinition :=
  createTableDefinition (Example.ident "Posts")
    [ Example.field [] "title" Kind.StringKeyword ]
    [Example.ann "item" ["Post"]; Example.ann "item" ["Entry"]] Example.l0.

Definition blog_twice_named : DatabaseDefinition :=
  createDatabaseDefinition (Example.ident "Blog")
    [Example.authors; twice_named; Example.posts] Example.l0.



End GetMethod.

Module Located.
Import Parser.

(** The token at [e] is an [EOF] token. *)
Definition eofAt (tokens : list Token) (e : nat) : Prop :=
  exists tok, nth_error tokens e = Some tok /\ kind tok = Kind.EOF.

(** [l] is the location of a token at or before position [e]. *)
Definition tokenLocation (tokens : list Token) (e : nat) (l : TextLocation)
  : Prop :=
  exists k tok, k <= e /\ nth_error tokens k = Some tok /\ l = loc tok.

(** The run [r]: if it returns, the cursor is not behind the [EOF] token at
    [e]; if it throws, the error is a [ParseError] with the location of a
    token at or before [e]. *)
Definition Safe {A} (tokens : list Token) (e : nat) (r : Outcome A) : Prop :=
  match r with
  | Returns _ j => j <= e
  | Throws TypeError => False
  | Throws (ParseError _ l) => tokenLocation tokens e l
  | OutOfFuel => True
  end.

(** [node.loc] of a type node. *)
Definition typeNodeLoc (t : TypeNode) : TextLocation :=
  match t with
  | KeywordType _ l => l
  | TypeReferenceNode _ _ l => l
  | StringLiteralType s => sl_loc s
  | IntegerLiteralType _ l => l
  | FloatLiteralType _ l => l
  | BooleanLiteralType _ l => l
  end.

(** [definition.loc] and [definition.name] of a top-level definition. *)
Definition definitionLoc (d : Definition_) : TextLocation :=
  match d with
  | DatabaseDef db => db_loc db
  | TypeDef ty => ty_loc ty
  end.

Definition definitionName (d : Definition_) : Identifier :=
  match d with
  | DatabaseDef db => db_name db
  | TypeDef ty => ty_name ty
  end.

(** The token that closes a top-level definition. *)
Definition closingKind (d : Definition_) : SyntaxKind :=
  match d with
  | DatabaseDef _ => Kind.RightBraceToken
  | TypeDef _ => Kind.SemicolonToken
  end.

(** The span from the start of [first] to the end of [last]. *)
Definition span (first last : Token) : TextLocation :=
  createTextLocation (loc_start (loc first)) (loc_end (loc last)).

End Located.

Module LocationExample.
Import Parser.

Definition noLocation : TextLocation := createTextLocation 0 0.
Definition noIdentifier : Identifier := createIdentifier "" noLocation.

(** The definition [type Status = "open" | "closed";]. *)
Definition status : Definition_ :=
  Eval vm_compute in
    match parseDefinition ParserExample.status_tokens 5 0 with
    | Returns (Some d) _ => d
    | _ => TypeDef (createTypeDefinition noIdentifier [] noLocation)
    end.

(** The table [Posts] of the README, at token 3 of the schema. *)
Definition posts : TableDefinition :=
  Eval vm_compute in
    match parseTableDefinition Example.blog_tokens 10 3 with
    | Returns t _ => t
    | _ => createTableDefinition noIdentifier [] [] noLocation
    end.

(** The field [@autoincrement id: number;], at token 11. *)
Definition id_field : FieldDefinition :=
  Eval vm_compute in
    match parseField Example.blog_tokens 10 11 with
    | Returns f _ => f
    | _ => createFieldDefinition noIdentifier []
             (KeywordType Kind.NumberKeyword noLocation) noLocation
    end.

(** The annotation [@item("Post")], at token 5. *)
Definition item_annotation : Annotation :=
  Eval vm_compute in
    match parseAnnotation Example.blog_tokens 10 5 with
    | Returns (Some a) _ => a
    | _ => createAnnotation noIdentifier [] noLocation
    end.

(** The type [Map<string>>] of a field, at token 8. *)
Definition map_type : TypeNode :=
  Eval vm_compute in
    match parseTypeNode
            (Example.field_type_tokens Example.map_string_twice_closed_tokens)
            10 8 with
    | Returns t _ => t
    | _ => KeywordType Kind.NumberKeyword noLocation
    end.

End LocationExample.

(** * Properties *)

Unset Implicit Arguments.

(** ** The parser *)

Lemma Kind_eqb_refl (k : SyntaxKind) : Kind.eqb k k = true.
Proof.
  unfold Kind.eqb. destruct (Kind.eq_dec k k); [reflexivity|contradiction].
Qed.

Section ParserFacts.
Import Parser.

Variable tokens : list Token.

(** [check] at a cursor that stands on a token. *)
Lemma check_on_token (i : nat) (tok : Token) (type : SyntaxKind) :
  nth_error tokens i = Some tok ->
  check tokens [type] i = Returns (Kind.eqb type (kind tok)) i.
Proof.
  intros Hnth. cbn. unfold bind, currentToken. rewrite Hnth. cbn.
  destruct (Kind.eqb type (kind tok)); reflexivity.
Qed.

(** [consume] of a kind the current token does not have: nothing moves. *)
Lemma consume_other (i : nat) (tok : Token) (type : SyntaxKind) :
  nth_error tokens i = Some tok ->
  Kind.eqb type (kind tok) = false ->
  consume tokens [type] i = Returns None i.
Proof.
  intros Hnth Hk. cbn [consume]. unfold bind.
  rewrite (check_on_token i tok _ Hnth), Hk. reflexivity.
Qed.

Lemma nth_error_in_range (i : nat) (tok : Token) :
  nth_error tokens i = Some tok -> (List.length tokens <=? i)%nat = false.
Proof.
  intros Hnth. apply Nat.leb_gt. apply nth_error_Some. congruence.
Qed.

Lemma isAtEnd_on_token (i : nat) (tok : Token) :
  nth_error tokens i = Some tok ->
  isAtEnd tokens i = Returns (Kind.eqb (kind tok) Kind.EOF) i.
Proof.
  intros Hnth. unfold isAtEnd.
  rewrite (nth_error_in_range i tok Hnth).
  unfold bind, currentToken. rewrite Hnth. reflexivity.
Qed.

(** [consume] of the kind of the current token, which is not [EOF]: the
    token is returned and the cursor moves by one. *)
Lemma consume_current (i : nat) (tok : Token) (type : SyntaxKind) :
  nth_error tokens i = Some tok ->
  Kind.eqb type (kind tok) = true ->
  Kind.eqb (kind tok) Kind.EOF = false ->
  consume tokens [type] i = Returns (Some tok) (i + 1).
Proof.
  intros Hnth Hk Heof. cbn [consume]. unfold bind.
  rewrite (check_on_token i tok _ Hnth), Hk.
  unfold advance, bind, isAtEnd.
  rewrite (nth_error_in_range i tok Hnth).
  unfold bind, currentToken. rewrite Hnth. cbn. rewrite Heof.
  unfold previousToken. rewrite Nat.add_1_r. rewrite Hnth. reflexivity.
Qed.

(** On such a token the argument loop runs out of any amount of fuel: each
    iteration ends in the state it started from. *)
Lemma parseAnnotationArgs_loop_stuck (i : nat) (tok : Token) :
  nth_error tokens i = Some tok ->
  staysInArgumentLoop (kind tok) = true ->
  forall fuel args,
    parseAnnotationArgs_loop tokens fuel args i = OutOfFuel.
Proof.
  intros Hnth Hk fuel.
  induction fuel as [|fuel IH]; intros args; [reflexivity|].
  cbn [parseAnnotationArgs_loop].
  unfold bind at 1. rewrite (check_on_token i tok _ Hnth).
  assert (Hrp : Kind.eqb Kind.RightParenToken (kind tok) = false)
    by (destruct (kind tok); try discriminate Hk; reflexivity).
  rewrite Hrp.
  unfold bind at 1. unfold readListSeparator, bind at 1.
  rewrite (check_on_token i tok _ Hnth).
  assert (Hc : Kind.eqb Kind.CommaToken (kind tok) = false)
    by (destruct (kind tok); try discriminate Hk; reflexivity).
  rewrite Hc. unfold ret at 1.
  unfold bind at 1. rewrite (consume_other i tok _ Hnth)
    by (destruct (kind tok); try discriminate Hk; reflexivity).
  unfold bind at 1.
  unfold runawayCheck, bind at 1. unfold currentToken at 1.
  unfold bind at 1. rewrite Hnth. unfold deref, ret at 1.
  assert (Hs : isStartOfDefinition tok = false)
    by (unfold isStartOfDefinition; destruct (kind tok);
        try discriminate Hk; reflexivity).
  rewrite Hs. unfold bind at 1. rewrite (check_on_token i tok _ Hnth).
  assert (He : Kind.eqb Kind.EOF (kind tok) = false)
    by (destruct (kind tok); try discriminate Hk; reflexivity).
  rewrite He. unfold ret at 1. apply IH.
Qed.

(** [parseAnnotation] from a cursor on [@ name ( tok], where the argument
    loop stays on [tok]. *)
Lemma parseAnnotation_stuck (i : nat) (atTok nameTok paren tok : Token) :
  nth_error tokens i = Some atTok ->
  nth_error tokens (i + 1) = Some nameTok ->
  nth_error tokens (i + 1 + 1) = Some paren ->
  nth_error tokens (i + 1 + 1 + 1) = Some tok ->
  kind atTok = Kind.AtToken ->
  kind nameTok = Kind.Identifier ->
  kind paren = Kind.LeftParenToken ->
  staysInArgumentLoop (kind tok) = true ->
  forall fuel, parseAnnotation tokens fuel i = OutOfFuel.
Proof.
  intros H0 H1 H2 H3 K0 K1 K2 K3 fuel.
  unfold parseAnnotation.
  unfold bind at 1.
  rewrite (consume_current i atTok _ H0) by (rewrite K0; reflexivity).
  unfold bind at 1. unfold requireValue at 1, ret at 1.
  unfold bind at 1.
  rewrite (consume_current _ nameTok _ H1) by (rewrite K1; reflexivity).
  unfold bind at 1. unfold requireValue at 1, ret at 1.
  unfold bind at 1. unfold parseAnnotationArgs, bind at 1.
  rewrite (consume_current _ paren _ H2) by (rewrite K2; reflexivity).
  unfold bind at 1.
  rewrite (parseAnnotationArgs_loop_stuck _ tok H3 K3). reflexivity.
Qed.

Lemma parseAnnotations_loop_stuck (i : nat) (atTok nameTok paren tok : Token) :
  nth_error tokens i = Some atTok ->
  nth_error tokens (i + 1) = Some nameTok ->
  nth_error tokens (i + 1 + 1) = Some paren ->
  nth_error tokens (i + 1 + 1 + 1) = Some tok ->
  kind atTok = Kind.AtToken ->
  kind nameTok = Kind.Identifier ->
  kind paren = Kind.LeftParenToken ->
  staysInArgumentLoop (kind tok) = true ->
  forall fuel annotations,
    parseAnnotations_loop tokens fuel annotations i = OutOfFuel.
Proof.
  intros H0 H1 H2 H3 K0 K1 K2 K3 fuel annotations.
  destruct fuel as [|fuel]; [reflexivity|].
  cbn [parseAnnotations_loop]. unfold bind at 1.
  rewrite (check_on_token i atTok _ H0), K0. rewrite Kind_eqb_refl.
  unfold bind at 1.
  rewrite (parseAnnotation_stuck i atTok nameTok paren tok
             H0 H1 H2 H3 K0 K1 K2 K3).
  reflexivity.
Qed.

(** [parseTableDefinition] from a cursor on [table T @ name ( tok]. *)
Lemma parseTableDefinition_stuck (i : nat)
  (tbl tname atTok nameTok paren tok : Token) :
  nth_error tokens i = Some tbl ->
  nth_error tokens (i + 1) = Some tname ->
  nth_error tokens (i + 1 + 1) = Some atTok ->
  nth_error tokens (i + 1 + 1 + 1) = Some nameTok ->
  nth_error tokens (i + 1 + 1 + 1 + 1) = Some paren ->
  nth_error tokens (i + 1 + 1 + 1 + 1 + 1) = Some tok ->
  kind tbl = Kind.TableKeyword ->
  kind tname = Kind.Identifier ->
  kind atTok = Kind.AtToken ->
  kind nameTok = Kind.Identifier ->
  kind paren = Kind.LeftParenToken ->
  staysInArgumentLoop (kind tok) = true ->
  forall fuel, parseTableDefinition tokens fuel i = OutOfFuel.
Proof.
  intros H0 H1 H2 H3 H4 H5 K0 K1 K2 K3 K4 K5 fuel.
  unfold parseTableDefinition.
  unfold bind at 1.
  rewrite (consume_current i tbl _ H0) by (rewrite K0; reflexivity).
  unfold bind at 1. unfold requireValue at 1, ret at 1.
  unfold bind at 1.
  rewrite (consume_current _ tname _ H1) by (rewrite K1; reflexivity).
  unfold bind at 1. unfold requireValue at 1, ret at 1.
  unfold bind at 1. unfold parseAnnotations.
  rewrite (parseAnnotations_loop_stuck _ atTok nameTok paren tok
             H2 H3 H4 H5 K2 K3 K4 K5).
  reflexivity.
Qed.

(** [parse()] on [database D { table T @ name ( tok ...]. *)
Lemma parse_stuck (db dname brace tbl tname atTok nameTok paren tok : Token) :
  nth_error tokens 0 = Some db ->
  nth_error tokens 1 = Some dname ->
  nth_error tokens 2 = Some brace ->
  nth_error tokens 3 = Some tbl ->
  nth_error tokens 4 = Some tname ->
  nth_error tokens 5 = Some atTok ->
  nth_error tokens 6 = Some nameTok ->
  nth_error tokens 7 = Some paren ->
  nth_error tokens 8 = Some tok ->
  kind db = Kind.DatabaseKeyword ->
  kind dname = Kind.Identifier ->
  kind brace = Kind.LeftBraceToken ->
  kind tbl = Kind.TableKeyword ->
  kind tname = Kind.Identifier ->
  kind atTok = Kind.AtToken ->
  kind nameTok = Kind.Identifier ->
  kind paren = Kind.LeftParenToken ->
  staysInArgumentLoop (kind tok) = true ->
  forall fuel, parse tokens fuel = OutOfFuel.
Proof.
  intros H0 H1 H2 H3 H4 H5 H6 H7 H8 K0 K1 K2 K3 K4 K5 K6 K7 K8 fuel.
  unfold parse. unfold bind at 1.
  destruct fuel as [|fuel]; [reflexivity|].
  cbn [parse_loop]. unfold bind at 1.
  rewrite (isAtEnd_on_token 0 db H0), K0.
  change (Kind.eqb Kind.DatabaseKeyword Kind.EOF) with false.
  unfold bind at 1. unfold parseDefinition.
  unfold bind at 1, currentToken at 1. rewrite H0.
  unfold bind at 1, deref at 1, ret at 1. rewrite K0.
  unfold bind at 1. unfold parseDatabaseDefinition.
  unfold bind at 1.
  rewrite (consume_current 0 db _ H0) by (rewrite K0; reflexivity).
  unfold bind at 1. unfold requireValue at 1, ret at 1.
  unfold bind at 1.
  rewrite (consume_current _ dname _ H1) by (rewrite K1; reflexivity).
  unfold bind at 1. unfold requireValue at 1, ret at 1.
  unfold bind at 1.
  rewrite (consume_current _ brace _ H2) by (rewrite K2; reflexivity).
  unfold bind at 1. unfold requireValue at 1, ret at 1.
  unfold bind at 1. unfold parseTableDefinitions.
  destruct fuel as [|fuel]; [reflexivity|].
  cbn [parseTableDefinitions_loop]. unfold bind at 1.
  rewrite (check_on_token _ tbl _ H3), K3.
  change (Kind.eqb Kind.RightBraceToken Kind.TableKeyword) with false.
  unfold bind at 1.
  rewrite (parseTableDefinition_stuck _ tbl tname atTok nameTok paren tok
             H3 H4 H5 H6 H7 H8 K3 K4 K5 K6 K7 K8).
  reflexivity.
Qed.

End ParserFacts.

(** C1.  The specification says that no token array makes [parse()] loop
    forever.
    On the tokens of [database D { table T @item(Post) { } }] the parser
    never returns and never throws: whatever the fuel, the run is still
    inside the argument loop of [parseAnnotationArgs], which stands on the
    identifier [Post] and does not move. *)
Theorem parse_runaway_annotation_argument (fuel : nat) :
  Parser.parse Example.runaway_tokens fuel = Parser.OutOfFuel.
Proof.
  exact (parse_stuck Example.runaway_tokens
           (Example.tk Kind.DatabaseKeyword "database" 0)
           (Example.tk Kind.Identifier "D" 9)
           (Example.tk Kind.LeftBraceToken "{" 11)
           (Example.tk Kind.TableKeyword "table" 13)
           (Example.tk Kind.Identifier "T" 19)
           (Example.tk Kind.AtToken "@" 21)
           (Example.tk Kind.Identifier "item" 22)
           (Example.tk Kind.LeftParenToken "(" 26)
           (Example.tk Kind.Identifier "Post" 27)
           eq_refl eq_refl eq_refl eq_refl eq_refl eq_refl eq_refl eq_refl
           eq_refl eq_refl eq_refl eq_refl eq_refl eq_refl eq_refl eq_refl
           eq_refl eq_refl fuel).
Qed.

(** C2.  The specification says that annotations are accepted between the
    name of a database and its opening brace.  [parseDatabaseDefinition] requires the
    brace right after the name: on every token array that starts with
    [database], an identifier and [@], [parse()] throws
    "Expected opening curly brace" at the [@]. *)
Theorem database_annotation_is_rejected
  (db name atTok : Token) (rest : list Token) (fuel : nat) :
  kind db = Kind.DatabaseKeyword ->
  kind name = Kind.Identifier ->
  kind atTok = Kind.AtToken ->
  Parser.parse (db :: name :: atTok :: rest) (S fuel)
  = Parser.Throws
      (Parser.ParseError "Expected opening curly brace" (loc atTok)).
Proof.
  intros Hdb Hname Hat.
  destruct db as [k0 t0 l0], name as [k1 t1 l1], atTok as [k2 t2 l2].
  cbn in Hdb, Hname, Hat. subst k0 k1 k2.
  reflexivity.
Qed.

(** The README's own example schema, [database Blog @version(1) { ... }],
    is such a token array. *)
Lemma database_annotation_is_rejected_witness :
  Parser.parse Example.blog_version_tokens 1
  = Parser.Throws
      (Parser.ParseError "Expected opening curly brace"
         (createTextLocation 14 15)).
Proof.
  exact (database_annotation_is_rejected
           (Example.tk Kind.DatabaseKeyword "database" 0)
           (Example.tk Kind.Identifier "Blog" 9)
           (Example.tk Kind.AtToken "@" 14)
           _ 0 eq_refl eq_refl eq_refl).
Defined.

(** C6.  The specification says that [Map<string>] and [Map<string, number>]
    parse as field types.  Inside the brackets the loop of
    [parseTypeReferenceNode] consumes a [>] where a comma is meant, so after
    [Map<string>] it goes on to read a type from the [;], and after
    [Map<string] it reads a type from the [,]: both fields are rejected. *)
Theorem parameterized_type_reference_is_rejected (fuel : nat) :
  Parser.parse (Example.field_type_tokens Example.map_string_tokens) (6 + fuel)
  = Parser.Throws
      (Parser.ParseError "TypeNode expected but found: SemicolonToken"
         (createTextLocation 50 51))
  /\
  Parser.parse (Example.field_type_tokens Example.map_string_number_tokens)
    (6 + fuel)
  = Parser.Throws
      (Parser.ParseError "TypeNode expected but found: CommaToken"
         (createTextLocation 36 37)).
Proof.
  split; reflexivity.
Qed.

(** What the loop does accept is the closing bracket written twice:
    [Map<string>>] parses, with the one type argument [string]. *)
Lemma twice_closed_type_reference_is_accepted (fuel : nat) :
  exists schema,
    Parser.parse
      (Example.field_type_tokens Example.map_string_twice_closed_tokens)
      (6 + fuel)
    = Parser.Returns schema 16
    /\ map (fun d =>
              match d with
              | DatabaseDef d =>
                  map (fun t => map fld_type (tbl_body t)) (db_body d)
              | TypeDef _ => []
              end) (schema_body schema)
       = [[[TypeReferenceNode
              (createIdentifier "Map" (createTextLocation 26 29))
              [KeywordType Kind.StringKeyword (createTextLocation 30 36)]
              (createTextLocation 26 38)]]].
Proof.
  eexists. split; reflexivity.
Qed.

(** The first schema of the README parses, given fuel: the database [Blog]
    with the table [Posts] as the examples below use it. *)
Lemma readme_schema_parses (fuel : nat) :
  exists d,
    Parser.parse Example.blog_tokens (10 + fuel)
    = Parser.Returns (createDatabaseSchema [DatabaseDef d]) 35
    /\ id_value (db_name d) = "Blog"
    /\ map Example.eraseTable (db_body d) = [Example.posts].
Proof.
  eexists. split; [reflexivity|]. split; reflexivity.
Qed.

(** ** The renderer: item names and the client type *)

Section RenderFacts.
Import Render.
Context `{Imports}.

Lemma mapM_total {A B} (f : A -> Result B) (xs : list A) :
  (forall x, In x xs -> exists y, f x = Ok y) ->
  exists ys, mapM f xs = Ok ys.
Proof.
  induction xs as [|x xs IH]; intros Hall; cbn.
  - eexists; reflexivity.
  - destruct (Hall x (or_introl eq_refl)) as [y Hy]. rewrite Hy. cbn.
    destruct IH as [ys Hys]; [intros; apply Hall; right; assumption|].
    rewrite Hys. cbn. eexists; reflexivity.
Qed.

(** The client type is generated as soon as the three method types of
    every table are. *)
Lemma createClientTypeDeclaration_total (def : DatabaseDefinition) :
  (forall t, In t (db_body def) ->
     (exists a, createAddMethodTypeNode t = Ok a) /\
     (exists n, getItemNameForTable t = Ok n) /\
     (exists g, createGetAllMethodTypeNode t = Ok g)) ->
  exists decl, createClientTypeDeclaration def = Ok decl.
Proof.
  intros Hall. unfold createClientTypeDeclaration.
  match goal with
  | |- context [mapM ?f ?xs] => destruct (mapM_total f xs) as [ms Hms]
  end.
  - intros t Ht. destruct (Hall t Ht) as [[a Ha] [[n Hn] [g Hg]]].
    rewrite Ha. cbn. unfold createGetMethodTypeNode. rewrite Hn. cbn.
    rewrite Hg. cbn. eexists; reflexivity.
  - rewrite Hms. cbn. eexists; reflexivity.
Qed.

End RenderFacts.

(** C7.  [getItemNameForTable], by the [@item] annotations the table
    carries: one annotation with one argument gives that argument; more than
    one annotation is an error, and so is one annotation with more than one
    argument; no annotation, or one without argument, gives the capitalized
    table name. *)
Theorem item_name_resolution (def : TableDefinition) :
  let items := Render.getAnnotationsByName (tbl_annotations def) "item" in
  (forall a s,
     items = [a] -> ann_arguments a = [s] ->
     Render.getItemNameForTable def = Render.Ok (sl_value s))
  /\ ((1 < List.length items)%nat ->
      Render.getItemNameForTable def
      = Render.Err ("Table can only include one annotation for "
                      ++ Render.dquote ++ "item" ++ Render.dquote))
  /\ (forall a,
        items = [a] -> (1 < List.length (ann_arguments a))%nat ->
        Render.getItemNameForTable def
        = Render.Err "Table can only include one name alias")
  /\ (items = [] ->
      Render.getItemNameForTable def
      = Render.Ok (Render.capitalize (id_value (tbl_name def))))
  /\ (forall a,
        items = [a] -> ann_arguments a = [] ->
        Render.getItemNameForTable def
        = Render.Ok (Render.capitalize (id_value (tbl_name def)))).
Proof.
  intros items. unfold Render.getItemNameForTable. fold items.
  repeat split.
  - intros a s Hi Ha. rewrite Hi. cbn. rewrite Ha. reflexivity.
  - intros Hlen. apply Nat.ltb_lt in Hlen. rewrite Hlen. reflexivity.
  - intros a Hi Hlen. rewrite Hi. cbn.
    destruct (ann_arguments a) as [|x [|y l]]; cbn in Hlen; try lia.
    reflexivity.
  - intros Hi. rewrite Hi. reflexivity.
  - intros a Hi Ha. rewrite Hi. cbn. rewrite Ha. reflexivity.
Qed.

(** The [Posts] table of the README carries [@item("Post")]; [Authors]
    carries no annotation. *)
Lemma item_name_resolution_witness :
  Render.getItemNameForTable Example.posts = Render.Ok "Post"
  /\ Render.getItemNameForTable Example.authors = Render.Ok "Authors".
Proof.
  split.
  - exact (proj1 (item_name_resolution Example.posts)
             (Example.ann "item" ["Post"]) (createStringLiteral "Post" Example.l0)
             eq_refl eq_refl).
  - exact (proj1 (proj2 (proj2 (proj2 (item_name_resolution Example.authors))))
             eq_refl).
Defined.

(** C10.  Whenever the client type of a database is generated, it is an
    object type with one property a table, in the order of the tables; the
    property of a table is named by the table name in lower case, and its
    type is an object type with the three members [add], [get] and
    [getAll], in this order. *)
Theorem client_type_has_one_property_per_table
  `{Render.Imports} (def : DatabaseDefinition)
  (decl : ts.TypeAliasDeclaration) :
  Render.createClientTypeDeclaration def = Render.Ok decl ->
  exists members,
    ts.alias_type decl = ts.TypeLiteralNode members
    /\ map ts.ps_name members
       = map (fun t => Render.toLowerCase (id_value (tbl_name t))) (db_body def)
    /\ Forall
         (fun m => exists addType getType getAllType,
            ts.ps_type m
            = ts.TypeLiteralNode
                [ts.createPropertySignature "add" false addType;
                 ts.createPropertySignature "get" false getType;
                 ts.createPropertySignature "getAll" false getAllType])
         members.
Proof.
  unfold Render.createClientTypeDeclaration. intros Hgen.
  match type of Hgen with
  | context [Render.mapM ?f ?xs] =>
      destruct (Render.mapM f xs) as [members|msg] eqn:Hm
  end; cbn in Hgen; [|discriminate Hgen].
  inversion Hgen; subst decl; clear Hgen. exists members. cbn.
  split; [reflexivity|].
  revert members Hm.
  induction (db_body def) as [|t ts IH]; intros members Hm; cbn in Hm.
  - inversion Hm; subst. split; [reflexivity|constructor].
  - destruct (Render.createAddMethodTypeNode t) as [a|?]; cbn in Hm;
      [|discriminate Hm].
    destruct (Render.createGetMethodTypeNode t) as [g|?]; cbn in Hm;
      [|discriminate Hm].
    destruct (Render.createGetAllMethodTypeNode t) as [ga|?]; cbn in Hm;
      [|discriminate Hm].
    match type of Hm with
    | context [Render.mapM ?f ts] =>
        destruct (Render.mapM f ts) as [ms|?] eqn:Hms
    end; cbn in Hm; [|discriminate Hm].
    inversion Hm; subst members; clear Hm.
    destruct (IH ms eq_refl) as [Hnames Hall].
    split.
    + cbn. rewrite Hnames. reflexivity.
    + constructor; [|assumption]. cbn. eauto.
Qed.

(** The [Blog] database of the README, with its tables [Authors] and
    [Posts]: the client type has the properties [authors] and [posts]. *)
Lemma client_type_has_one_property_per_table_witness :
  @Render.createClientTypeDeclaration Example.imports Example.blog
  = Render.Ok Example.blog_client_type
  /\ exists members,
       ts.alias_type Example.blog_client_type = ts.TypeLiteralNode members
       /\ map ts.ps_name members = ["authors"; "posts"]
       /\ Forall
            (fun m => exists addType getType getAllType,
               ts.ps_type m
               = ts.TypeLiteralNode
                   [ts.createPropertySignature "add" false addType;
                    ts.createPropertySignature "get" false getType;
                    ts.createPropertySignature "getAll" false getAllType])
            members.
Proof.
  split; [reflexivity|].
  exact (@client_type_has_one_property_per_table
           Example.imports Example.blog Example.blog_client_type eq_refl).
Defined.

(** ** The renderer: the argument type of [get] *)

Section GetArgsFacts.
Import Render.
Context `{Imports}.

(** A [key] entry gives the [number] type, whatever its type is. *)
Lemma typeNodeForIndex_key (name : string) (type : TypeNode) :
  typeNodeForIndex (mkTableIndex key name type)
  = ts.KeywordTypeNode ts.NumberKeyword.
Proof. reflexivity. Qed.

(** An [index] entry gives an object type with the one property that is
    named after the entry. *)
Lemma typeNodeForIndex_index (name : string) (type : TypeNode) :
  typeNodeForIndex (mkTableIndex index name type)
  = ts.TypeLiteralNode
      [ts.createPropertySignature name false (typeForTypeNode type)].
Proof. reflexivity. Qed.

(** The union has one alternative an entry, in the order of the entries. *)
Lemma createGetArgsType_alternatives (def : TableDefinition)
  (indexes : list TableIndex) :
  getIndexesForTable def = Ok indexes ->
  createGetArgsType def
  = Ok (ts.createTypeAliasDeclaration true (createGetArgsTypeName def)
          (Some []) (ts.UnionTypeNode (map typeNodeForIndex indexes))).
Proof.
  intros Hidx. unfold createGetArgsType. rewrite Hidx. reflexivity.
Qed.

End GetArgsFacts.

(** C3.  The specification says that [GetArgs] is
    [number | {id: number} | {title: string} | {author: string}] for a table
    with the key [id: number] and the indexes [title: string] and
    [author: string].  The generated union has three alternatives, one an
    entry: [number] for the key, then the object types of [title] and of
    [author]; there is no alternative [{id: number}]. *)
Theorem get_args_union_of_key_and_two_indexes
  `{Render.Imports} (def : TableDefinition) (idType titleType authorType : TypeNode) :
  Render.getIndexesForTable def
  = Render.Ok [Render.mkTableIndex Render.key "id" idType;
               Render.mkTableIndex Render.index "title" titleType;
               Render.mkTableIndex Render.index "author" authorType] ->
  Render.createGetArgsType def
  = Render.Ok
      (ts.createTypeAliasDeclaration true (Render.createGetArgsTypeName def)
         (Some [])
         (ts.UnionTypeNode
            [ts.KeywordTypeNode ts.NumberKeyword;
             ts.TypeLiteralNode
               [ts.createPropertySignature "title" false
                  (Render.typeForTypeNode titleType)];
             ts.TypeLiteralNode
               [ts.createPropertySignature "author" false
                  (Render.typeForTypeNode authorType)]])).
Proof.
  intros Hidx.
  rewrite (createGetArgsType_alternatives def _ Hidx). reflexivity.
Qed.

(** The [Posts] table of the README: [PostsGetArgs] is
    [number | {title: string} | {author: string}]. *)
Lemma get_args_union_of_key_and_two_indexes_witness :
  @Render.getIndexesForTable Example.imports Example.posts
  = Render.Ok [Example.id_key; Example.title_index; Example.author_index]
  /\ @Render.createGetArgsType Example.imports Example.posts
     = Render.Ok
         (ts.createTypeAliasDeclaration true "PostsGetArgs" (Some [])
            (ts.UnionTypeNode
               [ts.KeywordTypeNode ts.NumberKeyword;
                ts.TypeLiteralNode
                  [ts.createPropertySignature "title" false
                     (ts.KeywordTypeNode ts.StringKeyword)];
                ts.TypeLiteralNode
                  [ts.createPropertySignature "author" false
                     (ts.KeywordTypeNode ts.StringKeyword)]])).
Proof.
  split; [reflexivity|].
  exact (@get_args_union_of_key_and_two_indexes
           Example.imports Example.posts
           Example.numberType Example.stringType Example.stringType eq_refl).
Defined.

(** C4, as the code has it.  The alternative generated for the index entry
    named [title_author] is an object type with one property: the
    property is named [title_author], after the entry, and typed by the one
    type the entry records. *)
Theorem compound_index_alternative_is_keyed_by_index_name
  `{Render.Imports} (type : TypeNode) :
  Render.typeNodeForIndex
    (Render.mkTableIndex Render.index "title_author" type)
  = ts.TypeLiteralNode
      [ts.createPropertySignature "title_author" false
         (Render.typeForTypeNode type)].
Proof. apply typeNodeForIndex_index. Qed.

(** C4, as the specification has it: whatever the imported functions are, the
    alternative of the entry [title_author] is not the object type
    [{title: string, author: string}] with one property a member field. *)
Lemma compound_index_alternative_is_not_multi_field :
  ~ exists imports : Render.Imports,
      @Render.typeNodeForIndex imports Example.title_author_index
      = ts.TypeLiteralNode
          [ts.createPropertySignature "title" false
             (@Render.typeForTypeNode imports Example.stringType);
           ts.createPropertySignature "author" false
             (@Render.typeForTypeNode imports Example.stringType)].
Proof.
  intros [imports Heq]. cbv in Heq. discriminate Heq.
Qed.

(** C5.  The specification says that the alternative of the primary key is
    the type of the key field, [string] for a [@key] field of type [string].  The
    alternative of a [key] entry is [number] whatever the type of the field:
    for the key [slug: string] it is [number], not [string]. *)
Theorem key_alternative_is_number_for_string_key `{Render.Imports} :
  Render.typeNodeForIndex Example.slug_key
  = ts.KeywordTypeNode ts.NumberKeyword
  /\ Render.typeNodeForIndex Example.slug_key
     <> ts.KeywordTypeNode ts.StringKeyword
  /\ forall name type,
       Render.typeNodeForIndex (Render.mkTableIndex Render.key name type)
       = ts.KeywordTypeNode ts.NumberKeyword.
Proof.
  split; [reflexivity|]. split; [discriminate|]. reflexivity.
Qed.

(** ** The generated code: predicates and dispatch *)

Section PredicateFacts.
Import Render Js.
Context `{Imports}.

(** What the body of the predicate of an entry computes. *)
Lemma predicate_call (def : TableDefinition) (idx : TableIndex)
  (arg : JsVal) :
  match closureOf (createIndexPredicate def idx) with
  | Function parameters body => callFunction parameters body [arg]
  | _ => Exn Unsupported
  end
  = match arg with
    | VNull => Exn TypeError
    | _ => Val (VBool (hasProperty arg (idx_name idx)))
    end.
Proof. destruct arg; reflexivity. Qed.

End PredicateFacts.

(** C9.  One predicate is generated for every entry of the table, the key
    entry included, under the name [is<Table><Index>Index], with the declared
    type predicate [arg is <the alternative of the entry>].  Called on
    [arg], it returns [true] exactly when [typeof arg] is ["object"] and
    [arg] has a property named after the entry; two objects with the same
    property names get the same answer, whatever the values; and the
    predicate of a key entry, declared as [arg is number], answers [false]
    on every number. *)
Theorem index_predicates_check_object_property
  `{Render.Imports} (def : TableDefinition)
  (indexes : list Render.TableIndex) :
  Render.getIndexesForTable def = Render.Ok indexes ->
  exists statements,
    Render.createIndexPredicates def = Render.Ok statements
    /\ List.length statements = List.length indexes
    /\ forall n idx,
         nth_error indexes n = Some idx ->
         exists body,
           nth_error statements n
           = Some (ts.VariableStatement ts.Const
                     (ts.Identifier (Render.createPredicateNameForIndex def idx))
                     None
                     (ts.ArrowFunction
                        [ts.createParameterDeclaration "arg" false
                           (Render.createGetArgsTypeNode def)]
                        (Some (ts.TypePredicateNode "arg"
                                 (Render.typeNodeForIndex idx)))
                        body))
           /\ (forall arg,
                 Js.callFunction ["arg"] body [arg] = Js.Val (Js.VBool true)
                 <-> Js.typeofJs arg = "object"
                     /\ Js.hasProperty arg (Render.idx_name idx) = true)
           /\ (forall props props',
                 map fst props = map fst props' ->
                 Js.callFunction ["arg"] body [Js.VObject props]
                 = Js.callFunction ["arg"] body [Js.VObject props'])
           /\ (Render.indexKind idx = Render.key ->
               Render.typeNodeForIndex idx = ts.KeywordTypeNode ts.NumberKeyword
               /\ forall n,
                    Js.callFunction ["arg"] body [Js.VNumber n]
                    = Js.Val (Js.VBool false)).
Proof.
  intros Hidx. unfold Render.createIndexPredicates. rewrite Hidx. cbn.
  eexists. split; [reflexivity|]. split; [apply length_map|].
  intros n idx Hn. eexists. split.
  - rewrite nth_error_map, Hn. reflexivity.
  - split; [|split].
    + intros arg.
      destruct arg; cbn; split;
        try (intros Hc; discriminate Hc);
        try (intros [Ht Hp]; discriminate);
        try (intros [Ht Hp]; congruence).
      intros Hc. inversion Hc. split; reflexivity.
    + intros props props' Hnames. cbn. rewrite Hnames. reflexivity.
    + intros Hkey. split.
      * destruct idx as [k nm ty]. cbn in Hkey. subst k. reflexivity.
      * intros z. reflexivity.
Qed.

(** The [Posts] table of the README: three predicates, for [id], [title]
    and [author]. *)
Lemma index_predicates_check_object_property_witness :
  @Render.getIndexesForTable Example.imports Example.posts
  = Render.Ok [Example.id_key; Example.title_index; Example.author_index]
  /\ exists statements,
       @Render.createIndexPredicates Example.imports Example.posts
       = Render.Ok statements
       /\ List.length statements = 3%nat.
Proof.
  split; [reflexivity|].
  destruct (@index_predicates_check_object_property
              Example.imports Example.posts _ eq_refl)
    as [statements [Hgen [Hlen _]]].
  exists statements. split; assumption.
Defined.

Section DispatchFacts.
Import Render Js.
Context `{Imports}.

Variable def : TableDefinition.

(** The names of the variables of the method differ from every predicate
    name: a predicate name starts with [is]. *)
Lemma predicate_name_is_not_local (idx : TableIndex) (x : string) :
  In x ["store"; "reject"; "arg"; "getRequest"; "index"] ->
  String.eqb x (createPredicateNameForIndex def idx) = false.
Proof.
  cbn. intros [<-|[<-|[<-|[<-|[<-|[]]]]]]; reflexivity.
Qed.

#[local] Opaque createPredicateNameForIndex.

Lemma existsb_eqb_false (x : string) (names : list string) :
  existsb (String.eqb x) names = false ->
  forall y, In y names -> String.eqb y x = false.
Proof.
  induction names as [|n names IH]; cbn; intros Hex y Hy; [contradiction|].
  apply orb_false_iff in Hex. destruct Hex as [Hn Hrest].
  destruct Hy as [<-|Hy]; [rewrite String.eqb_sym; assumption|].
  apply IH; assumption.
Qed.

Lemma declaredNames_predicates (indexes : list TableIndex) :
  declaredNames (map (createIndexPredicate def) indexes)
  = map (createPredicateNameForIndex def) indexes.
Proof.
  induction indexes as [|i rest IH]; [reflexivity|].
  unfold declaredNames in *. cbn [map flat_map]. rewrite IH. reflexivity.
Qed.

(** Declaring the predicates: every predicate name is bound to its
    function, and no other name changes. *)
Lemma exec_predicates (indexes : list TableIndex) :
  distinct (map (createPredicateNameForIndex def) indexes) = true ->
  forall st, exists vars',
    execList (map (createIndexPredicate def) indexes) st
    = Val (mkState vars' (events st))
    /\ (forall idx, In idx indexes ->
          lookup vars' (createPredicateNameForIndex def idx)
          = Some (closureOf (createIndexPredicate def idx)))
    /\ (forall x,
          existsb (String.eqb x)
            (map (createPredicateNameForIndex def) indexes) = false ->
          lookup vars' x = lookup (vars st) x).
Proof.
  induction indexes as [|i rest IH]; intros Hd st.
  - exists (vars st). destruct st. cbn. split; [reflexivity|].
    split; [intros idx []|reflexivity].
  - cbn in Hd. apply andb_true_iff in Hd. destruct Hd as [Hfresh Hd].
    apply negb_true_iff in Hfresh.
    set (st1 := mkState
                  ((createPredicateNameForIndex def i,
                    closureOf (createIndexPredicate def i)) :: vars st)
                  (events st)).
    destruct (IH Hd st1) as [vars' [Hexec [Hin Hout]]].
    exists vars'. split; [exact Hexec|]. split.
    + intros idx [<-|Hidx]; [|apply Hin; assumption].
      rewrite (Hout _ Hfresh). cbn. rewrite String.eqb_refl. reflexivity.
    + intros x Hx. cbn in Hx. apply orb_false_iff in Hx.
      destruct Hx as [Hxi Hxrest].
      rewrite (Hout _ Hxrest). cbn.
      rewrite String.eqb_sym, Hxi. reflexivity.
Qed.

Lemma execList_singleton (s : ts.Statement) (st : State) :
  execList [s] st = exec s st.
Proof.
  cbn [execList]. destruct (exec s st); reflexivity.
Qed.

(** The conditions are one statement, or none. *)
Lemma execList_conditions (indexes keys : list TableIndex) (st : State) :
  execList (createConditionsForIndexes def indexes keys) st
  = match hd_error (createConditionsForIndexes def indexes keys) with
    | Some s => exec s st
    | None => Val st
    end.
Proof.
  destruct indexes as [|i rest]; cbn [createConditionsForIndexes].
  - destruct keys as [|k keys']; [reflexivity|].
    cbn [List.length Nat.ltb Nat.leb]. apply execList_singleton.
  - apply execList_singleton.
Qed.

Variable arg : JsVal.
Hypothesis arg_not_null : arg <> VNull.

Variable vs : list (string * Value).
Hypothesis arg_bound : lookup vs "arg" = Some (Data arg).
Hypothesis store_bound : lookup vs "store" = Some ObjectStore.

(** The request the conditions decide on, from the state that follows
    [let getRequest = null]. *)
Lemma exec_conditions (keys indexes : list TableIndex)
  (ev : list Event) :
  (forall idx, In idx indexes ->
     lookup vs (createPredicateNameForIndex def idx)
     = Some (closureOf (createIndexPredicate def idx))) ->
  execList (createConditionsForIndexes def indexes keys)
    (mkState (("getRequest", Data VNull) :: vs) ev)
  = Val (mkState
           (("getRequest",
             match find (fun i => hasProperty arg (idx_name i)) indexes with
             | Some i =>
                 Request (IndexGet (idx_name i) (member arg (idx_name i)))
             | None =>
                 match keys with
                 | _ :: _ => Request (StoreGet arg)
                 | [] => Data VNull
                 end
             end) :: vs)
           ev).
Proof.
  induction indexes as [|i rest IH]; intros Hpred.
  - cbn [createConditionsForIndexes find].
    destruct keys as [|k keys']; [reflexivity|].
    cbn. rewrite store_bound. cbn. rewrite arg_bound. cbn.
    rewrite Nat.sub_diag. reflexivity.
  - rewrite execList_conditions.
    cbn [createConditionsForIndexes hd_error exec find].
    cbn [evalExpr vars lookup].
    rewrite (predicate_name_is_not_local i "getRequest")
      by (cbn; tauto).
    rewrite (Hpred i (or_introl eq_refl)).
    cbn [String.eqb Ascii.eqb Bool.eqb]. rewrite arg_bound.
    cbn [Js.bind].
    pose proof (predicate_call def i arg) as Hcall.
    cbn [closureOf createIndexPredicate createConstStatement map
           ts.param_name] in Hcall |- *.
    rewrite Hcall. clear Hcall.
    destruct arg as [| |b|n|s|props] eqn:Harg;
      try (exfalso; apply arg_not_null; reflexivity);
      cbn [hasProperty].
    all: try (cbn [Js.bind truthyValue truthy];
              rewrite <- execList_conditions;
              apply IH; intros idx Hidx; apply Hpred; right; exact Hidx).
    destruct (existsb (String.eqb (idx_name i)) (map fst props)) eqn:Hhas.
    + cbn. rewrite store_bound. cbn. rewrite arg_bound. cbn.
      assert (Hlen : forall n : nat,
                 (match n with 0 => S n | S l => n - l end = 1)%nat)
        by (intros [|n]; lia).
      rewrite Hlen. reflexivity.
    + cbn [Js.bind truthyValue truthy].
      rewrite <- execList_conditions.
      apply IH. intros idx Hidx. apply Hpred. right. exact Hidx.
Qed.

End DispatchFacts.

Section Dispatch.
Import Render Js.
Context `{Imports}.

#[local] Opaque createPredicateNameForIndex.

Lemma execList_app (l1 l2 : list ts.Statement) (st : State) :
  execList (l1 ++ l2) st
  = Js.bind (execList l1 st) (fun st1 => execList l2 st1).
Proof.
  revert st. induction l1 as [|s l1 IH]; intros st; cbn; [reflexivity|].
  destruct (exec s st) as [st1|e]; cbn; [apply IH|reflexivity].
Qed.

(** C8.  The specification says this of any table and any argument.  It
    holds of the [get] method of a table whose generated statements are
    printed to the text of themselves ([printable]: every name written where
    an identifier stands is one) and whose predicates have pairwise distinct
    names, run on an argument that is not [null]: the predicates of the
    secondary indexes are tried in the order of the entries, and the first
    that accepts the argument decides, the request is
    [store.index(name).get(arg.name)]; when none accepts, the request is
    [store.get(arg)], the argument as it came, if the table has a key
    entry, and the promise is rejected with
    [Error("No available index for given query")] if it has none. *)
Theorem get_dispatches_on_first_accepting_index
  (def : TableDefinition) (indexesAndKeys : list TableIndex)
  (predicates handling : list ts.Statement) (arg : JsVal) :
  getIndexesForTable def = Ok indexesAndKeys ->
  createIndexPredicates def = Ok predicates ->
  createIndexAccessHandling def = Ok handling ->
  printable (predicates ++ handling) = true ->
  distinct (map (createPredicateNameForIndex def) indexesAndKeys) = true ->
  arg <> VNull ->
  let indexes := filter (fun i => negb (isKind key i)) indexesAndKeys in
  let keys := filter (fun i => negb (isKind index i)) indexesAndKeys in
  outcome (callGet predicates handling arg)
  = Val match find (fun i => hasProperty arg (idx_name i)) indexes with
        | Some i =>
            requested (IndexGet (idx_name i) (member arg (idx_name i)))
        | None =>
            match keys with
            | _ :: _ => requested (StoreGet arg)
            | [] => rejected "No available index for given query"
            end
        end.
Proof.
  intros Hidx Hpreds Hhandling Hprints Hdistinct Hnotnull indexes keys.
  unfold callGet. rewrite Hprints. clear Hprints.
  unfold createIndexPredicates in Hpreds. rewrite Hidx in Hpreds.
  cbn in Hpreds. inversion Hpreds; subst predicates; clear Hpreds.
  unfold createIndexAccessHandling in Hhandling. rewrite Hidx in Hhandling.
  cbn [Render.bind] in Hhandling.
  destruct (getItemNameForTable def) as [itemName|msg];
    cbn [Render.bind] in Hhandling; [|discriminate Hhandling].
  inversion Hhandling; subst handling; clear Hhandling.
  fold indexes keys.
  unfold runGet. rewrite declaredNames_predicates, Hdistinct.
  destruct (exec_predicates def indexesAndKeys Hdistinct (mkState [] []))
    as [vars' [Hexec [Hin _]]].
  rewrite Hexec. cbn [Js.bind vars events].
  set (vs := [("store", ObjectStore); ("reject", RejectFunction);
              ("arg", Data arg)] ++ vars').
  change ([createLetStatement COMMON_IDENTIFIERS.getRequest ?t ts.NullLiteral]
            ++ ?rest)
    with (createLetStatement COMMON_IDENTIFIERS.getRequest t ts.NullLiteral
            :: rest).
  cbn [execList exec createLetStatement COMMON_IDENTIFIERS.getRequest
         evalExpr Js.bind vars events].
  rewrite execList_app.
  rewrite (exec_conditions def arg Hnotnull vs eq_refl eq_refl keys indexes).
  2: { intros idx Hidx'. unfold vs. cbn [app lookup].
       rewrite !(predicate_name_is_not_local def idx) by (cbn; tauto).
       apply Hin. apply filter_In in Hidx'. tauto. }
  cbn [Js.bind].
  destruct (find (fun i => hasProperty arg (idx_name i)) indexes) as [i|].
  - reflexivity.
  - destruct keys; reflexivity.
Qed.

End Dispatch.

(** The [Posts] table of the README, asked for [{author: "Kevin"}]: the
    predicate of [title] refuses, the predicate of [author] accepts. *)
Lemma get_dispatches_on_first_accepting_index_witness :
  Js.outcome
    (Js.callGet Example.posts_predicates Example.posts_handling
       (Js.VObject [("author", Js.VString "Kevin")]))
  = Js.Val (Js.requested (Js.IndexGet "author" (Js.VString "Kevin"))).
Proof.
  exact (@get_dispatches_on_first_accepting_index
           Example.imports Example.posts
           [Example.id_key; Example.title_index; Example.author_index]
           Example.posts_predicates Example.posts_handling
           (Js.VObject [("author", Js.VString "Kevin")])
           eq_refl eq_refl eq_refl eq_refl eq_refl
           (fun e => eq_ind (Js.VObject [("author", Js.VString "Kevin")])
                       (fun v => match v with
                                 | Js.VNull => False
                                 | _ => True
                                 end) I Js.VNull e)).
Defined.

(** C8, as the specification has it, of any table and any argument: it
    fails for the table [Posts] of the README called with [null].  No
    predicate accepts [null] and the table has a key, yet no request is
    made: the predicate of [title] throws a [TypeError]. *)
Lemma get_dispatch_fails_on_null :
  ~ (forall (imports : Render.Imports) (def : TableDefinition)
       (indexesAndKeys : list Render.TableIndex)
       (predicates handling : list ts.Statement) (arg : Js.JsVal),
       @Render.getIndexesForTable imports def = Render.Ok indexesAndKeys ->
       @Render.createIndexPredicates imports def = Render.Ok predicates ->
       @Render.createIndexAccessHandling imports def = Render.Ok handling ->
       Js.outcome (Js.callGet predicates handling arg)
       = Js.Val
           match
             find (fun i => Js.hasProperty arg (Render.idx_name i))
               (filter (fun i => negb (Render.isKind Render.key i))
                  indexesAndKeys)
           with
           | Some i =>
               Js.requested
                 (Js.IndexGet (Render.idx_name i)
                    (Js.member arg (Render.idx_name i)))
           | None =>
               match
                 filter (fun i => negb (Render.isKind Render.index i))
                   indexesAndKeys
               with
               | _ :: _ => Js.requested (Js.StoreGet arg)
               | [] => Js.rejected "No available index for given query"
               end
           end).
Proof.
  intros Hclaim.
  specialize (Hclaim Example.imports Example.posts
                [Example.id_key; Example.title_index; Example.author_index]
                Example.posts_predicates Example.posts_handling Js.VNull
                eq_refl eq_refl eq_refl).
  vm_compute in Hclaim. discriminate Hclaim.
Qed.

(** The object form of the key, [{id: 4}]: no predicate of a secondary index
    accepts it, and it goes to [store.get] as it came. *)
Lemma get_by_key_object_is_passed_unchanged :
  Js.outcome
    (Js.runGet Example.posts_predicates Example.posts_handling
       (Js.VObject [("id", Js.VNumber 4)]))
  = Js.Val (Js.requested (Js.StoreGet (Js.VObject [("id", Js.VNumber 4)]))).
Proof. reflexivity. Qed.

(** Both [title] and [author] given: [title] is listed first and wins. *)
Lemma get_by_two_indexes_takes_the_first :
  Js.outcome
    (Js.runGet Example.posts_predicates Example.posts_handling
       (Js.VObject [("author", Js.VString "Kevin");
                    ("title", Js.VString "First Post")]))
  = Js.Val (Js.requested (Js.IndexGet "title" (Js.VString "First Post"))).
Proof. reflexivity. Qed.

(** A table without key entry, asked for a number: the promise is
    rejected. *)
Lemma get_without_key_is_rejected :
  Js.outcome
    (Js.runGet Example.keyless_predicates Example.keyless_handling
       (Js.VNumber 4))
  = Js.Val (Js.rejected "No available index for given query").
Proof. reflexivity. Qed.

(** On [null] the first predicate throws: [typeof null] is ["object"], and
    [Reflect.has] refuses a target that is not an object. *)
Lemma get_null_throws :
  Js.outcome
    (Js.runGet Example.posts_predicates Example.posts_handling Js.VNull)
  = Js.Exn Js.TypeError.
Proof. reflexivity. Qed.

(** Two entries whose names differ in the case of the first letter only:
    the module declares one predicate name twice and does not load. *)
Lemma get_with_clashing_predicate_names_does_not_load :
  map (Render.createPredicateNameForIndex Example.posts)
    [Example.title_index;
     Render.mkTableIndex Render.index "Title" Example.stringType]
  = ["isPostsTitleIndex"; "isPostsTitleIndex"]
  /\ Js.outcome
       (Js.runGet Example.clashing_predicates Example.clashing_handling
          (Js.VObject [("Title", Js.VString "First Post")]))
     = Js.Exn Js.SyntaxError.
Proof. split; reflexivity. Qed.

(** An index called [my-index]: the predicate would be declared as
    [isPostsMy-indexIndex] and the access written [arg.my-index]; the tree
    is not the printed module, and is not run. *)
Lemma get_with_dashed_index_name_is_not_run (arg : Js.JsVal) :
  Js.declaredNames Example.dashed_predicates
  = ["isPostsIdIndex"; "isPostsMy-indexIndex"]
  /\ Js.printable (Example.dashed_predicates ++ Example.dashed_handling)
     = false
  /\ Js.callGet Example.dashed_predicates Example.dashed_handling arg
     = Js.Exn Js.Unsupported.
Proof. repeat split; reflexivity. Qed.

Section PrintedFacts.
Import Render Js.
Context `{Imports}.

#[local] Opaque createPredicateNameForIndex isIdentifierName isIdentifier.

(** In a printable module the name of every secondary index is an
    identifier name: it names a property of the type its predicate
    declares. *)
Lemma printable_index_names (def : TableDefinition)
  (entries : list TableIndex) (predicates handling : list ts.Statement) :
  getIndexesForTable def = Ok entries ->
  createIndexPredicates def = Ok predicates ->
  printable (predicates ++ handling) = true ->
  forall idx, In idx entries -> indexKind idx = index ->
    isIdentifierName (idx_name idx) = true.
Proof.
  intros Hidx Hpreds Hprints idx Hin Hkind.
  unfold createIndexPredicates in Hpreds. rewrite Hidx in Hpreds.
  cbn in Hpreds. inversion Hpreds; subst predicates; clear Hpreds.
  unfold printable in Hprints. rewrite forallb_app in Hprints.
  apply andb_true_iff in Hprints. destruct Hprints as [Hprints _].
  rewrite forallb_forall in Hprints.
  specialize (Hprints (createIndexPredicate def idx)
                (in_map (createIndexPredicate def) entries idx Hin)).
  destruct idx as [k name type]. cbn in Hkind. subst k.
  cbn in Hprints.
  repeat (apply andb_true_iff in Hprints; destruct Hprints as [Hprints ?]).
  repeat match goal with
         | Hc : _ && _ = true |- _ =>
             apply andb_true_iff in Hc; destruct Hc
         end.
  assumption.
Qed.

End PrintedFacts.

(** The names of the predicates generated for [Posts]. *)
Lemma posts_predicate_names :
  @Render.createIndexPredicates Example.imports Example.posts
  = Render.Ok Example.posts_predicates
  /\ Js.declaredNames Example.posts_predicates
     = ["isPostsIdIndex"; "isPostsTitleIndex"; "isPostsAuthorIndex"].
Proof. split; reflexivity. Qed.

(** * More of the parser *)

Lemma Kind_eqb_true (a b : SyntaxKind) : Kind.eqb a b = true -> a = b.
Proof.
  unfold Kind.eqb. destruct (Kind.eq_dec a b); [trivial|discriminate].
Qed.

Section CursorFacts.
Import Parser Cursor.

Variable tokens : list Token.

Lemma consume_spec (type : Kind.t) (i : nat) :
  Kind.eqb type Kind.EOF = false ->
  consume tokens [type] i
  = match nth_error tokens i with
    | None => Throws TypeError
    | Some tok =>
        if Kind.eqb type (kind tok) then Returns (Some tok) (i + 1)
        else Returns None i
    end.
Proof.
  intros Hty. destruct (nth_error tokens i) as [tok|] eqn:Hnth.
  - destruct (Kind.eqb type (kind tok)) eqn:Hk.
    + apply consume_current; try assumption.
      apply Kind_eqb_true in Hk. subst type. exact Hty.
    + apply consume_other with tok; assumption.
  - cbn. unfold bind, currentToken. rewrite Hnth. reflexivity.
Qed.

Lemma check_spec (type : Kind.t) (i : nat) :
  check tokens [type] i
  = match nth_error tokens i with
    | None => Throws TypeError
    | Some tok => Returns (Kind.eqb type (kind tok)) i
    end.
Proof.
  destruct (nth_error tokens i) as [tok|] eqn:Hnth.
  - apply check_on_token. assumption.
  - cbn. unfold bind, currentToken. rewrite Hnth. reflexivity.
Qed.

Lemma reportError_spec (msg : string) (i : nat) :
  reportError tokens msg i
  = match nth_error tokens i with
    | None => Throws TypeError
    | Some tok => Returns (ParseError msg (loc tok)) i
    end.
Proof.
  unfold reportError, bind, currentToken.
  destruct (nth_error tokens i); reflexivity.
Qed.

Lemma requireValue_None {T} (msg : string) (i : nat) :
  exists e, @requireValue tokens T None msg i = Throws e.
Proof.
  unfold requireValue, bind. rewrite reportError_spec.
  destruct (nth_error tokens i); eexists; reflexivity.
Qed.

Lemma nth_error_lt (i : nat) (tok : Token) :
  nth_error tokens i = Some tok -> i < List.length tokens.
Proof. intros Hnth. apply nth_error_Some. congruence. Qed.

Lemma advance_on_token (i : nat) (tok : Token) :
  nth_error tokens i = Some tok ->
  Kind.eqb (kind tok) Kind.EOF = false ->
  advance tokens i = Returns (Some tok) (i + 1).
Proof.
  intros Hnth Heof. unfold advance, bind.
  rewrite (isAtEnd_on_token tokens i tok Hnth), Heof.
  unfold previousToken. rewrite Nat.add_1_r, Hnth. reflexivity.
Qed.

Lemma Adv_Mono {A} (h : bool) (i : nat) (r : Outcome A) :
  Adv tokens h i r -> Mono tokens h i r.
Proof. destruct r; cbn; [lia|trivial|trivial]. Qed.

Lemma Mono_bind {A B} (h : bool) (i : nat) (m : M A) (k : A -> M B) :
  Mono tokens h i (m i) ->
  (forall a j, m i = Returns a j -> i <= j -> j <= List.length tokens ->
     Mono tokens h j (k a j)) ->
  Mono tokens h i (bind m k i).
Proof.
  intros Hm Hk. unfold bind. destruct (m i) as [a j| |] eqn:Hmi; cbn in *;
    [|trivial|assumption].
  specialize (Hk a j eq_refl ltac:(lia) ltac:(lia)).
  destruct (k a j); cbn in *; [lia|trivial|trivial].
Qed.

Lemma Adv_bind_l {A B} (h : bool) (i : nat) (m : M A) (k : A -> M B) :
  Adv tokens h i (m i) ->
  (forall a j, m i = Returns a j -> i < j -> j <= List.length tokens ->
     Mono tokens h j (k a j)) ->
  Adv tokens h i (bind m k i).
Proof.
  intros Hm Hk. unfold bind. destruct (m i) as [a j| |] eqn:Hmi; cbn in *;
    [|trivial|assumption].
  specialize (Hk a j eq_refl ltac:(lia) ltac:(lia)).
  destruct (k a j); cbn in *; [lia|trivial|trivial].
Qed.

Lemma Adv_bind_r {A B} (h : bool) (i : nat) (m : M A) (k : A -> M B) :
  Mono tokens h i (m i) ->
  (forall a j, m i = Returns a j -> i <= j -> j <= List.length tokens ->
     Adv tokens h j (k a j)) ->
  Adv tokens h i (bind m k i).
Proof.
  intros Hm Hk. unfold bind. destruct (m i) as [a j| |] eqn:Hmi; cbn in *;
    [|trivial|assumption].
  specialize (Hk a j eq_refl ltac:(lia) ltac:(lia)).
  destruct (k a j); cbn in *; [lia|trivial|trivial].
Qed.

Lemma Mono_from {A} (h : bool) (i i' : nat) (r : Outcome A) :
  i <= i' -> Mono tokens h i' r -> Mono tokens h i r.
Proof. intros Hii'. destruct r; cbn; [lia|trivial|trivial]. Qed.

Lemma Adv_from {A} (h : bool) (i i' : nat) (r : Outcome A) :
  i < i' -> Mono tokens h i' r -> Adv tokens h i r.
Proof. intros Hii'. destruct r; cbn; [lia|trivial|trivial]. Qed.

Lemma Mono_ret {A} (h : bool) (i : nat) (a : A) :
  i <= List.length tokens -> Mono tokens h i (ret a i).
Proof. cbn. lia. Qed.

Lemma Mono_check {B} (h : bool) (i : nat) (type : Kind.t)
  (k : bool -> M B) :
  (forall b, Mono tokens h i (k b i)) ->
  Mono tokens h i (bind (check tokens [type]) k i).
Proof.
  intros Hk. unfold bind at 1. rewrite check_spec.
  destruct (nth_error tokens i); [apply Hk|exact I].
Qed.

(** A required token: [consume] and then [requireValue]. *)
Lemma Adv_required {B} (h : bool) (i : nat) (type : Kind.t) (msg : string)
  (k : Token -> M B) :
  Kind.eqb type Kind.EOF = false ->
  (forall tok, i + 1 <= List.length tokens ->
     Mono tokens h (i + 1) (k tok (i + 1))) ->
  Adv tokens h i
    (bind (consume tokens [type])
       (fun v => bind (requireValue tokens v msg) k) i).
Proof.
  intros Hty Hk. unfold bind at 1. rewrite (consume_spec type i Hty).
  destruct (nth_error tokens i) as [tok|] eqn:Hnth; [|exact I].
  pose proof (nth_error_lt i tok Hnth) as Hlt.
  destruct (Kind.eqb type (kind tok)).
  - unfold bind, requireValue, ret.
    specialize (Hk tok ltac:(lia)).
    destruct (k tok (i + 1)); cbn in *; [lia|trivial|trivial].
  - unfold bind. destruct (requireValue_None (T:=Token) msg i) as [e He].
    rewrite He. exact I.
Qed.

(** An optional token: [consume] alone. *)
Lemma Mono_optional {B} (h : bool) (i : nat) (type : Kind.t)
  (k : option Token -> M B) :
  Kind.eqb type Kind.EOF = false ->
  (forall v j, i <= j <= i + 1 -> j <= List.length tokens ->
     Mono tokens h j (k v j)) ->
  Mono tokens h i (bind (consume tokens [type]) k i).
Proof.
  intros Hty Hk. unfold bind at 1. rewrite (consume_spec type i Hty).
  destruct (nth_error tokens i) as [tok|] eqn:Hnth; [|exact I].
  pose proof (nth_error_lt i tok Hnth) as Hlt.
  destruct (Kind.eqb type (kind tok)).
  - specialize (Hk (Some tok) (i + 1) ltac:(lia) ltac:(lia)).
    destruct (k (Some tok) (i + 1)); cbn in *; [lia|trivial|trivial].
  - specialize (Hk None i ltac:(lia) ltac:(lia)).
    destruct (k None i); cbn in *; [lia|trivial|trivial].
Qed.

Lemma runawayCheck_spec (onDefinition onEOF : string) (i : nat) :
  runawayCheck tokens onDefinition onEOF i
  = match nth_error tokens i with
    | None => Throws TypeError
    | Some tok =>
        if isStartOfDefinition tok then
          Throws (ParseError onDefinition (loc tok))
        else if Kind.eqb Kind.EOF (kind tok) then
          Throws (ParseError onEOF (loc tok))
        else Returns tt i
    end.
Proof.
  unfold runawayCheck, bind at 1. unfold currentToken at 1.
  destruct (nth_error tokens i) as [tok|] eqn:Hnth; [|reflexivity].
  unfold bind at 1, deref, ret at 1.
  destruct (isStartOfDefinition tok).
  - unfold bind. rewrite reportError_spec, Hnth. reflexivity.
  - unfold bind at 1. rewrite check_spec, Hnth.
    destruct (Kind.eqb Kind.EOF (kind tok)); [|reflexivity].
    unfold bind. rewrite reportError_spec, Hnth. reflexivity.
Qed.

Lemma Mono_runawayCheck {B} (h : bool) (i : nat) (a b : string) (k : unit -> M B) :
  (forall u, Mono tokens h i (k u i)) ->
  Mono tokens h i (bind (runawayCheck tokens a b) k i).
Proof.
  intros Hk. unfold bind at 1. rewrite runawayCheck_spec.
  destruct (nth_error tokens i) as [tok|]; [|exact I].
  destruct (isStartOfDefinition tok); [exact I|].
  destruct (Kind.eqb Kind.EOF (kind tok)); [exact I|apply Hk].
Qed.

Lemma Mono_readListSeparator (h : bool) (i : nat) :
  Mono tokens h i (readListSeparator tokens i).
Proof.
  unfold readListSeparator, bind. rewrite check_spec.
  destruct (nth_error tokens i) as [tok|] eqn:Hnth; [|exact I].
  pose proof (nth_error_lt i tok Hnth).
  destruct (Kind.eqb Kind.CommaToken (kind tok)) eqn:Hk; [|cbn; lia].
  apply Kind_eqb_true in Hk.
  rewrite (advance_on_token i tok Hnth) by (rewrite <- Hk; reflexivity).
  cbn. lia.
Qed.

(** The argument loop, whether it halts or not. *)
Lemma parseAnnotationArgs_loop_mono (fuel : nat) :
  forall i args, i <= List.length tokens ->
    Mono tokens false i (parseAnnotationArgs_loop tokens fuel args i).
Proof.
  induction fuel as [|fuel IH]; intros i args Hi; [reflexivity|].
  cbn [parseAnnotationArgs_loop].
  apply Mono_check. intros [|]; [apply Mono_ret; exact Hi|].
  apply Mono_bind; [apply Mono_readListSeparator|].
  intros _ j _ Hij Hj.
  apply Mono_optional; [reflexivity|]. intros v j' Hjj' Hj'.
  apply Mono_runawayCheck. intros _. apply IH. exact Hj'.
Qed.

Lemma parseAnnotationArgs_mono (h : bool) (fuel i : nat) :
  (h = true -> noLeftParen tokens = true) ->
  i <= List.length tokens ->
  Mono tokens h i (parseAnnotationArgs tokens fuel i).
Proof.
  intros Hh Hi. unfold parseAnnotationArgs, bind at 1.
  rewrite (consume_spec Kind.LeftParenToken i eq_refl).
  destruct (nth_error tokens i) as [tok|] eqn:Hnth; [|exact I].
  pose proof (nth_error_lt i tok Hnth) as Hlt.
  destruct (Kind.eqb Kind.LeftParenToken (kind tok)) eqn:Hk;
    [|apply Mono_ret; exact Hi].
  destruct h.
  - exfalso. specialize (Hh eq_refl). unfold noLeftParen in Hh.
    rewrite forallb_forall in Hh.
    specialize (Hh tok (nth_error_In _ _ Hnth)).
    apply Kind_eqb_true in Hk. rewrite <- Hk in Hh. discriminate Hh.
  - apply (Mono_from false i (i + 1)); [lia|].
    apply Mono_bind; [apply parseAnnotationArgs_loop_mono; lia|].
    intros args j _ Hij Hj.
    apply Mono_optional; [reflexivity|]. intros v j' Hjj' Hj'.
    apply Mono_ret. exact Hj'.
Qed.

Section Productions.

Variable h : bool.

Lemma parseTypeArgs_loop_mono (rec : M TypeNode) (i0 : nat) :
  (forall c, i0 <= c -> c <= List.length tokens -> Adv tokens h c (rec c)) ->
  forall fuel i typeArgs,
    i0 <= i -> i <= List.length tokens ->
    fuelAbove h (List.length tokens - i) fuel ->
    Mono tokens h i (parseTypeArgs_loop tokens rec fuel typeArgs i).
Proof.
  intros Hrec fuel. induction fuel as [|fuel IH]; intros i typeArgs Hi0 Hi Hf.
  - cbn. destruct h; [specialize (Hf eq_refl); lia|reflexivity].
  - cbn [parseTypeArgs_loop].
    apply Mono_check. intros [|]; [apply Mono_ret; exact Hi|].
    apply Mono_bind; [apply Adv_Mono, Hrec; assumption|].
    intros t j Hrun _ Hj.
    pose proof (Hrec i Hi0 Hi) as Hadv. rewrite Hrun in Hadv. cbn in Hadv.
    apply Mono_check. intros c'.
    apply Mono_bind.
    + destruct c'; [|apply Mono_ret; exact Hj].
      apply Adv_Mono. apply Adv_required; [reflexivity|].
      intros tok Hj1. apply Mono_ret. exact Hj1.
    + intros _ j' _ Hjj' Hj'.
      apply IH; [lia|exact Hj'|]. intros Hh. specialize (Hf Hh). lia.
Qed.

Lemma parseTypeReferenceNode_adv (rec : M TypeNode) (fuel i : nat) :
  (forall c, i + 2 <= c -> c <= List.length tokens ->
     Adv tokens h c (rec c)) ->
  (h = true -> i + 2 <= List.length tokens ->
   List.length tokens - (i + 2) < fuel) ->
  i <= List.length tokens ->
  Adv tokens h i (parseTypeReferenceNode tokens rec fuel i).
Proof.
  intros Hrec Hf Hi. unfold parseTypeReferenceNode.
  apply Adv_required; [reflexivity|]. intros nameToken Hi1.
  unfold bind at 1. rewrite (consume_spec Kind.LessThanToken (i + 1) eq_refl).
  destruct (nth_error tokens (i + 1)) as [tok|] eqn:Hnth; [|exact I].
  pose proof (nth_error_lt (i + 1) tok Hnth) as Hlt.
  destruct (Kind.eqb Kind.LessThanToken (kind tok)).
  - apply (Mono_from h (i + 1) (i + 1 + 1)); [lia|].
    apply Mono_bind.
    + apply Mono_bind.
      * apply (parseTypeArgs_loop_mono rec (i + 2)); try lia; [exact Hrec|].
        intros Hh. specialize (Hf Hh ltac:(lia)).
        replace (i + 1 + 1) with (i + 2) by lia. exact Hf.
      * intros typeArgs j _ _ Hj.
        apply Adv_Mono. apply Adv_required; [reflexivity|].
        intros closeBracket Hj1. apply Mono_ret. exact Hj1.
    + intros [typeArgs endToken] j _ _ Hj. apply Mono_ret. exact Hj.
  - cbn. lia.
Qed.

Lemma parseTypeNode_adv (fuel : nat) :
  forall i,
    i <= List.length tokens ->
    fuelAbove h (List.length tokens - i) fuel ->
    Adv tokens h i (parseTypeNode tokens fuel i).
Proof.
  induction fuel as [|fuel IH]; intros i Hi Hf.
  - cbn. destruct h; [specialize (Hf eq_refl); lia|reflexivity].
  - cbn [parseTypeNode]. unfold bind at 1, currentToken at 1.
    destruct (nth_error tokens i) as [tok|] eqn:Hnth; [|exact I].
    pose proof (nth_error_lt i tok Hnth) as Hlt.
    unfold bind at 1, deref, ret at 1.
    destruct (kind tok) eqn:Hk;
      try (unfold bind at 1; rewrite reportError_spec, Hnth; exact I);
      try (unfold bind at 1;
           rewrite (advance_on_token i tok Hnth) by (rewrite Hk; reflexivity);
           cbn; lia).
    apply parseTypeReferenceNode_adv; [| |exact Hi].
    + intros c Hc Hcl. apply IH; [exact Hcl|].
      intros Hh. specialize (Hf Hh). lia.
    + intros Hh Hl. specialize (Hf Hh). lia.
Qed.

Lemma parseTypeNodes_loop_mono (fuel : nat) :
  forall i typeNodes,
    i <= List.length tokens ->
    fuelAbove h (List.length tokens - i + 1) fuel ->
    Mono tokens h i (parseTypeNodes_loop tokens fuel typeNodes i).
Proof.
  induction fuel as [|fuel IH]; intros i typeNodes Hi Hf.
  - cbn. destruct h; [specialize (Hf eq_refl); lia|reflexivity].
  - cbn [parseTypeNodes_loop].
    apply Mono_check. intros [|]; [apply Mono_ret; exact Hi|].
    assert (Hadv : Adv tokens h i (parseTypeNode tokens fuel i)).
    { apply parseTypeNode_adv; [exact Hi|].
      intros Hh. specialize (Hf Hh). lia. }
    apply Mono_bind; [apply Adv_Mono; exact Hadv|].
    intros t j Hrun _ Hj. rewrite Hrun in Hadv. cbn in Hadv.
    apply Mono_optional; [reflexivity|]. intros v j' Hjj' Hj'.
    apply Mono_runawayCheck. intros _.
    apply IH; [exact Hj'|]. intros Hh. specialize (Hf Hh). lia.
Qed.

Lemma parseTypeDefinition_adv (fuel i : nat) :
  i <= List.length tokens ->
  fuelAbove h (List.length tokens - i + 1) fuel ->
  Adv tokens h i (parseTypeDefinition tokens fuel i).
Proof.
  intros Hi Hf. unfold parseTypeDefinition.
  apply Adv_required; [reflexivity|]. intros keywordToken Hi1.
  apply Adv_Mono. apply Adv_required; [reflexivity|]. intros nameToken Hi2.
  apply Adv_Mono. apply Adv_required; [reflexivity|]. intros equalToken Hi3.
  apply Mono_bind.
  { apply parseTypeNodes_loop_mono; [exact Hi3|].
    intros Hh. specialize (Hf Hh). lia. }
  intros body j _ _ Hj.
  apply Adv_Mono. apply Adv_required; [reflexivity|]. intros semicolon Hj1.
  apply Mono_ret. exact Hj1.
Qed.

Hypothesis no_paren : h = true -> noLeftParen tokens = true.

Lemma parseAnnotation_adv (fuel i : nat) :
  i <= List.length tokens ->
  Adv tokens h i (parseAnnotation tokens fuel i).
Proof.
  intros Hi. unfold parseAnnotation.
  apply Adv_required; [reflexivity|]. intros atToken Hi1.
  apply Adv_Mono. apply Adv_required; [reflexivity|]. intros nameToken Hi2.
  apply Mono_bind; [apply parseAnnotationArgs_mono; assumption|].
  intros args j _ _ Hj. apply Mono_ret. exact Hj.
Qed.

Lemma parseAnnotations_loop_mono (fuel : nat) :
  forall i annotations,
    i <= List.length tokens ->
    fuelAbove h (List.length tokens - i) fuel ->
    Mono tokens h i (parseAnnotations_loop tokens fuel annotations i).
Proof.
  induction fuel as [|fuel IH]; intros i annotations Hi Hf.
  - cbn. destruct h; [specialize (Hf eq_refl); lia|reflexivity].
  - cbn [parseAnnotations_loop].
    apply Mono_check. intros [|]; [|apply Mono_ret; exact Hi].
    apply Mono_bind; [apply Adv_Mono, parseAnnotation_adv; exact Hi|].
    intros a j Hrun Hij Hj.
    pose proof (parseAnnotation_adv fuel i Hi) as Hadv.
    rewrite Hrun in Hadv. cbn in Hadv.
    apply IH; [exact Hj|]. intros Hh. specialize (Hf Hh). lia.
Qed.

Lemma parseField_adv (fuel i : nat) :
  i <= List.length tokens ->
  fuelAbove h (List.length tokens - i) fuel ->
  Adv tokens h i (parseField tokens fuel i).
Proof.
  intros Hi Hf. unfold parseField.
  unfold bind at 1, currentToken at 1.
  destruct (nth_error tokens i) as [tok|] eqn:Hnth; [|exact I].
  unfold bind at 1, deref, ret at 1.
  apply Adv_bind_r.
  { apply parseAnnotations_loop_mono; assumption. }
  intros annotations j _ Hij Hj.
  apply Adv_required; [reflexivity|]. intros nameToken Hj1.
  apply Adv_Mono. apply Adv_required; [reflexivity|]. intros colonToken Hj2.
  apply Mono_bind.
  { apply Adv_Mono. apply parseTypeNode_adv; [exact Hj2|].
    intros Hh. specialize (Hf Hh). lia. }
  intros type j' _ _ Hj'.
  apply Adv_Mono. apply Adv_required; [reflexivity|]. intros semicolon Hj'1.
  apply Mono_ret. exact Hj'1.
Qed.

Lemma parseFields_loop_mono (fuel : nat) :
  forall i fields,
    i <= List.length tokens ->
    fuelAbove h (List.length tokens - i + 1) fuel ->
    Mono tokens h i (parseFields_loop tokens fuel fields i).
Proof.
  induction fuel as [|fuel IH]; intros i fields Hi Hf.
  - cbn. destruct h; [specialize (Hf eq_refl); lia|reflexivity].
  - cbn [parseFields_loop].
    apply Mono_check. intros [|]; [apply Mono_ret; exact Hi|].
    assert (Hadv : Adv tokens h i (parseField tokens fuel i)).
    { apply parseField_adv; [exact Hi|].
      intros Hh. specialize (Hf Hh). lia. }
    apply Mono_bind; [apply Adv_Mono; exact Hadv|].
    intros f j Hrun _ Hj. rewrite Hrun in Hadv. cbn in Hadv.
    apply Mono_runawayCheck. intros _.
    apply IH; [exact Hj|]. intros Hh. specialize (Hf Hh). lia.
Qed.

Lemma parseTableDefinition_adv (fuel i : nat) :
  i <= List.length tokens ->
  fuelAbove h (List.length tokens - i + 1) fuel ->
  Adv tokens h i (parseTableDefinition tokens fuel i).
Proof.
  intros Hi Hf. unfold parseTableDefinition.
  apply Adv_required; [reflexivity|]. intros keywordToken Hi1.
  apply Adv_Mono. apply Adv_required; [reflexivity|]. intros nameToken Hi2.
  apply Mono_bind.
  { apply parseAnnotations_loop_mono; [exact Hi2|].
    intros Hh. specialize (Hf Hh). lia. }
  intros annotations j _ Hij Hj.
  apply Adv_Mono. apply Adv_required; [reflexivity|]. intros openBrace Hj1.
  apply Mono_bind.
  { apply parseFields_loop_mono; [exact Hj1|].
    intros Hh. specialize (Hf Hh). lia. }
  intros fields j' _ _ Hj'.
  apply Adv_Mono. apply Adv_required; [reflexivity|]. intros closeBrace Hj'1.
  apply Mono_ret. exact Hj'1.
Qed.

Lemma Mono_reportThrow {B} (i : nat) (msg : string) :
  Mono tokens h i
    (bind (reportError tokens msg) (fun e => @throw B e) i).
Proof.
  unfold bind. rewrite reportError_spec.
  destruct (nth_error tokens i); exact I.
Qed.

Lemma parseTableDefinitions_loop_mono (fuel : nat) :
  forall i tables,
    i <= List.length tokens ->
    fuelAbove h (List.length tokens - i + 2) fuel ->
    Mono tokens h i (parseTableDefinitions_loop tokens fuel tables i).
Proof.
  induction fuel as [|fuel IH]; intros i tables Hi Hf.
  - cbn. destruct h; [specialize (Hf eq_refl); lia|reflexivity].
  - cbn [parseTableDefinitions_loop].
    apply Mono_check. intros [|]; [apply Mono_ret; exact Hi|].
    assert (Hadv : Adv tokens h i (parseTableDefinition tokens fuel i)).
    { apply parseTableDefinition_adv; [exact Hi|].
      intros Hh. specialize (Hf Hh). lia. }
    apply Mono_bind; [apply Adv_Mono; exact Hadv|].
    intros t j Hrun _ Hj. rewrite Hrun in Hadv. cbn in Hadv.
    apply Mono_check. intros c1.
    apply Mono_bind.
    + destruct c1; [apply Mono_reportThrow|].
      apply Mono_check. intros [|]; [apply Mono_reportThrow|].
      apply Mono_ret. exact Hj.
    + intros _ j' _ Hjj' Hj'.
      apply IH; [exact Hj'|]. intros Hh. specialize (Hf Hh). lia.
Qed.

Lemma parseDatabaseDefinition_adv (fuel i : nat) :
  i <= List.length tokens ->
  fuelAbove h (List.length tokens - i + 2) fuel ->
  Adv tokens h i (parseDatabaseDefinition tokens fuel i).
Proof.
  intros Hi Hf. unfold parseDatabaseDefinition.
  apply Adv_required; [reflexivity|]. intros keywordToken Hi1.
  apply Adv_Mono. apply Adv_required; [reflexivity|]. intros nameToken Hi2.
  apply Adv_Mono. apply Adv_required; [reflexivity|]. intros openBrace Hi3.
  apply Mono_bind.
  { apply parseTableDefinitions_loop_mono; [exact Hi3|].
    intros Hh. specialize (Hf Hh). lia. }
  intros tables j _ _ Hj.
  apply Adv_Mono. apply Adv_required; [reflexivity|]. intros closeBrace Hj1.
  apply Mono_ret. exact Hj1.
Qed.

Lemma parseDefinition_adv (fuel i : nat) :
  i <= List.length tokens ->
  fuelAbove h (List.length tokens - i + 2) fuel ->
  Adv tokens h i (parseDefinition tokens fuel i).
Proof.
  intros Hi Hf. unfold parseDefinition.
  unfold bind at 1, currentToken at 1.
  destruct (nth_error tokens i) as [tok|] eqn:Hnth; [|exact I].
  unfold bind at 1, deref, ret at 1.
  destruct (kind tok);
    try (unfold bind at 1; rewrite reportError_spec, Hnth; exact I).
  - apply Adv_bind_l; [apply parseDatabaseDefinition_adv; assumption|].
    intros d j _ _ Hj. apply Mono_ret. exact Hj.
  - apply Adv_bind_l.
    + apply parseTypeDefinition_adv; [exact Hi|].
      intros Hh. specialize (Hf Hh). lia.
    + intros d j _ _ Hj. apply Mono_ret. exact Hj.
Qed.

End Productions.

End CursorFacts.

Section ParseFacts.
Import Parser Cursor.

Variable tokens : list Token.

Lemma isAtEnd_spec (i : nat) :
  isAtEnd tokens i
  = Returns
      (match nth_error tokens i with
       | Some tok => Kind.eqb (kind tok) Kind.EOF
       | None => true
       end) i.
Proof.
  destruct (nth_error tokens i) as [tok|] eqn:Hnth.
  - apply isAtEnd_on_token. exact Hnth.
  - unfold isAtEnd. apply nth_error_None in Hnth.
    apply Nat.leb_le in Hnth. rewrite Hnth. reflexivity.
Qed.

Lemma parse_loop_mono (h : bool) :
  (h = true -> noLeftParen tokens = true) ->
  forall fuel i body,
    i <= List.length tokens ->
    fuelAbove h (List.length tokens - i + 3) fuel ->
    Mono tokens h i (parse_loop tokens fuel body i).
Proof.
  intros Hh fuel. induction fuel as [|fuel IH]; intros i body Hi Hf.
  - cbn. destruct h; [specialize (Hf eq_refl); lia|reflexivity].
  - cbn [parse_loop]. unfold bind at 1. rewrite isAtEnd_spec.
    match goal with |- context [if ?b then _ else _] => destruct b end;
      [apply Mono_ret; exact Hi|].
    assert (Hadv : Adv tokens h i (parseDefinition tokens fuel i)).
    { apply parseDefinition_adv; [exact Hh|exact Hi|].
      intros Hh'. specialize (Hf Hh'). lia. }
    apply Mono_bind; [apply Adv_Mono; exact Hadv|].
    intros d j Hrun _ Hj. rewrite Hrun in Hadv. cbn in Hadv.
    apply IH; [exact Hj|]. intros Hh'. specialize (Hf Hh'). lia.
Qed.

Lemma parse_loop_returns_at_end (fuel : nat) :
  forall i body result j,
    i <= List.length tokens ->
    parse_loop tokens fuel body i = Returns result j ->
    j <= List.length tokens /\ atEnd tokens j.
Proof.
  induction fuel as [|fuel IH]; intros i body result j Hi Hrun;
    [discriminate Hrun|].
  cbn [parse_loop] in Hrun. unfold bind at 1 in Hrun.
  rewrite isAtEnd_spec in Hrun.
  destruct (nth_error tokens i) as [tok|] eqn:Hnth.
  - destruct (Kind.eqb (kind tok) Kind.EOF) eqn:Heof.
    + inversion Hrun; subst. split; [exact Hi|].
      right. exists tok. split; [exact Hnth|].
      apply Kind_eqb_true. exact Heof.
    + unfold bind at 1 in Hrun.
      pose proof (parseDefinition_adv tokens false
                    ltac:(discriminate) fuel i Hi ltac:(discriminate))
        as Hadv.
      destruct (parseDefinition tokens fuel i) as [d j1| |];
        try discriminate Hrun.
      cbn in Hadv. eapply IH; [|exact Hrun]. lia.
  - inversion Hrun; subst. split; [exact Hi|].
    left. apply nth_error_None. exact Hnth.
Qed.

End ParseFacts.

(** X1.  [parse()] returns a schema only with the cursor where [isAtEnd()]
    holds, on the [EOF] token or right after the last token, and never past
    the end of the array: it does not return with tokens left unread. *)
Theorem parse_returns_at_end
  (tokens : list Token) (fuel : nat) (schema : DatabaseSchema) (j : nat) :
  Parser.parse tokens fuel = Parser.Returns schema j ->
  j <= List.length tokens /\ Cursor.atEnd tokens j.
Proof.
  unfold Parser.parse, Parser.bind. intros Hrun.
  destruct (Parser.parse_loop tokens fuel [] 0) as [body j'| |] eqn:Hloop;
    try discriminate Hrun.
  inversion Hrun; subst.
  apply (parse_loop_returns_at_end tokens fuel 0 [] body j);
    [lia|exact Hloop].
Qed.

(** The first schema of the README: the parse ends on the [EOF] token. *)
Lemma parse_returns_at_end_witness :
  35 <= List.length Example.blog_tokens
  /\ Cursor.atEnd Example.blog_tokens 35.
Proof.
  destruct (readme_schema_parses 0) as [d [Hrun _]].
  exact (parse_returns_at_end Example.blog_tokens 10 _ 35 Hrun).
Defined.

(** X2.  A top-level definition that parses has consumed at least one token
    and leaves the cursor inside the token array. *)
Theorem definition_moves_cursor_forward
  (tokens : list Token) (fuel i : nat) (d : option Definition_) (j : nat) :
  i <= List.length tokens ->
  Parser.parseDefinition tokens fuel i = Parser.Returns d j ->
  i < j /\ j <= List.length tokens.
Proof.
  intros Hi Hrun.
  pose proof (parseDefinition_adv tokens false ltac:(discriminate) fuel i Hi
                ltac:(discriminate)) as Hadv.
  rewrite Hrun in Hadv. exact Hadv.
Qed.

(** [type Status = "open" | "closed";] takes the cursor from 0 to 7. *)
Lemma definition_moves_cursor_forward_witness :
  0 < 7 /\ 7 <= List.length ParserExample.status_tokens.
Proof.
  exact (definition_moves_cursor_forward ParserExample.status_tokens 5 0
           (Some (TypeDef
                    (createTypeDefinition
                       (createIdentifier "Status" (createTextLocation 5 11))
                       [StringLiteralType
                          (createStringLiteral "open" (createTextLocation 14 18));
                        StringLiteralType
                          (createStringLiteral "closed"
                             (createTextLocation 23 29))]
                       (createTextLocation 0 32))))
           7 ltac:(cbn; lia) eq_refl).
Defined.

(** X3.  On a token array without [(], that is when no annotation is given
    an argument list, [parse()] ends, in a schema or in an error, within
    [length tokens + 4] units of fuel: the argument loop of C1 is the only
    place where the parser can loop forever. *)
Theorem parse_halts_without_argument_lists
  (tokens : list Token) (fuel : nat) :
  Cursor.noLeftParen tokens = true ->
  List.length tokens + 3 < fuel ->
  Parser.parse tokens fuel <> Parser.OutOfFuel.
Proof.
  intros Hparen Hfuel. unfold Parser.parse, Parser.bind.
  pose proof (parse_loop_mono tokens true (fun _ => Hparen) fuel 0 []
                ltac:(lia) ltac:(intros _; lia)) as Hm.
  destruct (Parser.parse_loop tokens fuel [] 0); cbn in *;
    [discriminate|discriminate|discriminate Hm].
Qed.

(** [table Posts { }] at the top level has no [(]: the parse ends. *)
Lemma parse_halts_without_argument_lists_witness :
  Parser.parse ParserExample.stray_table_tokens 9 <> Parser.OutOfFuel.
Proof.
  exact (parse_halts_without_argument_lists ParserExample.stray_table_tokens 9
           eq_refl ltac:(cbn; lia)).
Defined.

(** X4.  Parsing a type never loops: from any cursor inside the array,
    [parseTypeNode] ends within [length tokens - i + 1] units of fuel and
    [parseTypeDefinition] within one more, whatever the tokens are. *)
Theorem type_parsing_halts (tokens : list Token) (fuel i : nat) :
  i <= List.length tokens ->
  List.length tokens - i + 1 < fuel ->
  Parser.parseTypeNode tokens fuel i <> Parser.OutOfFuel
  /\ Parser.parseTypeDefinition tokens fuel i <> Parser.OutOfFuel.
Proof.
  intros Hi Hfuel. split.
  - pose proof (parseTypeNode_adv tokens true fuel i Hi
                  ltac:(intros _; lia)) as Hadv.
    destruct (Parser.parseTypeNode tokens fuel i); cbn in *;
      [discriminate|discriminate|discriminate Hadv].
  - pose proof (parseTypeDefinition_adv tokens true fuel i Hi
                  ltac:(intros _; lia)) as Hadv.
    destruct (Parser.parseTypeDefinition tokens fuel i); cbn in *;
      [discriminate|discriminate|discriminate Hadv].
Qed.

Lemma type_parsing_halts_witness :
  Parser.parseTypeNode ParserExample.status_tokens 10 0 <> Parser.OutOfFuel
  /\ Parser.parseTypeDefinition ParserExample.status_tokens 10 0
     <> Parser.OutOfFuel.
Proof.
  exact (type_parsing_halts ParserExample.status_tokens 10 0
           ltac:(cbn; lia) ltac:(cbn; lia)).
Defined.

(** X5.  At the top level only [database] and [type] start a definition:
    when the first token is of any other kind but [EOF], a [table] keyword
    included, [parse()] throws "Invalid start to Database definition"
    followed by the text of the token, at the location of the token. *)
Theorem invalid_start_of_definition
  (first : Token) (rest : list Token) (fuel : nat) :
  kind first <> Kind.DatabaseKeyword ->
  kind first <> Kind.TypeKeyword ->
  kind first <> Kind.EOF ->
  Parser.parse (first :: rest) (S fuel)
  = Parser.Throws
      (Parser.ParseError
         ("Invalid start to Database definition " ++ text first)
         (loc first)).
Proof.
  intros Hdb Hty Heof. destruct first as [k t l]. cbn in Hdb, Hty, Heof.
  destruct k; try contradiction; reflexivity.
Qed.

Lemma invalid_start_of_definition_witness :
  Parser.parse ParserExample.stray_table_tokens 1
  = Parser.Throws
      (Parser.ParseError "Invalid start to Database definition table"
         (createTextLocation 0 5)).
Proof.
  exact (invalid_start_of_definition
           (Example.tk Kind.TableKeyword "table" 0) _ 0
           ltac:(discriminate) ltac:(discriminate) ltac:(discriminate)).
Defined.

Section RecoveryFacts.
Import Parser Cursor Recovery.

Variable tokens : list Token.

Lemma synchronize_stops (fuel : nat) :
  forall i,
    List.length tokens - i < fuel ->
    exists j,
      synchronize tokens fuel i = Returns tt j
      /\ i <= j
      /\ stopsAt tokens j
      /\ forall k, i <= k -> k < j -> ~ stopsAt tokens k.
Proof.
  induction fuel as [|fuel IH]; intros i Hf; [lia|].
  cbn [synchronize]. unfold bind at 1. rewrite isAtEnd_spec.
  destruct (nth_error tokens i) as [tok|] eqn:Hnth.
  - pose proof (nth_error_lt tokens i tok Hnth) as Hlt.
    destruct (Kind.eqb (kind tok) Kind.EOF) eqn:Heof.
    + exists i. split; [reflexivity|]. split; [lia|]. split; [|intros; lia].
      left. right. exists tok. split; [exact Hnth|].
      apply Kind_eqb_true. exact Heof.
    + unfold bind at 1, currentToken at 1. rewrite Hnth.
      unfold bind at 1, deref, ret at 1.
      destruct (isStartOfDefinition tok) eqn:Hstart.
      * exists i. split; [reflexivity|]. split; [lia|].
        split; [|intros; lia].
        right. exists tok. split; assumption.
      * unfold bind at 1. rewrite (advance_on_token tokens i tok Hnth Heof).
        destruct (IH (i + 1) ltac:(lia)) as [j [Hrun [Hij [Hstop Hfirst]]]].
        exists j. split; [exact Hrun|]. split; [lia|]. split; [exact Hstop|].
        intros k Hik Hkj. destruct (Nat.eq_dec k i) as [->|Hne].
        -- intros [[Hlen|[tok' [Hnth' Heof']]]|[tok' [Hnth' Hstart']]].
           ++ lia.
           ++ rewrite Hnth in Hnth'. inversion Hnth'; subst tok'.
              rewrite Heof' in Heof. discriminate Heof.
           ++ rewrite Hnth in Hnth'. inversion Hnth'; subst tok'.
              rewrite Hstart' in Hstart. discriminate Hstart.
        -- apply Hfirst; lia.
  - exists i. split; [reflexivity|]. split; [lia|]. split; [|intros; lia].
    left. left. apply nth_error_None. exact Hnth.
Qed.

End RecoveryFacts.

(** X6.  [synchronize()] never throws and always ends: given
    [length tokens - i + 1] units of fuel it returns with the cursor on the
    first position at or after [i] that is the end of the input ([EOF] or
    past the last token) or holds a [database], [table] or [type] keyword;
    it skips nothing that starts a definition. *)
Theorem synchronize_stops_at_next_definition
  (tokens : list Token) (fuel i : nat) :
  List.length tokens - i < fuel ->
  exists j,
    Parser.synchronize tokens fuel i = Parser.Returns tt j
    /\ i <= j
    /\ Recovery.stopsAt tokens j
    /\ forall k, i <= k -> k < j -> ~ Recovery.stopsAt tokens k.
Proof. apply synchronize_stops. Qed.

(** [; ; database Blog { }]: from the start, the cursor stops on
    [database], the third token. *)
Lemma synchronize_stops_at_next_definition_witness :
  exists j,
    Parser.synchronize ParserExample.stray_semicolons_tokens 8 0
    = Parser.Returns tt j
    /\ 0 <= j
    /\ Recovery.stopsAt ParserExample.stray_semicolons_tokens j
    /\ forall k, 0 <= k -> k < j ->
         ~ Recovery.stopsAt ParserExample.stray_semicolons_tokens k.
Proof.
  exact (synchronize_stops_at_next_definition
           ParserExample.stray_semicolons_tokens 8 0 ltac:(cbn; lia)).
Defined.

Lemma synchronize_example :
  Parser.synchronize ParserExample.stray_semicolons_tokens 8 0
  = Parser.Returns tt 2.
Proof. reflexivity. Qed.

Section ArgumentFacts.
Import Parser Arguments.

Variable close : Token.
Variable rest : list Token.
Hypothesis close_kind : kind close = Kind.RightParenToken.

Lemma nth_error_head (before : list Token) (tok : Token) (more : list Token) :
  nth_error (before ++ tok :: more) (List.length before) = Some tok.
Proof.
  rewrite nth_error_app2 by lia. rewrite Nat.sub_diag. reflexivity.
Qed.

Lemma shift_token (before : list Token) (tok : Token) (more : list Token) :
  before ++ tok :: more = (before ++ [tok]) ++ more.
Proof. rewrite <- app_assoc. reflexivity. Qed.

Lemma length_shift (before : list Token) (tok : Token) :
  List.length (before ++ [tok]) = List.length before + 1.
Proof. rewrite length_app. reflexivity. Qed.

(** After a comma or a string literal of the list comes a comma, a string
    literal or the closing paren: the runaway test lets it pass. *)
Lemma runawayCheck_in_list (before todo : list Token) (a b : string) :
  forallb isSeparatorOrString todo = true ->
  runawayCheck (before ++ todo ++ close :: rest) a b (List.length before)
  = Returns tt (List.length before).
Proof.
  intros Hok. rewrite runawayCheck_spec.
  destruct todo as [|y todo]; cbn [app].
  - rewrite nth_error_head. unfold isStartOfDefinition.
    rewrite close_kind. reflexivity.
  - rewrite nth_error_head. cbn in Hok. apply andb_true_iff in Hok.
    destruct Hok as [Hy _]. unfold isSeparatorOrString in Hy.
    unfold isStartOfDefinition.
    destruct (kind y); try discriminate Hy; reflexivity.
Qed.

Lemma parseAnnotationArgs_loop_list (fuel : nat) :
  forall todo before args,
    forallb isSeparatorOrString todo = true ->
    List.length todo < fuel ->
    parseAnnotationArgs_loop (before ++ todo ++ close :: rest) fuel args
      (List.length before)
    = Returns (args ++ stringArguments todo)
        (List.length before + List.length todo).
Proof.
  induction fuel as [|fuel IH]; intros todo before args Hok Hfuel; [lia|].
  cbn [parseAnnotationArgs_loop]. unfold bind at 1. rewrite check_spec.
  destruct todo as [|x todo]; cbn [app].
  - rewrite nth_error_head, close_kind.
    unfold stringArguments. cbn. rewrite app_nil_r, Nat.add_0_r. reflexivity.
  - rewrite nth_error_head.
    cbn [forallb] in Hok. apply andb_true_iff in Hok.
    destruct Hok as [Hx Hok]. cbn [List.length] in Hfuel.
    unfold isSeparatorOrString in Hx.
    destruct (kind x) eqn:Hkx; try discriminate Hx.
    + (* a string literal *)
      change (Kind.eqb Kind.RightParenToken Kind.StringLiteral) with false.
      cbv iota. unfold bind at 1. unfold readListSeparator, bind at 1.
      rewrite check_spec, nth_error_head, Hkx.
      change (Kind.eqb Kind.CommaToken Kind.StringLiteral) with false.
      cbv iota. unfold ret at 1. unfold bind at 1.
      rewrite (consume_spec _ Kind.StringLiteral _ eq_refl), nth_error_head, Hkx.
      change (Kind.eqb Kind.StringLiteral Kind.StringLiteral) with true.
      cbv iota. unfold bind at 1.
      rewrite (shift_token before x), <- (length_shift before x).
      rewrite (runawayCheck_in_list _ todo _ _ Hok).
      rewrite (IH todo (before ++ [x]) _ Hok ltac:(lia)).
      unfold stringArguments. cbn [filter]. rewrite Hkx.
      change (Kind.eqb Kind.StringLiteral Kind.StringLiteral) with true.
      cbn [map]. rewrite <- app_assoc, length_shift. cbn [app List.length].
      f_equal. lia.
    + (* a comma *)
      change (Kind.eqb Kind.RightParenToken Kind.CommaToken) with false.
      cbv iota. unfold bind at 1. unfold readListSeparator, bind at 1.
      rewrite check_spec, nth_error_head, Hkx.
      change (Kind.eqb Kind.CommaToken Kind.CommaToken) with true.
      cbv iota.
      rewrite (advance_on_token _ _ x (nth_error_head _ _ _))
        by (rewrite Hkx; reflexivity).
      unfold bind at 1.
      rewrite (consume_spec _ Kind.StringLiteral _ eq_refl).
      rewrite (shift_token before x), <- (length_shift before x).
      assert (Hargs : stringArguments (x :: todo) = stringArguments todo).
      { unfold stringArguments. cbn [filter]. rewrite Hkx. reflexivity. }
      rewrite Hargs. clear Hargs.
      destruct todo as [|y todo]; cbn [app].
      * rewrite nth_error_head, close_kind.
        change (Kind.eqb Kind.StringLiteral Kind.RightParenToken) with false.
        cbv iota. unfold bind at 1.
        rewrite (runawayCheck_in_list (before ++ [x]) [] _ _ eq_refl).
        rewrite (IH [] (before ++ [x]) _ eq_refl ltac:(cbn; lia)).
        rewrite length_shift. cbn [List.length]. f_equal. lia.
      * rewrite nth_error_head.
        destruct (Kind.eqb Kind.StringLiteral (kind y)) eqn:Hky.
        -- apply Kind_eqb_true in Hky. symmetry in Hky.
           cbn [forallb] in Hok. apply andb_true_iff in Hok.
           destruct Hok as [_ Hok].
           unfold bind at 1.
           rewrite (shift_token (before ++ [x]) y),
             <- (length_shift (before ++ [x]) y).
           rewrite (runawayCheck_in_list _ todo _ _ Hok).
           rewrite (IH todo ((before ++ [x]) ++ [y]) _ Hok
                      ltac:(cbn in Hfuel; lia)).
           unfold stringArguments. cbn [filter]. rewrite Hky.
           change (Kind.eqb Kind.StringLiteral Kind.StringLiteral) with true.
           cbn [map]. rewrite <- app_assoc, !length_shift.
           cbn [app List.length]. f_equal. lia.
        -- unfold bind at 1.
           rewrite (runawayCheck_in_list (before ++ [x]) (y :: todo) _ _ Hok).
           rewrite (IH (y :: todo) (before ++ [x]) _ Hok ltac:(lia)).
           rewrite length_shift. cbn [List.length]. f_equal. lia.
Qed.

End ArgumentFacts.

(** X7.  Between the parens of an annotation any run of commas and string
    literals is an argument list: the commas are optional and may repeat,
    and the arguments are the string literals in their order.  The parse
    ends behind the closing paren. *)
Theorem annotation_arguments_need_no_commas
  (before : list Token) (open : Token) (body : list Token) (close : Token)
  (rest : list Token) (fuel : nat) :
  kind open = Kind.LeftParenToken ->
  kind close = Kind.RightParenToken ->
  forallb Arguments.isSeparatorOrString body = true ->
  List.length body < fuel ->
  Parser.parseAnnotationArgs (before ++ open :: body ++ close :: rest) fuel
    (List.length before)
  = Parser.Returns (Arguments.stringArguments body)
      (List.length before + List.length body + 2).
Proof.
  intros Hopen Hclose Hok Hfuel. unfold Parser.parseAnnotationArgs.
  unfold Parser.bind at 1.
  rewrite (consume_spec _ Kind.LeftParenToken _ eq_refl), nth_error_head, Hopen.
  change (Kind.eqb Kind.LeftParenToken Kind.LeftParenToken) with true.
  cbv iota. rewrite (shift_token before open), <- (length_shift before open).
  unfold Parser.bind at 1.
  rewrite (parseAnnotationArgs_loop_list close rest Hclose fuel body _ []
             Hok Hfuel).
  unfold Parser.bind at 1.
  rewrite (consume_spec _ Kind.RightParenToken _ eq_refl).
  rewrite <- length_app, app_assoc, nth_error_head, Hclose.
  change (Kind.eqb Kind.RightParenToken Kind.RightParenToken) with true.
  cbv iota. unfold Parser.ret. rewrite !length_app. cbn [List.length app].
  f_equal. lia.
Qed.

(** [("a" "b",, "c")]: no comma, then two commas. *)
Lemma annotation_arguments_need_no_commas_witness :
  Parser.parseAnnotationArgs
    ([Example.tk Kind.AtToken "@" 0; Example.tk Kind.Identifier "index" 1]
       ++ Example.tk Kind.LeftParenToken "(" 6
       :: [Example.tk Kind.StringLiteral "a" 7;
           Example.tk Kind.StringLiteral "b" 11;
           Example.tk Kind.CommaToken "," 14;
           Example.tk Kind.CommaToken "," 15;
           Example.tk Kind.StringLiteral "c" 17]
       ++ Example.tk Kind.RightParenToken ")" 20
       :: [Example.tk Kind.EOF "" 21])
    6 2
  = Parser.Returns
      [createStringLiteral "a" (createTextLocation 7 8);
       createStringLiteral "b" (createTextLocation 11 12);
       createStringLiteral "c" (createTextLocation 17 18)]
      9.
Proof.
  exact (annotation_arguments_need_no_commas
           [Example.tk Kind.AtToken "@" 0; Example.tk Kind.Identifier "index" 1]
           (Example.tk Kind.LeftParenToken "(" 6)
           [Example.tk Kind.StringLiteral "a" 7;
            Example.tk Kind.StringLiteral "b" 11;
            Example.tk Kind.CommaToken "," 14;
            Example.tk Kind.CommaToken "," 15;
            Example.tk Kind.StringLiteral "c" 17]
           (Example.tk Kind.RightParenToken ")" 20)
           [Example.tk Kind.EOF "" 21] 6
           eq_refl eq_refl eq_refl ltac:(cbn; lia)).
Defined.

(** X8.  Runaway detection in a field list: when a field has been parsed and
    the next token is [EOF] or starts a definition, where a field or the
    closing brace should be, [parseFields] throws its targeted error at that
    token. *)
Theorem unclosed_field_list_is_reported
  (tokens : list Token) (fuel : nat) (fields : list FieldDefinition)
  (i j : nat) (first next : Token) (f : FieldDefinition) :
  nth_error tokens i = Some first ->
  kind first <> Kind.RightBraceToken ->
  Parser.parseField tokens fuel i = Parser.Returns f j ->
  nth_error tokens j = Some next ->
  (kind next = Kind.EOF ->
   Parser.parseFields_loop tokens (S fuel) fields i
   = Parser.Throws
       (Parser.ParseError
          "Closing curly brace expected but reached end of file" (loc next)))
  /\ (Parser.isStartOfDefinition next = true ->
      Parser.parseFields_loop tokens (S fuel) fields i
      = Parser.Throws
          (Parser.ParseError
             "Closing curly brace expected, but new statement found"
             (loc next))).
Proof.
  intros Hfirst Hkind Hfield Hnext.
  assert (Hcheck : Parser.check tokens [Kind.RightBraceToken] i
                   = Parser.Returns false i).
  { rewrite check_spec, Hfirst. f_equal.
    destruct (Kind.eqb Kind.RightBraceToken (kind first)) eqn:Hk;
      [|reflexivity].
    apply Kind_eqb_true in Hk. congruence. }
  split; intros Hn; cbn [Parser.parseFields_loop]; unfold Parser.bind at 1;
    rewrite Hcheck; unfold Parser.bind at 1; rewrite Hfield;
    unfold Parser.bind at 1; rewrite runawayCheck_spec, Hnext.
  - unfold Parser.isStartOfDefinition. rewrite Hn. reflexivity.
  - rewrite Hn. reflexivity.
Qed.

(** [database D { table T { a: string;] and the file ends. *)
Lemma unclosed_field_list_is_reported_witness :
  Parser.parseFields_loop ParserExample.unclosed_table_tokens 3 [] 6
  = Parser.Throws
      (Parser.ParseError
         "Closing curly brace expected but reached end of file"
         (createTextLocation 33 33)).
Proof.
  exact (proj1
           (unclosed_field_list_is_reported
              ParserExample.unclosed_table_tokens 2 [] 6 10
              (Example.tk Kind.Identifier "a" 23) (Example.tk Kind.EOF "" 33)
              (createFieldDefinition
                 (createIdentifier "a" (createTextLocation 23 24)) []
                 (KeywordType Kind.StringKeyword (createTextLocation 26 32))
                 (createTextLocation 23 33))
              eq_refl ltac:(discriminate) eq_refl eq_refl)
           eq_refl).
Defined.

(** X9.  Runaway detection in an argument list: after a string literal
    argument, an [EOF] token or a token that starts a definition, where an
    argument or the closing paren should be, makes [parseAnnotationArgs]
    throw its targeted error at that token. *)
Theorem unclosed_argument_list_is_reported
  (tokens : list Token) (fuel : nat) (args : list StringLiteral)
  (i : nat) (arg next : Token) :
  nth_error tokens i = Some arg ->
  kind arg = Kind.StringLiteral ->
  nth_error tokens (i + 1) = Some next ->
  (kind next = Kind.EOF ->
   Parser.parseAnnotationArgs_loop tokens (S fuel) args i
   = Parser.Throws
       (Parser.ParseError
          "Closing paren ')' expected but reached end of file" (loc next)))
  /\ (Parser.isStartOfDefinition next = true ->
      Parser.parseAnnotationArgs_loop tokens (S fuel) args i
      = Parser.Throws
          (Parser.ParseError
             "Closing paren ')' expected, but new definition found"
             (loc next))).
Proof.
  intros Harg Hkind Hnext.
  split; intros Hn; cbn [Parser.parseAnnotationArgs_loop];
    unfold Parser.bind at 1; rewrite check_spec, Harg, Hkind;
    change (Kind.eqb Kind.RightParenToken Kind.StringLiteral) with false;
    cbv iota; unfold Parser.bind at 1;
    unfold Parser.readListSeparator, Parser.bind at 1;
    rewrite check_spec, Harg, Hkind;
    change (Kind.eqb Kind.CommaToken Kind.StringLiteral) with false;
    cbv iota; unfold Parser.ret at 1; unfold Parser.bind at 1;
    rewrite (consume_spec _ Kind.StringLiteral _ eq_refl), Harg, Hkind;
    change (Kind.eqb Kind.StringLiteral Kind.StringLiteral) with true;
    cbv iota; unfold Parser.bind at 1;
    rewrite runawayCheck_spec, Hnext.
  - unfold Parser.isStartOfDefinition. rewrite Hn. reflexivity.
  - rewrite Hn. reflexivity.
Qed.

(** [@item("Post"] and the file ends. *)
Lemma unclosed_argument_list_is_reported_witness :
  Parser.parseAnnotationArgs_loop RunawayExample.unclosed_arguments_tokens
    1 [] 3
  = Parser.Throws
      (Parser.ParseError
         "Closing paren ')' expected but reached end of file"
         (createTextLocation 12 12)).
Proof.
  exact (proj1
           (unclosed_argument_list_is_reported
              RunawayExample.unclosed_arguments_tokens 0 [] 3
              (Example.tk Kind.StringLiteral "Post" 6)
              (Example.tk Kind.EOF "" 12)
              eq_refl eq_refl eq_refl)
           eq_refl).
Defined.

(** * More of the renderer *)

Section ClientTypeFacts.
Import Render.
Context `{Imports}.

Lemma mapM_Ok_each {A B} (f : A -> Result B) (xs : list A) (ys : list B) :
  mapM f xs = Ok ys -> forall x, In x xs -> exists y, f x = Ok y.
Proof.
  revert ys. induction xs as [|x xs IH]; intros ys Hm x' Hin; [destruct Hin|].
  cbn in Hm. destruct (f x) as [y|msg] eqn:Hf; cbn in Hm; [|discriminate Hm].
  destruct (mapM f xs) as [ys'|msg] eqn:Hxs; cbn in Hm; [|discriminate Hm].
  destruct Hin as [<-|Hin]; [eauto|]. apply (IH ys' eq_refl). exact Hin.
Qed.

Lemma mapM_first_error {A B} (f : A -> Result B) (before : list A) (x : A)
  (after : list A) (msg : string) :
  (forall u, In u before -> exists y, f u = Ok y) ->
  f x = Err msg ->
  mapM f (before ++ x :: after) = Err msg.
Proof.
  intros Hbefore Hx. induction before as [|u before IH]; cbn.
  - rewrite Hx. reflexivity.
  - destruct (Hbefore u (or_introl eq_refl)) as [y Hy]. rewrite Hy. cbn.
    rewrite IH; [reflexivity|]. intros v Hv. apply Hbefore. right. exact Hv.
Qed.

End ClientTypeFacts.

(** X10.  The client type of a database is generated exactly when, for every
    table, the three method types are: one table whose [add], [get] or
    [getAll] type throws leaves the whole database without client type. *)
Theorem client_type_is_generated_iff_every_table_is
  `{Render.Imports} (def : DatabaseDefinition) :
  (exists decl, Render.createClientTypeDeclaration def = Render.Ok decl)
  <-> forall t, In t (db_body def) ->
        (exists a, Render.createAddMethodTypeNode t = Render.Ok a)
        /\ (exists n, Render.getItemNameForTable t = Render.Ok n)
        /\ (exists g, Render.createGetAllMethodTypeNode t = Render.Ok g).
Proof.
  split; [|apply createClientTypeDeclaration_total].
  intros [decl Hgen] t Ht. unfold Render.createClientTypeDeclaration in Hgen.
  match type of Hgen with
  | context [Render.mapM ?f ?xs] =>
      destruct (Render.mapM f xs) as [members|msg] eqn:Hm;
      [destruct (mapM_Ok_each f xs members Hm t Ht) as [y Hy]
      |discriminate Hgen]
  end.
  cbn beta in Hy. unfold Render.createGetMethodTypeNode in Hy.
  destruct (Render.createAddMethodTypeNode t) as [a|?]; cbn in Hy;
    [|discriminate Hy].
  destruct (Render.getItemNameForTable t) as [n|?]; cbn in Hy;
    [|discriminate Hy].
  destruct (Render.createGetAllMethodTypeNode t) as [g|?]; cbn in Hy;
    [|discriminate Hy].
  repeat split; eexists; reflexivity.
Qed.

(** X11.  The client type fails with the error of the first table that
    fails: when the tables before [t] are fine and the item name of [t]
    throws (after the [add] type of [t] was built), that error is the error
    of [createClientTypeDeclaration], whatever the tables after [t] are. *)
Theorem client_type_fails_with_first_item_name_error
  `{Render.Imports} (def : DatabaseDefinition)
  (before : list TableDefinition) (t : TableDefinition)
  (after : list TableDefinition) (msg : string) :
  db_body def = before ++ t :: after ->
  (forall u, In u before ->
     (exists a, Render.createAddMethodTypeNode u = Render.Ok a)
     /\ (exists n, Render.getItemNameForTable u = Render.Ok n)
     /\ (exists g, Render.createGetAllMethodTypeNode u = Render.Ok g)) ->
  (exists a, Render.createAddMethodTypeNode t = Render.Ok a) ->
  Render.getItemNameForTable t = Render.Err msg ->
  Render.createClientTypeDeclaration def = Render.Err msg.
Proof.
  intros Hbody Hbefore [a Ha] Hitem.
  unfold Render.createClientTypeDeclaration. rewrite Hbody.
  match goal with
  | |- context [Render.mapM ?f _] =>
      rewrite (mapM_first_error f before t after msg)
  end; [reflexivity| |].
  - intros u Hu. destruct (Hbefore u Hu) as [[a' Ha'] [[n Hn] [g Hg]]].
    unfold Render.createGetMethodTypeNode. rewrite Ha', Hn, Hg. cbn.
    eexists; reflexivity.
  - unfold Render.createGetMethodTypeNode. rewrite Ha, Hitem. reflexivity.
Qed.

(** The database [Blog] with a table that carries [@item] twice between
    [Authors] and [Posts]. *)
Lemma client_type_fails_with_first_item_name_error_witness :
  @Render.createClientTypeDeclaration Example.imports
    GetMethod.blog_twice_named
  = Render.Err ("Table can only include one annotation for "
                  ++ Render.dquote ++ "item" ++ Render.dquote).
Proof.
  refine (@client_type_fails_with_first_item_name_error
            Example.imports GetMethod.blog_twice_named
            [Example.authors] GetMethod.twice_named [Example.posts] _
            eq_refl _ _ eq_refl).
  - intros u [<-|[]]. repeat split; eexists; reflexivity.
  - eexists; reflexivity.
Defined.

(** X12.  Which error the renderers of [get] throw.  [createGetMethod]
    throws exactly when the item name of the table or its index resolution
    does, and the item-name error comes first; the body alone,
    [createIndexAccessHandling], throws in the same cases but reports the
    index resolution first. *)
Theorem get_method_errors
  `{Render.Imports} `{GetMethod.MethodImports}
  (def : TableDefinition) (msg : string) :
  (GetMethod.createGetMethod def = Render.Err msg
   <-> Render.getItemNameForTable def = Render.Err msg
       \/ ((exists n, Render.getItemNameForTable def = Render.Ok n)
           /\ Render.getIndexesForTable def = Render.Err msg))
  /\ (Render.createIndexAccessHandling def = Render.Err msg
      <-> Render.getIndexesForTable def = Render.Err msg
          \/ ((exists entries,
                 Render.getIndexesForTable def = Render.Ok entries)
              /\ Render.getItemNameForTable def = Render.Err msg)).
Proof.
  unfold GetMethod.createGetMethod, Render.createIndexAccessHandling.
  destruct (Render.getItemNameForTable def) as [n|m1];
    destruct (Render.getIndexesForTable def) as [entries|m2]; cbn;
    split; split; intros Hm;
    repeat match goal with
           | Hd : _ \/ _ |- _ => destruct Hd
           | Hd : _ /\ _ |- _ => destruct Hd
           | Hd : exists _, _ |- _ => destruct Hd
           end;
    try discriminate; try congruence;
    try (left; congruence);
    try (right; split; [eexists; reflexivity|congruence]).
Qed.

Section StringFacts.

Lemma string_length_append (a b : string) :
  String.length (a ++ b)%string = String.length a + String.length b.
Proof. induction a as [|c a IH]; cbn; [reflexivity|]. rewrite IH. reflexivity. Qed.

Lemma string_append_inj_l (s a b : string) : (s ++ a = s ++ b)%string -> a = b.
Proof.
  induction s as [|c s IH]; cbn; intros Heq; [exact Heq|].
  inversion Heq. apply IH. assumption.
Qed.

Lemma string_append_inj_r (s : string) :
  forall a b, (a ++ s = b ++ s)%string -> a = b.
Proof.
  induction a as [|c a IH]; intros [|d b] Heq; cbn in Heq.
  - reflexivity.
  - apply (f_equal String.length) in Heq. cbn in Heq.
    rewrite string_length_append in Heq. lia.
  - apply (f_equal String.length) in Heq. cbn in Heq.
    rewrite string_length_append in Heq. lia.
  - inversion Heq; subst. f_equal. apply IH. assumption.
Qed.

End StringFacts.

(** X13.  Two index entries of a table get the same predicate name exactly
    when their names are equal once capitalized: names that differ only in
    the case of the first letter clash, other names do not. *)
Theorem predicate_names_clash_iff_capitalized_names_agree
  (def : TableDefinition) (a b : Render.TableIndex) :
  Render.createPredicateNameForIndex def a
  = Render.createPredicateNameForIndex def b
  <-> Render.capitalize (Render.idx_name a)
      = Render.capitalize (Render.idx_name b).
Proof.
  unfold Render.createPredicateNameForIndex. split.
  - intros Heq.
    apply string_append_inj_l in Heq. apply string_append_inj_l in Heq.
    apply string_append_inj_r in Heq. exact Heq.
  - intros Heq. rewrite Heq. reflexivity.
Qed.

Section KeyOnlyFacts.
Import Render Js.
Context `{Imports}.


End KeyOnlyFacts.

Section KeyOnly.
Import Render Js.
Context `{Imports}.

#[local] Opaque createPredicateNameForIndex.


End KeyOnly.


Section NullArgumentFacts.
Import Render Js.
Context `{Imports}.

Variable def : TableDefinition.

#[local] Opaque createPredicateNameForIndex.

Lemma filter_some_index (entries : list TableIndex) :
  forallb (isKind key) entries = false ->
  exists i rest,
    filter (fun i => negb (isKind key i)) entries = i :: rest
    /\ In i entries.
Proof.
  induction entries as [|e entries IH]; [discriminate|].
  cbn [forallb filter]. intros Hall.
  destruct (isKind key e) eqn:He; cbn [negb andb] in *.
  - destruct (IH Hall) as [i [rest [Hf Hin]]].
    exists i, rest. split; [exact Hf|right; exact Hin].
  - exists e, (filter (fun i => negb (isKind key i)) entries).
    split; [reflexivity|left; reflexivity].
Qed.

(** The first condition calls the predicate of the first secondary index;
    on [null] the call throws. *)
Lemma exec_conditions_null (vs : list (string * Value)) (i : TableIndex)
  (rest keys : list TableIndex) (ev : list Event) :
  lookup vs "arg" = Some (Data VNull) ->
  lookup vs (createPredicateNameForIndex def i)
  = Some (closureOf (createIndexPredicate def i)) ->
  execList (createConditionsForIndexes def (i :: rest) keys)
    (mkState (("getRequest", Data VNull) :: vs) ev)
  = Exn TypeError.
Proof.
  intros Harg Hpred. rewrite execList_conditions.
  cbn [createConditionsForIndexes hd_error exec].
  cbn [evalExpr vars lookup].
  rewrite (predicate_name_is_not_local def i "getRequest") by (cbn; tauto).
  rewrite Hpred.
  cbn [String.eqb Ascii.eqb Bool.eqb]. rewrite Harg.
  cbn [Js.bind].
  pose proof (predicate_call def i VNull) as Hcall.
  cbn [closureOf createIndexPredicate createConstStatement map
         ts.param_name] in Hcall |- *.
  rewrite Hcall. reflexivity.
Qed.

End NullArgumentFacts.

Section NullArgument.
Import Render Js.
Context `{Imports}.

#[local] Opaque createPredicateNameForIndex.

(** X15.  [get(null)] on a table with a secondary index, when the
    generated statements are printed to the text of themselves
    ([printable]) and the predicates have pairwise distinct names: the
    predicate of the first secondary index is called, [typeof null] is
    ["object"], and [Reflect.has] throws a [TypeError]; no request is made
    and [reject] is not called. *)
Theorem get_on_null_with_secondary_index
  (def : TableDefinition) (entries : list TableIndex)
  (predicates handling : list ts.Statement) :
  getIndexesForTable def = Ok entries ->
  createIndexPredicates def = Ok predicates ->
  createIndexAccessHandling def = Ok handling ->
  printable (predicates ++ handling) = true ->
  distinct (map (createPredicateNameForIndex def) entries) = true ->
  forallb (isKind key) entries = false ->
  callGet predicates handling VNull = Exn TypeError.
Proof.
  intros Hidx Hpreds Hhandling Hprints Hdistinct Hsome.
  unfold callGet. rewrite Hprints. clear Hprints.
  destruct (filter_some_index entries Hsome) as [i [rest [Hfilter Hi]]].
  unfold createIndexPredicates in Hpreds. rewrite Hidx in Hpreds.
  cbn in Hpreds. inversion Hpreds; subst predicates; clear Hpreds.
  unfold createIndexAccessHandling in Hhandling. rewrite Hidx in Hhandling.
  cbn [Render.bind] in Hhandling.
  destruct (getItemNameForTable def) as [itemName|msg];
    cbn [Render.bind] in Hhandling; [|discriminate Hhandling].
  inversion Hhandling; subst handling; clear Hhandling.
  unfold runGet. rewrite declaredNames_predicates, Hdistinct.
  destruct (exec_predicates def entries Hdistinct (mkState [] []))
    as [vars' [Hexec [Hin _]]].
  rewrite Hexec. cbn [Js.bind vars events].
  change ([createLetStatement COMMON_IDENTIFIERS.getRequest ?t ts.NullLiteral]
            ++ ?tail)
    with (createLetStatement COMMON_IDENTIFIERS.getRequest t ts.NullLiteral
            :: tail).
  cbn [execList exec createLetStatement COMMON_IDENTIFIERS.getRequest
         evalExpr Js.bind vars events].
  rewrite execList_app.
  change (filter (fun next => negb match indexKind next with
                                   | key => true
                                   | index => false
                                   end) entries)
    with (filter (fun i => negb (isKind key i)) entries).
  rewrite Hfilter.
  rewrite exec_conditions_null; [reflexivity|reflexivity|].
  cbn [app lookup].
  rewrite !(predicate_name_is_not_local def i) by (cbn; tauto).
  apply Hin. exact Hi.
Qed.

End NullArgument.

(** The table [Posts] of the README has the indexes [title] and [author]:
    [get(null)] throws. *)
Lemma get_on_null_with_secondary_index_witness :
  Js.callGet Example.posts_predicates Example.posts_handling Js.VNull
  = Js.Exn Js.TypeError.
Proof.
  exact (@get_on_null_with_secondary_index Example.imports Example.posts
           [Example.id_key; Example.title_index; Example.author_index]
           Example.posts_predicates Example.posts_handling
           eq_refl eq_refl eq_refl eq_refl eq_refl eq_refl).
Defined.

(** * Errors and locations of the parser *)

Section LocatedFacts.
Import Parser Located.

Variable tokens : list Token.
Variable e : nat.
Hypothesis eof : eofAt tokens e.

Lemma token_before_eof (i : nat) :
  i <= e -> exists tok, nth_error tokens i = Some tok.
Proof.
  intros Hi. destruct eof as [tok [Hnth _]].
  pose proof (nth_error_lt tokens e tok Hnth) as Hlt.
  destruct (nth_error tokens i) as [t|] eqn:Ht; [eauto|].
  apply nth_error_None in Ht. lia.
Qed.

Lemma not_eof_before (i : nat) (tok : Token) :
  i <= e -> nth_error tokens i = Some tok -> kind tok <> Kind.EOF -> i < e.
Proof.
  intros Hi Hnth Hk. destruct eof as [t [Hnth' Hk']].
  destruct (Nat.eq_dec i e) as [->|Hne]; [|lia].
  rewrite Hnth in Hnth'. inversion Hnth'; subst. contradiction.
Qed.

Lemma Safe_bind {A B} (i : nat) (m : M A) (k : A -> M B) :
  Safe tokens e (m i) ->
  (forall a j, m i = Returns a j -> j <= e -> Safe tokens e (k a j)) ->
  Safe tokens e (bind m k i).
Proof.
  intros Hm Hk. unfold bind. destruct (m i) as [a j|err|] eqn:Hmi; cbn in *.
  - apply Hk; [reflexivity|exact Hm].
  - exact Hm.
  - exact I.
Qed.

Lemma Safe_ret {A} (i : nat) (a : A) : i <= e -> Safe tokens e (ret a i).
Proof. intros Hi. exact Hi. Qed.

Lemma Safe_check {B} (i : nat) (type : Kind.t) (k : bool -> M B) :
  i <= e ->
  (forall b, Safe tokens e (k b i)) ->
  Safe tokens e (bind (check tokens [type]) k i).
Proof.
  intros Hi Hk. unfold bind at 1. rewrite check_spec.
  destruct (token_before_eof i Hi) as [tok Hnth]. rewrite Hnth. apply Hk.
Qed.

Lemma Safe_reportThrow {B} (i : nat) (msg : string) :
  i <= e ->
  Safe tokens e (bind (reportError tokens msg) (fun err => @throw B err) i).
Proof.
  intros Hi. unfold bind. rewrite reportError_spec.
  destruct (token_before_eof i Hi) as [tok Hnth]. rewrite Hnth.
  exists i, tok. repeat split; assumption.
Qed.

Lemma Safe_optional {B} (i : nat) (type : Kind.t) (k : option Token -> M B) :
  Kind.eqb type Kind.EOF = false ->
  i <= e ->
  (forall v j, i <= j -> j <= e -> Safe tokens e (k v j)) ->
  Safe tokens e (bind (consume tokens [type]) k i).
Proof.
  intros Hty Hi Hk. unfold bind at 1. rewrite (consume_spec tokens type i Hty).
  destruct (token_before_eof i Hi) as [tok Hnth]. rewrite Hnth.
  destruct (Kind.eqb type (kind tok)) eqn:Hkind.
  - apply Hk; [lia|].
    apply Kind_eqb_true in Hkind.
    assert (kind tok <> Kind.EOF).
    { intros Heq. rewrite Hkind, Heq in Hty. discriminate Hty. }
    pose proof (not_eof_before i tok Hi Hnth H). lia.
  - apply Hk; lia.
Qed.

Lemma Safe_required {B} (i : nat) (type : Kind.t) (msg : string)
  (k : Token -> M B) :
  Kind.eqb type Kind.EOF = false ->
  i <= e ->
  (forall tok, i + 1 <= e -> Safe tokens e (k tok (i + 1))) ->
  Safe tokens e
    (bind (consume tokens [type])
       (fun v => bind (requireValue tokens v msg) k) i).
Proof.
  intros Hty Hi Hk. unfold bind at 1.
  rewrite (consume_spec tokens type i Hty).
  destruct (token_before_eof i Hi) as [tok Hnth]. rewrite Hnth.
  destruct (Kind.eqb type (kind tok)) eqn:Hkind.
  - unfold bind, requireValue, ret.
    apply Kind_eqb_true in Hkind.
    assert (kind tok <> Kind.EOF).
    { intros Heq. rewrite Hkind, Heq in Hty. discriminate Hty. }
    pose proof (not_eof_before i tok Hi Hnth H).
    specialize (Hk tok ltac:(lia)).
    destruct (k tok (i + 1)); exact Hk.
  - unfold bind at 1, requireValue.
    pose proof (Safe_reportThrow (B:=Token) i msg Hi) as Hr.
    unfold bind in Hr |- *.
    destruct (reportError tokens msg i) as [err j| |]; cbn in *;
      try exact Hr; exact I.
Qed.

Lemma Safe_runawayCheck {B} (i : nat) (a b : string) (k : unit -> M B) :
  i <= e ->
  (forall u, Safe tokens e (k u i)) ->
  Safe tokens e (bind (runawayCheck tokens a b) k i).
Proof.
  intros Hi Hk. unfold bind at 1. rewrite runawayCheck_spec.
  destruct (token_before_eof i Hi) as [tok Hnth]. rewrite Hnth.
  assert (Hloc : tokenLocation tokens e (loc tok))
    by (exists i, tok; repeat split; assumption).
  destruct (isStartOfDefinition tok); [exact Hloc|].
  destruct (Kind.eqb Kind.EOF (kind tok)); [exact Hloc|apply Hk].
Qed.

Lemma Safe_readListSeparator (i : nat) :
  i <= e -> Safe tokens e (readListSeparator tokens i).
Proof.
  intros Hi. unfold readListSeparator, bind. rewrite check_spec.
  destruct (token_before_eof i Hi) as [tok Hnth]. rewrite Hnth.
  destruct (Kind.eqb Kind.CommaToken (kind tok)) eqn:Hk; [|exact Hi].
  apply Kind_eqb_true in Hk.
  rewrite (advance_on_token tokens i tok Hnth) by (rewrite <- Hk; reflexivity).
  cbn. assert (kind tok <> Kind.EOF) by (rewrite <- Hk; discriminate).
  pose proof (not_eof_before i tok Hi Hnth H). lia.
Qed.

Lemma parseAnnotationArgs_loop_safe (fuel : nat) :
  forall i args, i <= e ->
    Safe tokens e (parseAnnotationArgs_loop tokens fuel args i).
Proof.
  induction fuel as [|fuel IH]; intros i args Hi; [exact I|].
  cbn [parseAnnotationArgs_loop].
  apply Safe_check; [exact Hi|]. intros [|]; [exact Hi|].
  apply Safe_bind; [apply Safe_readListSeparator; exact Hi|].
  intros _ j _ Hj.
  apply Safe_optional; [reflexivity|exact Hj|]. intros v j' _ Hj'.
  apply Safe_runawayCheck; [exact Hj'|]. intros _. apply IH. exact Hj'.
Qed.

Lemma parseAnnotationArgs_safe (fuel i : nat) :
  i <= e -> Safe tokens e (parseAnnotationArgs tokens fuel i).
Proof.
  intros Hi. unfold parseAnnotationArgs.
  apply Safe_optional; [reflexivity|exact Hi|]. intros [tok|] j _ Hj.
  - apply Safe_bind; [apply parseAnnotationArgs_loop_safe; exact Hj|].
    intros args j' _ Hj'.
    apply Safe_optional; [reflexivity|exact Hj'|]. intros v j'' _ Hj''.
    exact Hj''.
  - exact Hj.
Qed.

Lemma parseAnnotation_safe (fuel i : nat) :
  i <= e -> Safe tokens e (parseAnnotation tokens fuel i).
Proof.
  intros Hi. unfold parseAnnotation.
  apply Safe_required; [reflexivity|exact Hi|]. intros atToken Hi1.
  apply Safe_required; [reflexivity|exact Hi1|]. intros nameToken Hi2.
  apply Safe_bind; [apply parseAnnotationArgs_safe; exact Hi2|].
  intros args j _ Hj. exact Hj.
Qed.

Lemma parseAnnotations_loop_safe (fuel : nat) :
  forall i annotations, i <= e ->
    Safe tokens e (parseAnnotations_loop tokens fuel annotations i).
Proof.
  induction fuel as [|fuel IH]; intros i annotations Hi; [exact I|].
  cbn [parseAnnotations_loop].
  apply Safe_check; [exact Hi|]. intros [|]; [|exact Hi].
  apply Safe_bind; [apply parseAnnotation_safe; exact Hi|].
  intros a j _ Hj. apply IH. exact Hj.
Qed.

Lemma parseTypeArgs_loop_safe (rec : M TypeNode) :
  (forall c, c <= e -> Safe tokens e (rec c)) ->
  forall fuel i typeArgs, i <= e ->
    Safe tokens e (parseTypeArgs_loop tokens rec fuel typeArgs i).
Proof.
  intros Hrec fuel. induction fuel as [|fuel IH]; intros i typeArgs Hi;
    [exact I|].
  cbn [parseTypeArgs_loop].
  apply Safe_check; [exact Hi|]. intros [|]; [exact Hi|].
  apply Safe_bind; [apply Hrec; exact Hi|]. intros t j _ Hj.
  apply Safe_check; [exact Hj|]. intros c'.
  apply Safe_bind.
  - destruct c'; [|exact Hj].
    apply Safe_required; [reflexivity|exact Hj|]. intros tok Hj1. exact Hj1.
  - intros _ j' _ Hj'. apply IH. exact Hj'.
Qed.

Lemma parseTypeReferenceNode_safe (rec : M TypeNode) (fuel i : nat) :
  (forall c, c <= e -> Safe tokens e (rec c)) ->
  i <= e -> Safe tokens e (parseTypeReferenceNode tokens rec fuel i).
Proof.
  intros Hrec Hi. unfold parseTypeReferenceNode.
  apply Safe_required; [reflexivity|exact Hi|]. intros nameToken Hi1.
  apply Safe_optional; [reflexivity|exact Hi1|]. intros [tok|] j _ Hj.
  - apply Safe_bind.
    + apply Safe_bind; [apply parseTypeArgs_loop_safe; assumption|].
      intros typeArgs j' _ Hj'.
      apply Safe_required; [reflexivity|exact Hj'|]. intros closeBracket Hj'1.
      exact Hj'1.
    + intros [typeArgs endToken] j' _ Hj'. exact Hj'.
  - exact Hj.
Qed.

Lemma parseTypeNode_safe (fuel : nat) :
  forall i, i <= e -> Safe tokens e (parseTypeNode tokens fuel i).
Proof.
  induction fuel as [|fuel IH]; intros i Hi; [exact I|].
  cbn [parseTypeNode]. unfold bind at 1, currentToken at 1.
  destruct (token_before_eof i Hi) as [tok Hnth]. rewrite Hnth.
  unfold bind at 1, deref, ret at 1.
  destruct (kind tok) eqn:Hk;
    try (apply Safe_reportThrow; exact Hi);
    try (unfold bind at 1;
         rewrite (advance_on_token tokens i tok Hnth) by (rewrite Hk; reflexivity);
         cbn;
         assert (Hne : kind tok <> Kind.EOF) by (rewrite Hk; discriminate);
         pose proof (not_eof_before i tok Hi Hnth Hne); lia).
  apply parseTypeReferenceNode_safe; [|exact Hi].
  intros c Hc. apply IH. exact Hc.
Qed.

Lemma parseTypeNodes_loop_safe (fuel : nat) :
  forall i typeNodes, i <= e ->
    Safe tokens e (parseTypeNodes_loop tokens fuel typeNodes i).
Proof.
  induction fuel as [|fuel IH]; intros i typeNodes Hi; [exact I|].
  cbn [parseTypeNodes_loop].
  apply Safe_check; [exact Hi|]. intros [|]; [exact Hi|].
  apply Safe_bind; [apply parseTypeNode_safe; exact Hi|]. intros t j _ Hj.
  apply Safe_optional; [reflexivity|exact Hj|]. intros v j' _ Hj'.
  apply Safe_runawayCheck; [exact Hj'|]. intros _. apply IH. exact Hj'.
Qed.

Lemma parseField_safe (fuel i : nat) :
  i <= e -> Safe tokens e (parseField tokens fuel i).
Proof.
  intros Hi. unfold parseField.
  unfold bind at 1, currentToken at 1.
  destruct (token_before_eof i Hi) as [tok Hnth]. rewrite Hnth.
  unfold bind at 1, deref, ret at 1.
  apply Safe_bind; [apply parseAnnotations_loop_safe; exact Hi|].
  intros annotations j _ Hj.
  apply Safe_required; [reflexivity|exact Hj|]. intros nameToken Hj1.
  apply Safe_required; [reflexivity|exact Hj1|]. intros colonToken Hj2.
  apply Safe_bind; [apply parseTypeNode_safe; exact Hj2|].
  intros type j' _ Hj'.
  apply Safe_required; [reflexivity|exact Hj'|]. intros semicolon Hj'1.
  exact Hj'1.
Qed.

Lemma parseFields_loop_safe (fuel : nat) :
  forall i fields, i <= e ->
    Safe tokens e (parseFields_loop tokens fuel fields i).
Proof.
  induction fuel as [|fuel IH]; intros i fields Hi; [exact I|].
  cbn [parseFields_loop].
  apply Safe_check; [exact Hi|]. intros [|]; [exact Hi|].
  apply Safe_bind; [apply parseField_safe; exact Hi|]. intros f j _ Hj.
  apply Safe_runawayCheck; [exact Hj|]. intros _. apply IH. exact Hj.
Qed.

Lemma parseTableDefinition_safe (fuel i : nat) :
  i <= e -> Safe tokens e (parseTableDefinition tokens fuel i).
Proof.
  intros Hi. unfold parseTableDefinition.
  apply Safe_required; [reflexivity|exact Hi|]. intros keywordToken Hi1.
  apply Safe_required; [reflexivity|exact Hi1|]. intros nameToken Hi2.
  apply Safe_bind; [apply parseAnnotations_loop_safe; exact Hi2|].
  intros annotations j _ Hj.
  apply Safe_required; [reflexivity|exact Hj|]. intros openBrace Hj1.
  apply Safe_bind; [apply parseFields_loop_safe; exact Hj1|].
  intros fields j' _ Hj'.
  apply Safe_required; [reflexivity|exact Hj'|]. intros closeBrace Hj'1.
  exact Hj'1.
Qed.

Lemma parseTableDefinitions_loop_safe (fuel : nat) :
  forall i tables, i <= e ->
    Safe tokens e (parseTableDefinitions_loop tokens fuel tables i).
Proof.
  induction fuel as [|fuel IH]; intros i tables Hi; [exact I|].
  cbn [parseTableDefinitions_loop].
  apply Safe_check; [exact Hi|]. intros [|]; [exact Hi|].
  apply Safe_bind; [apply parseTableDefinition_safe; exact Hi|].
  intros t j _ Hj.
  apply Safe_check; [exact Hj|]. intros c1.
  apply Safe_bind.
  - destruct c1; [apply Safe_reportThrow; exact Hj|].
    apply Safe_check; [exact Hj|].
    intros [|]; [apply Safe_reportThrow; exact Hj|exact Hj].
  - intros _ j' _ Hj'. apply IH. exact Hj'.
Qed.

Lemma parseDatabaseDefinition_safe (fuel i : nat) :
  i <= e -> Safe tokens e (parseDatabaseDefinition tokens fuel i).
Proof.
  intros Hi. unfold parseDatabaseDefinition.
  apply Safe_required; [reflexivity|exact Hi|]. intros keywordToken Hi1.
  apply Safe_required; [reflexivity|exact Hi1|]. intros nameToken Hi2.
  apply Safe_required; [reflexivity|exact Hi2|]. intros openBrace Hi3.
  apply Safe_bind; [apply parseTableDefinitions_loop_safe; exact Hi3|].
  intros tables j _ Hj.
  apply Safe_required; [reflexivity|exact Hj|]. intros closeBrace Hj1.
  exact Hj1.
Qed.

Lemma parseTypeDefinition_safe (fuel i : nat) :
  i <= e -> Safe tokens e (parseTypeDefinition tokens fuel i).
Proof.
  intros Hi. unfold parseTypeDefinition.
  apply Safe_required; [reflexivity|exact Hi|]. intros keywordToken Hi1.
  apply Safe_required; [reflexivity|exact Hi1|]. intros nameToken Hi2.
  apply Safe_required; [reflexivity|exact Hi2|]. intros equalToken Hi3.
  apply Safe_bind; [apply parseTypeNodes_loop_safe; exact Hi3|].
  intros body j _ Hj.
  apply Safe_required; [reflexivity|exact Hj|]. intros semicolon Hj1.
  exact Hj1.
Qed.

Lemma parseDefinition_safe (fuel i : nat) :
  i <= e -> Safe tokens e (parseDefinition tokens fuel i).
Proof.
  intros Hi. unfold parseDefinition.
  unfold bind at 1, currentToken at 1.
  destruct (token_before_eof i Hi) as [tok Hnth]. rewrite Hnth.
  unfold bind at 1, deref, ret at 1.
  destruct (kind tok); try (apply Safe_reportThrow; exact Hi).
  - apply Safe_bind; [apply parseDatabaseDefinition_safe; exact Hi|].
    intros d j _ Hj. exact Hj.
  - apply Safe_bind; [apply parseTypeDefinition_safe; exact Hi|].
    intros d j _ Hj. exact Hj.
Qed.

Lemma parse_loop_safe (fuel : nat) :
  forall i body, i <= e -> Safe tokens e (parse_loop tokens fuel body i).
Proof.
  induction fuel as [|fuel IH]; intros i body Hi; [exact I|].
  cbn [parse_loop]. unfold bind at 1. rewrite isAtEnd_spec.
  match goal with |- context [if ?b then _ else _] => destruct b end;
    [exact Hi|].
  apply Safe_bind; [apply parseDefinition_safe; exact Hi|].
  intros d j _ Hj. apply IH. exact Hj.
Qed.

End LocatedFacts.

(** X16.  When the token array holds an [EOF] token, at [e], [parse()]
    never throws a [TypeError]: if it returns, the cursor is not past that
    token, and every error it throws is a [ParseError] whose location is
    the location of a token of the array, at or before [e]. *)
Theorem parse_errors_are_located
  (tokens : list Token) (e fuel : nat) :
  Located.eofAt tokens e ->
  match Parser.parse tokens fuel with
  | Parser.Returns _ j => j <= e
  | Parser.Throws Parser.TypeError => False
  | Parser.Throws (Parser.ParseError _ l) =>
      exists k tok,
        k <= e /\ nth_error tokens k = Some tok /\ l = loc tok
  | Parser.OutOfFuel => True
  end.
Proof.
  intros Heof. unfold Parser.parse, Parser.bind.
  pose proof (parse_loop_safe tokens e Heof fuel 0 [] ltac:(lia)) as Hs.
  destruct (Parser.parse_loop tokens fuel [] 0) as [body j|err|];
    exact Hs.
Qed.

(** [database D { table T { a: string;] with its [EOF] token, the eleventh:
    the error is thrown at [33], where the [EOF] token is. *)
Lemma parse_errors_are_located_witness :
  exists k tok,
    k <= 10
    /\ nth_error ParserExample.unclosed_table_tokens k = Some tok
    /\ createTextLocation 33 33 = loc tok.
Proof.
  exact (parse_errors_are_located ParserExample.unclosed_table_tokens 10 10
           (ex_intro _ (Example.tk Kind.EOF "" 33) (conj eq_refl eq_refl))).
Defined.

(** ** Locations of the parsed nodes *)

Section LocationFacts.
Import Parser.

Variable tokens : list Token.

Lemma bind_Returns {A B} (m : M A) (k : A -> M B) (i : nat) (b : B)
  (j : nat) :
  bind m k i = Returns b j ->
  exists a i', m i = Returns a i' /\ k a i' = Returns b j.
Proof.
  unfold bind. destruct (m i) as [a i'|err|]; intros Hrun;
    try discriminate Hrun.
  exists a, i'. split; [reflexivity|exact Hrun].
Qed.

Lemma required_Returns {B} (type : Kind.t) (msg : string)
  (k : Token -> M B) (i : nat) (b : B) (j : nat) :
  Kind.eqb type Kind.EOF = false ->
  bind (consume tokens [type])
    (fun v => bind (requireValue tokens v msg) k) i = Returns b j ->
  exists tok,
    nth_error tokens i = Some tok /\ kind tok = type
    /\ k tok (i + 1) = Returns b j.
Proof.
  intros Hty. unfold bind at 1. rewrite (consume_spec tokens type i Hty).
  destruct (nth_error tokens i) as [tok|]; [|discriminate].
  destruct (Kind.eqb type (kind tok)) eqn:Hk.
  - intros Hrun. exists tok. apply Kind_eqb_true in Hk.
    split; [reflexivity|]. split; [symmetry; exact Hk|exact Hrun].
  - unfold bind at 1.
    destruct (@requireValue_None tokens Token msg i) as [err Herr].
    rewrite Herr. discriminate.
Qed.

Lemma current_Returns {B} (k : Token -> M B) (i : nat) (b : B) (j : nat) :
  bind (currentToken tokens) (fun cur => bind (deref cur) k) i
  = Returns b j ->
  exists tok, nth_error tokens i = Some tok /\ k tok i = Returns b j.
Proof.
  unfold bind at 1, currentToken at 1.
  destruct (nth_error tokens i) as [tok|]; [|discriminate].
  intros Hrun. exists tok. split; [reflexivity|exact Hrun].
Qed.

Lemma reportThrow_Returns {B} (msg : string) (i : nat) (b : B) (j : nat) :
  bind (reportError tokens msg) (fun err => throw err) i = Returns b j ->
  False.
Proof.
  unfold bind. rewrite reportError_spec.
  destruct (nth_error tokens i); discriminate.
Qed.

Lemma span_self (tok : Token) : loc tok = Located.span tok tok.
Proof. destruct tok as [k t [s e]]. reflexivity. Qed.

End LocationFacts.

Ltac required H tok Hnth Hkind :=
  apply required_Returns in H; [|reflexivity];
  destruct H as [tok [Hnth [Hkind H]]].

Ltac bound H a j Hrun :=
  apply bind_Returns in H; destruct H as [a [j [Hrun H]]].

(** X17.  The location of an annotation covers [@] and the name only: it
    runs from the start of the [@] token to the end of the name token that
    follows, however many tokens the argument list takes. *)
Theorem annotation_location_is_at_and_name
  (tokens : list Token) (fuel i : nat) (r : option Annotation) (j : nat) :
  Parser.parseAnnotation tokens fuel i = Parser.Returns r j ->
  exists atToken nameToken a,
    r = Some a
    /\ nth_error tokens i = Some atToken
    /\ kind atToken = Kind.AtToken
    /\ nth_error tokens (i + 1) = Some nameToken
    /\ kind nameToken = Kind.Identifier
    /\ ann_name a = createIdentifier (text nameToken) (loc nameToken)
    /\ ann_loc a = Located.span atToken nameToken.
Proof.
  intros Hrun. unfold Parser.parseAnnotation in Hrun.
  required Hrun atToken Hat Hkat.
  required Hrun nameToken Hname Hkname.
  bound Hrun args j' Hargs.
  inversion Hrun; subst.
  eexists atToken, nameToken, _. repeat split; assumption.
Qed.

(** [@item("Post")] in the schema of the README: the location is that of
    [@item]. *)
Lemma annotation_location_is_at_and_name_witness :
  exists atToken nameToken a,
    Some LocationExample.item_annotation = Some a
    /\ nth_error Example.blog_tokens 5 = Some atToken
    /\ kind atToken = Kind.AtToken
    /\ nth_error Example.blog_tokens (5 + 1) = Some nameToken
    /\ kind nameToken = Kind.Identifier
    /\ ann_name a = createIdentifier (text nameToken) (loc nameToken)
    /\ ann_loc a = Located.span atToken nameToken.
Proof.
  exact (annotation_location_is_at_and_name Example.blog_tokens 10 5
           (Some LocationExample.item_annotation) 10 eq_refl).
Defined.

(** X18.  The location of a type node runs from the start of its first token
    to the end of its last: one token for a keyword or a literal, the name
    alone for a type reference without [<], the name up to the closing [>]
    for one with type arguments. *)
Theorem type_node_location_spans_its_tokens
  (tokens : list Token) (fuel i : nat) (t : TypeNode) (j : nat) :
  Parser.parseTypeNode tokens fuel i = Parser.Returns t j ->
  exists first last,
    nth_error tokens i = Some first
    /\ nth_error tokens (j - 1) = Some last
    /\ Located.typeNodeLoc t = Located.span first last.
Proof.
  intros Hrun. destruct fuel as [|fuel]; [discriminate Hrun|].
  cbn [Parser.parseTypeNode] in Hrun.
  apply current_Returns in Hrun. destruct Hrun as [first [Hfirst Hrun]].
  exists first.
  destruct (kind first) eqn:Hk;
    try (exfalso; exact (reportThrow_Returns tokens _ i t j Hrun));
    try (unfold Parser.bind at 1 in Hrun;
         rewrite (advance_on_token tokens i first Hfirst) in Hrun
           by (rewrite Hk; reflexivity);
         inversion Hrun; subst; exists first;
         replace (i + 1 - 1) with i by lia;
         split; [exact Hfirst|]; split; [exact Hfirst|];
         apply span_self).
  unfold Parser.parseTypeReferenceNode in Hrun.
  required Hrun nameToken Hname Hkname.
  rewrite Hfirst in Hname. inversion Hname; subst nameToken. clear Hname.
  unfold Parser.bind at 1 in Hrun.
  rewrite (consume_spec tokens Kind.LessThanToken (i + 1) eq_refl) in Hrun.
  destruct (nth_error tokens (i + 1)) as [tok|]; [|discriminate Hrun].
  destruct (Kind.eqb Kind.LessThanToken (kind tok)).
  - bound Hrun r j1 Hargs. destruct r as [typeArgs endToken].
    bound Hargs typeArgs' j2 Hloop.
    required Hargs closeBracket Hclose Hkclose.
    inversion Hargs; subst. inversion Hrun; subst.
    exists endToken. replace (j2 + 1 - 1) with j2 by lia.
    split; [exact Hfirst|]. split; [exact Hclose|reflexivity].
  - bound Hrun r j1 Hargs. inversion Hargs; subst. inversion Hrun; subst.
    exists first. replace (i + 1 - 1) with i by lia.
    split; [exact Hfirst|]. split; [exact Hfirst|reflexivity].
Qed.

(** [Map<string>>] as the type of a field: the location ends with the second
    [>], the last token the type node takes. *)
Lemma type_node_location_spans_its_tokens_witness :
  exists first last,
    nth_error
      (Example.field_type_tokens Example.map_string_twice_closed_tokens) 8
    = Some first
    /\ nth_error
         (Example.field_type_tokens Example.map_string_twice_closed_tokens)
         (13 - 1)
       = Some last
    /\ Located.typeNodeLoc LocationExample.map_type
       = Located.span first last.
Proof.
  exact (type_node_location_spans_its_tokens
           (Example.field_type_tokens Example.map_string_twice_closed_tokens)
           10 8 LocationExample.map_type 13 eq_refl).
Defined.

(** X19.  The location of a field runs from the start of its first token,
    the [@] of its first annotation when it has one, to the end of the
    semicolon that closes it. *)
Theorem field_location_spans_its_tokens
  (tokens : list Token) (fuel i : nat) (f : FieldDefinition) (j : nat) :
  Parser.parseField tokens fuel i = Parser.Returns f j ->
  exists first last,
    nth_error tokens i = Some first
    /\ nth_error tokens (j - 1) = Some last
    /\ kind last = Kind.SemicolonToken
    /\ fld_loc f = Located.span first last.
Proof.
  intros Hrun. unfold Parser.parseField in Hrun.
  apply current_Returns in Hrun. destruct Hrun as [first [Hfirst Hrun]].
  cbv zeta in Hrun.
  bound Hrun annotations j1 Hann.
  required Hrun nameToken Hname Hkname.
  required Hrun colonToken Hcolon Hkcolon.
  bound Hrun type j2 Htype.
  required Hrun semicolon Hsemi Hksemi.
  inversion Hrun; subst.
  exists first, semicolon. replace (j2 + 1 - 1) with j2 by lia.
  repeat split; assumption.
Qed.

(** [@autoincrement id: number;] in the schema of the README. *)
Lemma field_location_spans_its_tokens_witness :
  exists first last,
    nth_error Example.blog_tokens 11 = Some first
    /\ nth_error Example.blog_tokens (17 - 1) = Some last
    /\ kind last = Kind.SemicolonToken
    /\ fld_loc LocationExample.id_field = Located.span first last.
Proof.
  exact (field_location_spans_its_tokens Example.blog_tokens 10 11
           LocationExample.id_field 17 eq_refl).
Defined.

(** X20.  A table that parses starts with the keyword [table] followed by
    its name, and ends with [}]: the name of the node is the identifier
    token, its location runs from the start of the keyword to the end of the
    closing brace. *)
Theorem table_location_spans_its_tokens
  (tokens : list Token) (fuel i : nat) (t : TableDefinition) (j : nat) :
  Parser.parseTableDefinition tokens fuel i = Parser.Returns t j ->
  exists keywordToken nameToken closeBrace,
    nth_error tokens i = Some keywordToken
    /\ kind keywordToken = Kind.TableKeyword
    /\ nth_error tokens (i + 1) = Some nameToken
    /\ kind nameToken = Kind.Identifier
    /\ nth_error tokens (j - 1) = Some closeBrace
    /\ kind closeBrace = Kind.RightBraceToken
    /\ tbl_name t = createIdentifier (text nameToken) (loc nameToken)
    /\ tbl_loc t = Located.span keywordToken closeBrace.
Proof.
  intros Hrun. unfold Parser.parseTableDefinition in Hrun.
  required Hrun keywordToken Hkeyword Hkkeyword.
  required Hrun nameToken Hname Hkname.
  bound Hrun annotations j1 Hann.
  required Hrun openBrace Hopen Hkopen.
  bound Hrun fields j2 Hfields.
  required Hrun closeBrace Hclose Hkclose.
  inversion Hrun; subst.
  exists keywordToken, nameToken, closeBrace.
  replace (j2 + 1 - 1) with j2 by lia.
  repeat split; assumption.
Qed.

(** The table [Posts] of the README, tokens 3 to 33 of the schema. *)
Lemma table_location_spans_its_tokens_witness :
  exists keywordToken nameToken closeBrace,
    nth_error Example.blog_tokens 3 = Some keywordToken
    /\ kind keywordToken = Kind.TableKeyword
    /\ nth_error Example.blog_tokens (3 + 1) = Some nameToken
    /\ kind nameToken = Kind.Identifier
    /\ nth_error Example.blog_tokens (34 - 1) = Some closeBrace
    /\ kind closeBrace = Kind.RightBraceToken
    /\ tbl_name LocationExample.posts
       = createIdentifier (text nameToken) (loc nameToken)
    /\ tbl_loc LocationExample.posts
       = Located.span keywordToken closeBrace.
Proof.
  exact (table_location_spans_its_tokens Example.blog_tokens 10 3
           LocationExample.posts 34 eq_refl).
Defined.

(** X21.  A top-level definition that parses is never [null]; it starts with
    its keyword followed by its name, and its location runs from the start
    of the keyword to the end of the token that closes it, [}] for a
    database and [;] for a type. *)
Theorem definition_location_spans_its_tokens
  (tokens : list Token) (fuel i : nat) (r : option Definition_) (j : nat) :
  Parser.parseDefinition tokens fuel i = Parser.Returns r j ->
  exists keywordToken nameToken last d,
    r = Some d
    /\ nth_error tokens i = Some keywordToken
    /\ nth_error tokens (i + 1) = Some nameToken
    /\ kind nameToken = Kind.Identifier
    /\ nth_error tokens (j - 1) = Some last
    /\ kind last = Located.closingKind d
    /\ Located.definitionName d
       = createIdentifier (text nameToken) (loc nameToken)
    /\ Located.definitionLoc d = Located.span keywordToken last.
Proof.
  intros Hrun. unfold Parser.parseDefinition in Hrun.
  apply current_Returns in Hrun. destruct Hrun as [next [Hnext Hrun]].
  destruct (kind next) eqn:Hk;
    try (exfalso; exact (reportThrow_Returns tokens _ i r j Hrun)).
  - bound Hrun d j0 Hdb. inversion Hrun; subst.
    unfold Parser.parseDatabaseDefinition in Hdb.
    required Hdb keywordToken Hkeyword Hkkeyword.
    required Hdb nameToken Hname Hkname.
    required Hdb openBrace Hopen Hkopen.
    bound Hdb tables j1 Htables.
    required Hdb closeBrace Hclose Hkclose.
    inversion Hdb; subst.
    eexists keywordToken, nameToken, closeBrace, _.
    replace (j1 + 1 - 1) with j1 by lia.
    repeat split; assumption.
  - bound Hrun d j0 Hty. inversion Hrun; subst.
    unfold Parser.parseTypeDefinition in Hty.
    required Hty keywordToken Hkeyword Hkkeyword.
    required Hty nameToken Hname Hkname.
    required Hty equalToken Hequal Hkequal.
    bound Hty body j1 Hbody.
    required Hty semicolon Hsemi Hksemi.
    inversion Hty; subst.
    eexists keywordToken, nameToken, semicolon, _.
    replace (j1 + 1 - 1) with j1 by lia.
    repeat split; assumption.
Qed.

(** [type Status = "open" | "closed";]: tokens 0 to 6. *)
Lemma definition_location_spans_its_tokens_witness :
  exists keywordToken nameToken last d,
    Some LocationExample.status = Some d
    /\ nth_error ParserExample.status_tokens 0 = Some keywordToken
    /\ nth_error ParserExample.status_tokens (0 + 1) = Some nameToken
    /\ kind nameToken = Kind.Identifier
    /\ nth_error ParserExample.status_tokens (7 - 1) = Some last
    /\ kind last = Located.closingKind d
    /\ Located.definitionName d
       = createIdentifier (text nameToken) (loc nameToken)
    /\ Located.definitionLoc d = Located.span keywordToken last.
Proof.
  exact (definition_location_spans_its_tokens ParserExample.status_tokens 5 0
           (Some LocationExample.status) 7 eq_refl).
Defined.
